(** * Vorlesungs-Planer: the text-to-schedule pipeline

    A shallow embedding of [vorlesungen2.py]: title cleaning, block parsing,
    holiday-week inference, expansion of sessions into calendar occurrences,
    the prefix filter and the deduplication that precedes the export.
    [detect_holiday_weeks], [generate_ics] and the prefix filter read the
    same in [ai_studio_code-3.py], whose title cleaner and time-slot
    signature are embedded next to their counterparts; its block parser and
    its time slots are embedded in the module [AiStudio].

    The library functions the program calls ([re], [str] methods,
    [datetime], [strptime], [strftime]) are embedded by their behaviour in
    CPython 3 on Linux; the definitions follow the library's own algorithms.

    Python values are embedded as follows.
    - [str] is [string]; an [ascii] stands for the code point of the same
      number, so the texts of the model are the texts over code points
      0..255 (this covers the keyword [Hörsaal], whose [ö] is code point 246).
      Above code point 255 the classes [\d], [\s] and [\w] of [re] take
      further characters, the full-width digits for one, which [strptime]
      does not read as the digits 0 to 9; the model has no such text, and a
      property that rests on the digits of a field being 0 to 9 asks for
      it ([plain]).
    - [datetime.date] is the proleptic Gregorian ordinal of the day
      ([date.toordinal()]), a [Z]; [timedelta(days=k)] is the integer [k].
    - a dict with a fixed set of keys is a record; [None] is [None]. *)

From Stdlib Require Import ZArith List String Ascii Bool Lia Arith.
From Stdlib Require Import Sorting.Sorted.
Import ListNotations.

Local Open Scope string_scope.
Local Open Scope Z_scope.

(** ** Python strings *)

Module Str.

(** Code point of a character. *)
Definition ord (c : ascii) : N := N_of_ascii c.

Definition between (lo hi : N) (c : ascii) : bool :=
  (N.leb lo (ord c) && N.leb (ord c) hi)%bool.

(** [str.isspace()] of one character, which is also the class [\s] of [re] on
    [str] patterns: TAB..CR, FS..US, SPACE, NEL and NBSP below code point 256. *)
Definition is_space (c : ascii) : bool :=
  (between 9 13 c || between 28 32 c || N.eqb (ord c) 133 || N.eqb (ord c) 160)%bool.

(** The class [\d] of [re] (decimal digits): only 0..9 below code point 256.
    On [str] patterns the class also takes the decimal digits of other
    scripts, all of them above code point 255. *)
Definition is_digit (c : ascii) : bool := between 48 57 c.

(** The class [\w] of [re]: alphanumeric characters and the underscore. Below
    code point 256 the alphanumerics are the ASCII letters and digits, the
    letters of Latin-1 and its superscript digits and vulgar fractions. *)
Definition is_word (c : ascii) : bool :=
  (between 48 57 c || between 65 90 c || between 97 122 c || N.eqb (ord c) 95
   || N.eqb (ord c) 170 || N.eqb (ord c) 181 || N.eqb (ord c) 186
   || between 178 179 c || N.eqb (ord c) 185 || between 188 190 c
   || between 192 214 c || between 216 246 c || between 248 255 c)%bool.

(** [s.count(c)] for a one-character [c]. *)
Fixpoint count (c : ascii) (s : string) : Z :=
  match s with
  | EmptyString => 0
  | String a s' => (if Ascii.eqb a c then 1 else 0) + count c s'
  end.

(** [c in s] for a one-character [c]. *)
Fixpoint contains (c : ascii) (s : string) : bool :=
  match s with
  | EmptyString => false
  | String a s' => if Ascii.eqb a c then true else contains c s'
  end.

(** [s.split(c)] for a one-character separator: never empty, and one more
    piece than there are separators. *)
Fixpoint split (c : ascii) (s : string) : list string :=
  match s with
  | EmptyString => [EmptyString]
  | String a s' =>
      if Ascii.eqb a c then EmptyString :: split c s'
      else match split c s' with
           | h :: t => String a h :: t
           | [] => [String a EmptyString]
           end
  end.

Fixpoint lstrip (s : string) : string :=
  match s with
  | EmptyString => EmptyString
  | String a s' => if is_space a then lstrip s' else s
  end.

Fixpoint rstrip (s : string) : string :=
  match s with
  | EmptyString => EmptyString
  | String a s' =>
      match rstrip s' with
      | EmptyString => if is_space a then EmptyString else String a EmptyString
      | r => String a r
      end
  end.

(** [s.strip()]: whitespace removed at both ends. *)
Definition strip (s : string) : string := rstrip (lstrip s).

(** [s.replace(a, b)] for one-character [a] and [b]. *)
Fixpoint replace (a b : ascii) (s : string) : string :=
  match s with
  | EmptyString => EmptyString
  | String c s' => String (if Ascii.eqb c a then b else c) (replace a b s')
  end.

(** [sep.join(l)]. *)
Fixpoint join (sep : string) (l : list string) : string :=
  match l with
  | [] => EmptyString
  | [x] => x
  | x :: t => x ++ sep ++ join sep t
  end.

(** [s.startswith(p)]. *)
Definition startswith (s p : string) : bool := String.prefix p s.

End Str.

(** ** Title cleaning ([clean_title_logic], vorlesungen2.py) *)

(** [dots == 1] guards the cut at the first hyphen; every other identifier
    falls through to [raw_title.strip()]. *)
Definition clean_title_logic (course_id raw_title : string) : string :=
  let dots := Str.count "." course_id in
  if dots =? 1 then
    if Str.contains "-" raw_title then
      Str.strip (hd "" (Str.split "-" raw_title))
    else Str.strip raw_title
  else Str.strip raw_title.

(** [clean_title_string] of ai_studio_code-3.py: the cut is unconditional. *)
Definition clean_title_string (title : string) : string :=
  if Str.contains "-" title then Str.strip (hd "" (Str.split "-" title))
  else Str.strip title.

(** ** Regular expressions ([re], backtracking semantics)

    The patterns of the program use literals, character classes, sequence,
    ordered alternation, greedy [?], [*], [+] and bounded repetition, capture
    groups and [^].  The matcher below is the backtracking matcher of [re]:
    alternatives are tried left to right, a greedy quantifier tries the longer
    match first, and the first success is the result. *)

Module Re.

Inductive regex : Type :=
| Eps
| Bol                                   (* ^ (without MULTILINE) *)
| Chr (p : ascii -> bool)               (* one character of a class *)
| Seq (r1 r2 : regex)
| Alt (r1 r2 : regex)                   (* r1|r2 *)
| Opt (r : regex)                       (* r? *)
| Star (r : regex)                      (* r* *)
| Plus (r : regex)                      (* r+ *)
| Grp (n : nat) (r : regex).            (* the n-th capture group *)

(** Captures, the most recent one of a group first. *)
Definition caps := list (nat * string).

Fixpoint take (n : nat) (s : string) : string :=
  match n, s with
  | S n', String a s' => String a (take n' s')
  | _, _ => EmptyString
  end.

(** The text between a position of the subject (the suffix [s] starting
    there) and a later one (the suffix [s']). *)
Definition consumed (s s' : string) : string :=
  take (String.length s - String.length s') s.

Definition lit (c : ascii) : regex := Chr (Ascii.eqb c).
Definition rng (a b : ascii) : regex := Chr (Str.between (Str.ord a) (Str.ord b)).
Definition digit : regex := Chr Str.is_digit.
Definition space : regex := Chr Str.is_space.

Fixpoint word (w : string) : regex :=
  match w with
  | EmptyString => Eps
  | String a EmptyString => lit a
  | String a w' => Seq (lit a) (word w')
  end.

Section Matcher.
Context {A : Type}.

(** Length of the whole subject: [^] holds where nothing is consumed yet. *)
Variable whole : nat.

Definition cont := string -> caps -> option A.
Definition matcher := string -> caps -> cont -> option A.

(** Greedy iteration of [m]: an iteration first, the continuation when no
    iteration leads to a match.  Every iteration consumes a character, so
    [fuel] iterations are enough on a subject of [fuel] characters. *)
Fixpoint star_loop (m : matcher) (k : cont) (fuel : nat) (s : string) (cs : caps)
  : option A :=
  match fuel with
  | O => k s cs
  | S f =>
      match m s cs (fun s' cs' =>
                      if (String.length s' <? String.length s)%nat
                      then star_loop m k f s' cs' else None) with
      | Some x => Some x
      | None => k s cs
      end
  end.

Fixpoint run (r : regex) (s : string) (cs : caps) (k : cont) {struct r} : option A :=
  match r with
  | Eps => k s cs
  | Bol => if Nat.eqb (String.length s) whole then k s cs else None
  | Chr p =>
      match s with
      | String a s' => if p a then k s' cs else None
      | EmptyString => None
      end
  | Seq r1 r2 => run r1 s cs (fun s' cs' => run r2 s' cs' k)
  | Alt r1 r2 =>
      match run r1 s cs k with
      | Some x => Some x
      | None => run r2 s cs k
      end
  | Opt r1 =>
      match run r1 s cs k with
      | Some x => Some x
      | None => k s cs
      end
  | Star r1 => star_loop (run r1) k (String.length s) s cs
  | Plus r1 =>
      run r1 s cs (fun s' cs' => star_loop (run r1) k (String.length s') s' cs')
  | Grp n r1 => run r1 s cs (fun s' cs' => k s' ((n, consumed s s') :: cs'))
  end.

End Matcher.

(** A match object: the matched text ([group(0)]), what follows it in the
    subject, the offset where it starts and the captures. *)
Record mobj : Type := MObj {
  m_start : nat;
  m_text : string;
  m_rest : string;
  m_caps : caps
}.

Definition match_at (r : regex) (whole : nat) (s : string) : option mobj :=
  run whole r s [] (fun s' cs =>
    Some (MObj (whole - String.length s) (consumed s s') s' cs)).

(** [re.match(r, s)]: a match that starts at offset 0. *)
Definition rmatch (r : regex) (s : string) : option mobj :=
  match_at r (String.length s) s.

Fixpoint search_from (r : regex) (whole : nat) (s : string) : option mobj :=
  match match_at r whole s with
  | Some m => Some m
  | None =>
      match s with
      | EmptyString => None
      | String _ s' => search_from r whole s'
      end
  end.

(** [re.search(r, s)]: the match at the smallest offset that has one. *)
Definition search (r : regex) (s : string) : option mobj :=
  search_from r (String.length s) s.

(** [m.group(n)] for [n >= 1]: [None] when the group took no part. *)
Fixpoint lookup (n : nat) (cs : caps) : option string :=
  match cs with
  | [] => None
  | (i, v) :: t => if Nat.eqb i n then Some v else lookup n t
  end.

Definition group (m : mobj) (n : nat) : option string := lookup n (m_caps m).

(** *** Vocabulary for the facts about the matcher *)

(** Patterns without [^] do not look at the offset. *)
Fixpoint unanchored (r : regex) : bool :=
  match r with
  | Bol => false
  | Eps | Chr _ => true
  | Seq r1 r2 | Alt r1 r2 => unanchored r1 && unanchored r2
  | Opt r1 | Star r1 | Plus r1 | Grp _ r1 => unanchored r1
  end.

(** The groups of a pattern, and the captures a match of it can add. *)
Fixpoint groups (r : regex) : list nat :=
  match r with
  | Eps | Bol | Chr _ => []
  | Seq r1 r2 | Alt r1 r2 => (groups r1 ++ groups r2)%list
  | Opt r1 | Star r1 | Plus r1 => groups r1
  | Grp n r1 => n :: groups r1
  end.

Definition caps_of (ns : list nat) (c : caps) : Prop :=
  Forall (fun p => In (fst p) ns) c.

(** [s'] is what remains of [s] after some prefix. *)
Definition suffix_of (s s' : string) : Prop := exists p, s = p ++ s'.

(** A match that succeeds has called its continuation, after some prefix of
    the subject and with captures of the groups of the pattern added. *)
Definition reaches {A : Type} (ns : list nat) (k : @cont A) (s : string)
    (cs : caps) (x : A) : Prop :=
  exists s' c', suffix_of s s' /\ caps_of ns c' /\ k s' (c' ++ cs)%list = Some x.

(** [m] is the match of [r] at the smallest offset of [text] that has one. *)
Definition leftmost (r : regex) (text : string) (m : mobj) : Prop :=
  exists pre s',
    text = pre ++ s' /\ match_at r (String.length text) s' = Some m /\
    forall p q, pre = p ++ q -> q <> "" ->
                match_at r (String.length text) (q ++ s') = None.

(** [r] matches at no offset of [text]. *)
Definition unmatched (r : regex) (text : string) : Prop :=
  forall p s', text = p ++ s' -> match_at r (String.length text) s' = None.

End Re.

(** ** Dates ([datetime]) *)

Module Cal.

Definition is_leap (year : Z) : bool :=
  ((year mod 4 =? 0) && (negb (year mod 100 =? 0) || (year mod 400 =? 0)))%bool.

Definition days_before_year (year : Z) : Z :=
  let y := year - 1 in y * 365 + y / 4 - y / 100 + y / 400.

Definition DAYS_IN_MONTH (month : Z) : Z :=
  match month with
  | 1 => 31 | 2 => 28 | 3 => 31 | 4 => 30 | 5 => 31 | 6 => 30
  | 7 => 31 | 8 => 31 | 9 => 30 | 10 => 31 | 11 => 30 | 12 => 31
  | _ => -1
  end.

Definition DAYS_BEFORE_MONTH (month : Z) : Z :=
  match month with
  | 1 => 0 | 2 => 31 | 3 => 59 | 4 => 90 | 5 => 120 | 6 => 151
  | 7 => 181 | 8 => 212 | 9 => 243 | 10 => 273 | 11 => 304 | 12 => 334
  | _ => -1
  end.

Definition days_in_month (year month : Z) : Z :=
  if ((month =? 2) && is_leap year)%bool then 29 else DAYS_IN_MONTH month.

Definition days_before_month (year month : Z) : Z :=
  DAYS_BEFORE_MONTH month + (if ((2 <? month) && is_leap year)%bool then 1 else 0).

(** [date(year, month, day).toordinal()]; 1 is 0001-01-01. *)
Definition ymd2ord (year month day : Z) : Z :=
  days_before_year year + days_before_month year month + day.

Definition DI400Y : Z := 146097.
Definition DI100Y : Z := 36524.
Definition DI4Y : Z := 1461.

(** The month and the day that [ord2ymd] computes from the day [n] of a year. *)
Definition md_of (n : Z) (leapyear : bool) : Z * Z :=
  let month := Z.shiftr (n + 50) 5 in
  let preceding :=
    DAYS_BEFORE_MONTH month + (if ((2 <? month) && leapyear)%bool then 1 else 0) in
  if n <? preceding then
    let month := month - 1 in
    let preceding :=
      preceding
      - (DAYS_IN_MONTH month + (if ((month =? 2) && leapyear)%bool then 1 else 0)) in
    (month, n - preceding + 1)
  else (month, n - preceding + 1).

(** [date.fromordinal(n)] as (year, month, day). *)
Definition ord2ymd (n : Z) : Z * Z * Z :=
  let n := n - 1 in
  let n400 := n / DI400Y in
  let n := n mod DI400Y in
  let year := n400 * 400 + 1 in
  let n100 := n / DI100Y in
  let n := n mod DI100Y in
  let n4 := n / DI4Y in
  let n := n mod DI4Y in
  let n1 := n / 365 in
  let n := n mod 365 in
  let year := year + n100 * 100 + n4 * 4 + n1 in
  if ((n1 =? 4) || (n100 =? 4))%bool then (year - 1, 12, 31)
  else
    let leapyear := ((n1 =? 3) && (negb (n4 =? 24) || (n100 =? 3)))%bool in
    let '(month, day) := md_of n leapyear in
    (year, month, day).

Definition year_of (n : Z) : Z := fst (fst (ord2ymd n)).
Definition month_of (n : Z) : Z := snd (fst (ord2ymd n)).
Definition day_of (n : Z) : Z := snd (ord2ymd n).

(** The first and the last day of [datetime.date]. *)
Definition MINORD : Z := 1.
Definition MAXORD : Z := 3652059.

Definition valid (n : Z) : Prop := MINORD <= n <= MAXORD.

(** [d.weekday()]: Monday is 0. *)
Definition weekday (n : Z) : Z := (n + 6) mod 7.

Definition isoweek1monday (year : Z) : Z :=
  let firstday := ymd2ord year 1 1 in
  let firstweekday := (firstday + 6) mod 7 in
  let week1monday := firstday - firstweekday in
  if 3 <? firstweekday then week1monday + 7 else week1monday.

(** [d.isocalendar()[1]], the ISO week number. *)
Definition isoweek (n : Z) : Z :=
  let year := year_of n in
  let week1monday := isoweek1monday year in
  let week := (n - week1monday) / 7 in
  if week <? 0 then
    (n - isoweek1monday (year - 1)) / 7 + 1
  else if 52 <=? week then
    if isoweek1monday (year + 1) <=? n then 1 else week + 1
  else week + 1.

(** A naive [datetime.datetime]: the day and the time of day. *)
Record datetime : Type := DateTime {
  dt_date : Z;
  dt_hour : Z;
  dt_minute : Z
}.

Definition digit_char (n : Z) : ascii := ascii_of_N (Z.to_N (48 + n)).

Definition pad2 (n : Z) : string :=
  String (digit_char (n / 10 mod 10)) (String (digit_char (n mod 10)) "").

Definition pad4 (n : Z) : string :=
  String (digit_char (n / 1000 mod 10))
    (String (digit_char (n / 100 mod 10)) (pad2 n)).

(** The year as [%Y] writes it.  [strftime] of CPython 3 hands the format to
    the C library of the platform; the one of Linux writes the year in
    decimal without padding, so that a year below 1000 has fewer than four
    digits. *)
Definition year_text (y : Z) : string :=
  if y <? 10 then String (digit_char (y mod 10)) ""
  else if y <? 100 then pad2 y
  else if y <? 1000 then String (digit_char (y / 100 mod 10)) (pad2 y)
  else pad4 y.

(** [d.strftime('%d.%m.%Y')]: day and month on two digits, then the year. *)
Definition strftime_dmY (n : Z) : string :=
  let '(y, m, d) := ord2ymd n in
  pad2 d ++ "." ++ pad2 m ++ "." ++ year_text y.

(** [int(s)] on the texts the directives below capture: decimal digits after
    optional blanks. *)
Fixpoint int_acc (acc : Z) (s : string) : Z :=
  match s with
  | EmptyString => acc
  | String c s' => int_acc (acc * 10 + (Z.of_N (Str.ord c) - 48)) s'
  end.

Definition int (s : string) : Z := int_acc 0 (Str.strip s).

(** The regular expressions [_strptime] compiles the directives to; the
    groups [d], [m], [Y], [H], [M] are numbered 1 to 5 here. *)
Definition re_d : Re.regex :=
  Re.Grp 1 (Re.Alt (Re.Seq (Re.lit "3") (Re.rng "0" "1"))
           (Re.Alt (Re.Seq (Re.rng "1" "2") Re.digit)
           (Re.Alt (Re.Seq (Re.lit "0") (Re.rng "1" "9"))
           (Re.Alt (Re.rng "1" "9")
                   (Re.Seq (Re.lit " ") (Re.rng "1" "9")))))).

Definition re_m : Re.regex :=
  Re.Grp 2 (Re.Alt (Re.Seq (Re.lit "1") (Re.rng "0" "2"))
           (Re.Alt (Re.Seq (Re.lit "0") (Re.rng "1" "9"))
                   (Re.rng "1" "9"))).

Definition re_Y : Re.regex :=
  Re.Grp 3 (Re.Seq Re.digit (Re.Seq Re.digit (Re.Seq Re.digit Re.digit))).

Definition re_H : Re.regex :=
  Re.Grp 4 (Re.Alt (Re.Seq (Re.lit "2") (Re.rng "0" "3"))
           (Re.Alt (Re.Seq (Re.rng "0" "1") Re.digit)
                   Re.digit)).

Definition re_M : Re.regex :=
  Re.Grp 5 (Re.Alt (Re.Seq (Re.rng "0" "5") Re.digit) Re.digit).

(** ['%d.%m.%Y'] followed by [tail]. *)
Definition fmt_date (tail : Re.regex) : Re.regex :=
  Re.Seq re_d (Re.Seq (Re.lit ".") (Re.Seq re_m (Re.Seq (Re.lit ".")
    (Re.Seq re_Y tail)))).

(** [' %H:%M']: the blank of a format stands for [\s+]. *)
Definition tail_HM : Re.regex :=
  Re.Seq (Re.Plus Re.space) (Re.Seq re_H (Re.Seq (Re.lit ":") re_M)).

Definition FMT_DATE : Re.regex := fmt_date Re.Eps.
Definition FMT_DATETIME : Re.regex := fmt_date tail_HM.

(** The captures of [fmt] on [s]; [None] is the [ValueError] raised when the
    text does not match or when unconverted data remains after the match. *)
Definition found (fmt : Re.regex) (s : string) : option Re.caps :=
  match Re.rmatch fmt s with
  | Some m =>
      match Re.m_rest m with
      | EmptyString => Some (Re.m_caps m)
      | _ => None
      end
  | None => None
  end.

(** The date of the captures; [None] is the [ValueError] of a day that the
    calendar does not have. *)
Definition date_of_caps (cs : Re.caps) : option Z :=
  match Re.lookup 1 cs, Re.lookup 2 cs, Re.lookup 3 cs with
  | Some d, Some m, Some y =>
      let year := int y in
      let month := int m in
      let day := int d in
      if ((1 <=? year) && (1 <=? month) && (month <=? 12)
          && (1 <=? day) && (day <=? days_in_month year month))%bool
      then Some (ymd2ord year month day)
      else None
  | _, _, _ => None
  end.

Definition time_of_caps (cs : Re.caps) : option (Z * Z) :=
  match Re.lookup 4 cs, Re.lookup 5 cs with
  | Some h, Some mi => Some (int h, int mi)
  | _, _ => None
  end.

(** [datetime.strptime(s, '%d.%m.%Y')], as a date. *)
Definition strptime_date (s : string) : option Z :=
  match found FMT_DATE s with
  | Some cs => date_of_caps cs
  | None => None
  end.

(** [datetime.strptime(s, '%d.%m.%Y %H:%M')]. *)
Definition strptime_datetime (s : string) : option datetime :=
  match found FMT_DATETIME s with
  | Some cs =>
      match date_of_caps cs, time_of_caps cs with
      | Some d, Some (h, mi) => Some (DateTime d h mi)
      | _, _ => None
      end
  | None => None
  end.

(** What [' %H:%M'] makes of the text [t] that follows the date and one
    blank in a ['%d.%m.%Y %H:%M'] subject. *)
Definition parse_time (t : string) : option (Z * Z) :=
  match Re.run 0 tail_HM (String " " t) [] (fun s' cs => Some (s', cs)) with
  | Some (EmptyString, cs) => time_of_caps cs
  | _ => None
  end.

(** *** Vocabulary for the facts about the calendar *)

(** A bounded universal check. *)
Fixpoint all_below (k : nat) (f : Z -> bool) : bool :=
  match k with
  | O => true
  | S k' => f (Z.of_nat k') && all_below k' f
  end.

Definition md_ok (leap : bool) (n : Z) : bool :=
  let '(m, d) := md_of n leap in
  ((1 <=? m) && (m <=? 12) && (1 <=? d)
   && (d <=? DAYS_IN_MONTH m + (if ((m =? 2) && leap)%bool then 1 else 0))
   && (DAYS_BEFORE_MONTH m + (if ((2 <? m) && leap)%bool then 1 else 0) + d =? n + 1))%bool.

(** [t] is the well-formed date of ordinal [n]. *)
Definition ymd_ok (n : Z) (t : Z * Z * Z) : Prop :=
  let '(y, m, d) := t in
  ymd2ord y m d = n /\ 1 <= m <= 12 /\ 1 <= d <= days_in_month y m.

End Cal.

(** ** Session records

    The dicts built by [process_event_block]: ['type'] is ['single'] or
    ['recurring'], ['date'] is [None] for a recurring session. *)

Inductive kind : Type := single | recurring.

Record event : Type := Event {
  ev_id : string;
  ev_title : string;
  ev_full_label : string;
  ev_type : kind;
  ev_date : option string;
  ev_weekday : string;
  ev_start_time : string;
  ev_end_time : string;
  ev_location : string
}.

(** Truth value of [None] or a string. *)
Definition truthy (o : option string) : bool :=
  match o with
  | Some (String _ _) => true
  | _ => false
  end.

(** An optional string inside an f-string: [None] prints as ["None"]. *)
Definition fmt (o : option string) : string :=
  match o with
  | Some s => s
  | None => "None"
  end.

Fixpoint mem_str (x : string) (l : list string) : bool :=
  match l with
  | [] => false
  | y :: t => if String.eqb x y then true else mem_str x t
  end.

Fixpoint mem_Z (x : Z) (l : list Z) : bool :=
  match l with
  | [] => false
  | y :: t => if x =? y then true else mem_Z x t
  end.

(** ** Block parsing ([process_event_block], [extract_events]) *)

Definition newline : ascii := "010"%char.
Definition o_umlaut : ascii := ascii_of_nat 246.

(** [.]: any character but a newline. *)
Definition any_char : Re.regex := Re.Chr (fun c => negb (Ascii.eqb c newline)).

(** The anchor pattern, [^ (\d+ (\.\d+)+ ) \s+ ( .* )] with blanks added
    between its parts. *)
Definition id_pattern : Re.regex :=
  Re.Seq Re.Bol
    (Re.Seq (Re.Grp 1 (Re.Seq (Re.Plus Re.digit)
                         (Re.Plus (Re.Grp 2 (Re.Seq (Re.lit ".") (Re.Plus Re.digit))))))
       (Re.Seq (Re.Plus Re.space) (Re.Grp 3 (Re.Star any_char)))).

(** The location marker "(Raum|Aula|Hörsaal)\s+([\w\.]+)". *)
Definition loc_pattern : Re.regex :=
  Re.Seq (Re.Grp 1 (Re.Alt (Re.word "Raum")
                   (Re.Alt (Re.word "Aula")
                           (Re.word (String "H" (String o_umlaut "rsaal"))))))
    (Re.Seq (Re.Plus Re.space)
       (Re.Grp 2 (Re.Plus (Re.Chr (fun c => Str.is_word c || Ascii.eqb c ".")%bool)))).

(** The date token "\d{2}\.\d{2}\.\d{2,4}". *)
Definition date_token : Re.regex :=
  Re.Seq Re.digit (Re.Seq Re.digit (Re.Seq (Re.lit ".")
    (Re.Seq Re.digit (Re.Seq Re.digit (Re.Seq (Re.lit ".")
      (Re.Seq Re.digit (Re.Seq Re.digit
         (Re.Opt (Re.Seq Re.digit (Re.Opt Re.digit)))))))))).

(** The time token "\d{2}[.:]\d{2}". *)
Definition time_token : Re.regex :=
  Re.Seq Re.digit (Re.Seq Re.digit
    (Re.Seq (Re.Chr (fun c => Ascii.eqb c "." || Ascii.eqb c ":")%bool)
       (Re.Seq Re.digit Re.digit))).

(** The schedule pattern
    "(Mo|Di|Mi|Do|Fr|Sa|So)\.?\s+(?:(\d{2}\.\d{2}\.\d{2,4})\s+)?"
    "(\d{2}[.:]\d{2})\s*-\s*(\d{2}[.:]\d{2})". *)
Definition time_pattern : Re.regex :=
  Re.Seq (Re.Grp 1 (Re.Alt (Re.word "Mo") (Re.Alt (Re.word "Di") (Re.Alt (Re.word "Mi")
            (Re.Alt (Re.word "Do") (Re.Alt (Re.word "Fr") (Re.Alt (Re.word "Sa")
               (Re.word "So"))))))))
    (Re.Seq (Re.Opt (Re.lit "."))
    (Re.Seq (Re.Plus Re.space)
    (Re.Seq (Re.Opt (Re.Seq (Re.Grp 2 date_token) (Re.Plus Re.space)))
    (Re.Seq (Re.Grp 3 time_token)
    (Re.Seq (Re.Star Re.space)
    (Re.Seq (Re.lit "-")
    (Re.Seq (Re.Star Re.space)
            (Re.Grp 4 time_token)))))))).

(** "Normalize Year": a two-character year is prefixed by [20].  The token
    comes from the date token pattern and has its three parts; the last
    branch stands for the [IndexError] of a token without them. *)
Definition normalize_year (date_str : string) : string :=
  match Str.split "." date_str with
  | p0 :: p1 :: p2 :: _ =>
      if (String.length p2 =? 2)%nat then p0 ++ "." ++ p1 ++ ".20" ++ p2
      else date_str
  | _ => date_str
  end.

(** The location found in [text], or [default]. *)
Definition location_in (text default : string) : string :=
  match Re.search loc_pattern text with
  | Some m => Re.m_text m
  | None => default
  end.

(** The body of [for line in block_lines]: the record of a line, if any. *)
Definition process_line (course_id final_title default_location line : string)
  : list event :=
  match Re.search time_pattern line with
  | Some tm =>
      match Re.group tm 1, Re.group tm 3, Re.group tm 4 with
      | Some weekday, Some start_time, Some end_time =>
          let date_str :=
            match Re.group tm 2 with
            | Some (String _ _ as d) => Some (normalize_year d)
            | other => other
            end in
          let location := location_in line default_location in
          [ Event course_id final_title (course_id ++ " " ++ final_title)
              (if truthy date_str then single else recurring)
              date_str weekday
              (Str.replace "." ":" start_time) (Str.replace "." ":" end_time)
              location ]
      | _, _, _ => []
      end
  | None => []
  end.

(** [process_event_block]; the title cleaner is the one of vorlesungen2.py.
    Every block [extract_events] passes has a first line ([block_lines[0]]). *)
Definition process_event_block (block_lines : list string) : list event :=
  match block_lines with
  | [] => []
  | header :: _ =>
      match Re.rmatch id_pattern header with
      | None => []
      | Some id_match =>
          match Re.group id_match 1, Re.group id_match 3 with
          | Some course_id, Some raw_title =>
              let final_title := clean_title_logic course_id raw_title in
              let block_text := Str.join (String newline "") block_lines in
              let default_location := location_in block_text "TBA" in
              flat_map (process_line course_id final_title default_location)
                       block_lines
          | _, _ => []
          end
      end
  end.

(** The loop of [extract_events]: [current] is [current_block_lines]. *)
Fixpoint extract_loop (lines current : list string) (events : list event)
  : list event :=
  match lines with
  | [] =>
      match current with
      | [] => events
      | _ => (events ++ process_event_block current)%list
      end
  | line :: rest =>
      match Re.rmatch id_pattern line with
      | Some _ =>
          extract_loop rest [line]
            (match current with
             | [] => events
             | _ => (events ++ process_event_block current)%list
             end)
      | None =>
          match current with
          | [] => extract_loop rest current events
          | _ => extract_loop rest (current ++ [line])%list events
          end
      end
  end.

Definition extract_events (text : string) : list event :=
  extract_loop (Str.split newline text) [] [].

(** ** Holiday weeks ([detect_holiday_weeks]) *)

(** How a computation ends: with a value, with an exception that leaves the
    function, or (for the loops of the model) out of fuel. *)
Inductive result (A : Type) : Type :=
| Ok (a : A)
| Raise
| NoFuel.
Arguments Ok {A} a.
Arguments Raise {A}.
Arguments NoFuel {A}.

(** [d + timedelta(days=k)]: [None] is the [OverflowError] of a day outside
    [date.min .. date.max]. *)
Definition add_days (d k : Z) : option Z :=
  if ((Cal.MINORD <=? d + k) && (d + k <=? Cal.MAXORD))%bool then Some (d + k)
  else None.

(** The first loop: the state is ([active_weeks], [single_events_found]);
    of the set [active_weeks] only membership is observed. *)
Definition scan_event (st : list Z * bool) (e : event) : list Z * bool :=
  let '(active_weeks, single_events_found) := st in
  match ev_type e, ev_date e with
  | single, Some (String _ _ as d) =>
      match Cal.strptime_date d with
      | Some dt =>
          let wk := Cal.isoweek dt in
          (if mem_Z wk active_weeks then active_weeks else wk :: active_weeks, true)
      | None => (active_weeks, true)
      end
  | _, _ => st
  end.

(** [while current <= semester_end]. *)
Fixpoint holiday_loop (fuel : nat) (current semester_end : Z)
    (active_weeks holiday_weeks : list Z) : result (list Z) :=
  match fuel with
  | O => NoFuel
  | S f =>
      if current <=? semester_end then
        let wk := Cal.isoweek current in
        let holiday_weeks :=
          if mem_Z wk active_weeks then holiday_weeks else (holiday_weeks ++ [wk])%list in
        match add_days current 7 with
        | Some next => holiday_loop f next semester_end active_weeks holiday_weeks
        | None => Raise
        end
      else Ok holiday_weeks
  end.

Fixpoint insert_sorted (x : Z) (l : list Z) : list Z :=
  match l with
  | [] => [x]
  | y :: t => if x <=? y then x :: l else y :: insert_sorted x t
  end.

(** [sorted(l)] on integers. *)
Fixpoint sorted (l : list Z) : list Z :=
  match l with
  | [] => []
  | x :: t => insert_sorted x (sorted t)
  end.

(** [list(set(l))] up to the order, which [sorted] then fixes. *)
Definition list_set (l : list Z) : list Z := nodup Z.eq_dec l.

(** Iterations of a 7-day walk from [a] through [b], with room to spare. *)
Definition walk_fuel (a b : Z) : nat := S (Z.to_nat (b - a + 1)).

Definition detect_holiday_weeks (events : list event)
    (semester_start semester_end : Z) : result (list Z) :=
  let '(active_weeks, single_events_found) :=
    fold_left scan_event events ([], false) in
  if negb single_events_found then Ok []
  else
    match holiday_loop (walk_fuel semester_start semester_end)
            semester_start semester_end active_weeks [] with
    | Ok holiday_weeks => Ok (sorted (list_set holiday_weeks))
    | Raise => Raise
    | NoFuel => NoFuel
    end.

(** ** Calendar export ([generate_ics]) *)

(** What is handed to an [ics.Event]: [name], [location] and the two naive
    datetimes that are localised to Europe/Berlin for [begin] and [end]. *)
Record occurrence : Type := Occurrence {
  o_name : string;
  o_location : string;
  o_begin : Cal.datetime;
  o_end : Cal.datetime
}.

(** [c.events]: every [add] puts a fresh [Event] into the set. *)
Definition calendar : Type := list occurrence.

Definition weekday_map (w : string) : option Z :=
  if String.eqb w "Mo" then Some 0
  else if String.eqb w "Di" then Some 1
  else if String.eqb w "Mi" then Some 2
  else if String.eqb w "Do" then Some 3
  else if String.eqb w "Fr" then Some 4
  else if String.eqb w "Sa" then Some 5
  else if String.eqb w "So" then Some 6
  else None.

(** "Advance to first occurrence": [while current.weekday() != target_weekday]. *)
Fixpoint advance (fuel : nat) (current target_weekday : Z) : result Z :=
  match fuel with
  | O => NoFuel
  | S f =>
      if Cal.weekday current =? target_weekday then Ok current
      else
        match add_days current 1 with
        | Some next => advance f next target_weekday
        | None => Raise
        end
  end.

Section IcsExport.

(** Assigning [e.begin] and [e.end] runs the checks of the [ics] library on
    the localised pair (release 0.7, whose [Calendar.events] is the set the
    program adds to, raises [ValueError] for an end that lies before the
    begin).  A refusal is an exception like any other inside the [try].  The
    checks are the library's own: they are a parameter of the export. *)
Variable ics_accepts : Cal.datetime -> Cal.datetime -> bool.

(** The events one record adds inside the [try]: an exception at any point
    keeps what the calendar holds and ends the record. *)
Definition add_single (event : event) (c : calendar) : calendar :=
  match Cal.strptime_datetime (fmt (ev_date event) ++ " " ++ ev_start_time event) with
  | Some start_dt =>
      match Cal.strptime_datetime (fmt (ev_date event) ++ " " ++ ev_end_time event) with
      | Some end_dt =>
          if ics_accepts start_dt end_dt
          then (c ++ [Occurrence (ev_full_label event) (ev_location event) start_dt end_dt])%list
          else c
      | None => c
      end
  | None => c
  end.

(** [while current <= end_dt_global]. *)
Fixpoint weekly (fuel : nat) (event : event) (current end_dt_global : Z)
    (holiday_weeks : list Z) (c : calendar) : calendar :=
  match fuel with
  | O => c
  | S f =>
      if current <=? end_dt_global then
        if mem_Z (Cal.isoweek current) holiday_weeks then
          match add_days current 7 with
          | Some next => weekly f event next end_dt_global holiday_weeks c
          | None => c
          end
        else
          let start_str := Cal.strftime_dmY current ++ " " ++ ev_start_time event in
          let end_str := Cal.strftime_dmY current ++ " " ++ ev_end_time event in
          match Cal.strptime_datetime start_str with
          | Some b =>
              match Cal.strptime_datetime end_str with
              | Some e =>
                  if ics_accepts b e then
                    let c := (c ++ [Occurrence (ev_full_label event) (ev_location event) b e])%list in
                    match add_days current 7 with
                    | Some next => weekly f event next end_dt_global holiday_weeks c
                    | None => c
                    end
                  else c
              | None => c
              end
          | None => c
          end
      else c
  end.

Definition add_recurring (event : event) (semester_start semester_end : Z)
    (holiday_weeks : list Z) (c : calendar) : calendar :=
  match weekday_map (ev_weekday event) with
  | Some target_weekday =>
      match advance 7 semester_start target_weekday with
      | Ok current =>
          weekly (walk_fuel semester_start semester_end) event current
                 semester_end holiday_weeks c
      | _ => c
      end
  | None => c
  end.

(** The body of [for event in selected_events]. *)
Definition add_event (semester_start semester_end : Z) (holiday_weeks : list Z)
    (c : calendar) (event : event) : calendar :=
  match ev_type event with
  | single => add_single event c
  | recurring => add_recurring event semester_start semester_end holiday_weeks c
  end.

(** [generate_ics], up to the serialisation of the calendar. *)
Definition generate_ics (selected_events : list event)
    (semester_start semester_end : Z) (holiday_weeks : list Z) : calendar :=
  fold_left (add_event semester_start semester_end holiday_weeks) selected_events [].

End IcsExport.

(** ** Selection: prefix filter and deduplication (module level) *)

(** [[s.strip() for s in query.split(',') if s.strip()]] *)
Definition search_ids (query : string) : list string :=
  flat_map (fun s => match Str.strip s with
                     | EmptyString => []
                     | t => [t]
                     end) (Str.split "," query).

(** [[e for e in all_events if e['id'].startswith(s_id)]] *)
Definition matches (all_events : list event) (s_id : string) : list event :=
  filter (fun e => Str.startswith (ev_id e) s_id) all_events.

Definition matched_events (all_events : list event) (ids : list string) : list event :=
  flat_map (matches all_events) ids.

(** The key of the deduplication: ID, title, day, start time and date. *)
Definition sig (e : event) : string :=
  ev_id e ++ "|" ++ ev_title e ++ "|" ++ ev_weekday e ++ "|" ++ ev_start_time e
  ++ "|" ++ fmt (ev_date e).

(** The loop over [final_events_to_process]. *)
Fixpoint dedup_loop (events : list event) (seen_signatures : list string)
    (unique_events : list event) : list event :=
  match events with
  | [] => unique_events
  | e :: rest =>
      if mem_str (sig e) seen_signatures
      then dedup_loop rest seen_signatures unique_events
      else dedup_loop rest (sig e :: seen_signatures) (unique_events ++ [e])%list
  end.

Definition unique_events (final_events_to_process : list event) : list event :=
  dedup_loop final_events_to_process [] [].

(** The time-slot key of ai_studio_code-3.py ([signature]), built from the
    matched day and times and the location. *)
Definition signature (weekday start_time end_time location : string) : string :=
  weekday ++ " " ++ start_time ++ "-" ++ end_time ++ " @ " ++ location.

(** ** The detected semester range (module level of vorlesungen2.py) *)

(** [found_dates]: the dates of the records that parse. *)
Definition found_dates (events : list event) : list Z :=
  flat_map (fun e =>
              match ev_date e with
              | Some (String _ _ as d) =>
                  match Cal.strptime_date d with
                  | Some dt => [dt]
                  | None => []
                  end
              | _ => []
              end) events.

(** [min(found_dates)] and [max(found_dates)] when a date was found: the
    values put into ['sem_start_date'] and ['sem_end_date']. *)
Definition detected_range (events : list event) : option (Z * Z) :=
  match found_dates events with
  | [] => None
  | d :: rest => Some (fold_left Z.min rest d, fold_left Z.max rest d)
  end.

(** ** Block parsing and time slots of ai_studio_code-3.py *)

Module AiStudio.

(** The dicts of ai_studio_code-3.py: the fields of a record and the
    ['signature'] of its time slot. *)
Record variant : Type := Variant {
  v_event : event;
  v_signature : string
}.

(** The body of [for line in block_lines]. *)
Definition process_line (course_id clean_title default_location line : string)
  : list variant :=
  match Re.search time_pattern line with
  | Some tm =>
      match Re.group tm 1, Re.group tm 3, Re.group tm 4 with
      | Some weekday, Some start_time, Some end_time =>
          let date_str :=
            match Re.group tm 2 with
            | Some (String _ _ as d) => Some (normalize_year d)
            | other => other
            end in
          let location := location_in line default_location in
          [ Variant
              (Event course_id clean_title (course_id ++ " " ++ clean_title)
                 (if truthy date_str then single else recurring)
                 date_str weekday
                 (Str.replace "." ":" start_time) (Str.replace "." ":" end_time)
                 location)
              (signature weekday start_time end_time location) ]
      | _, _, _ => []
      end
  | None => []
  end.

Definition process_event_block (block_lines : list string) : list variant :=
  match block_lines with
  | [] => []
  | header :: _ =>
      match Re.rmatch id_pattern header with
      | None => []
      | Some id_match =>
          match Re.group id_match 1, Re.group id_match 3 with
          | Some course_id, Some raw_title =>
              let clean_title := clean_title_string raw_title in
              let block_text := Str.join (String newline "") block_lines in
              let default_location := location_in block_text "TBA" in
              flat_map (process_line course_id clean_title default_location)
                       block_lines
          | _, _ => []
          end
      end
  end.

(** The loop of [extract_events]: [current] is [current_block_lines]. *)
Fixpoint extract_loop (lines current : list string) (events : list variant)
  : list variant :=
  match lines with
  | [] =>
      match current with
      | [] => events
      | _ => (events ++ process_event_block current)%list
      end
  | line :: rest =>
      match Re.rmatch id_pattern line with
      | Some _ =>
          extract_loop rest [line]
            (match current with
             | [] => events
             | _ => (events ++ process_event_block current)%list
             end)
      | None =>
          match current with
          | [] => extract_loop rest current events
          | _ => extract_loop rest (current ++ [line])%list events
          end
      end
  end.

Definition extract_events (text : string) : list variant :=
  extract_loop (Str.split newline text) [] [].

(** [unique_slots]: a dict keyed by signature that keeps the first variant
    of every key, in the order of arrival; [slots] is its list of items. *)
Fixpoint slot_loop (variants : list variant) (slots : list (string * variant))
  : list (string * variant) :=
  match variants with
  | [] => slots
  | v :: rest =>
      if mem_str (v_signature v) (map fst slots) then slot_loop rest slots
      else slot_loop rest (slots ++ [(v_signature v, v)])%list
  end.

(** [slot_list = list(unique_slots.values())]. *)
Definition slot_list (variants : list variant) : list variant :=
  map snd (slot_loop variants []).

(** "Case A": a module with one time slot is selected without a question;
    the other modules wait for the choice of the user. *)
Definition auto_selected (variants : list variant) : list variant :=
  match slot_list variants with
  | [v] => [v]
  | _ => []
  end.

End AiStudio.

(** * Vocabulary of the claims *)

(** The first day from [start] on that falls on the weekday [target]. *)
Definition first_on (start target : Z) : Z :=
  start + (target - Cal.weekday start) mod 7.

(** [n] days in steps of seven, from [d] on. *)
Fixpoint stride_list (n : nat) (d : Z) : list Z :=
  match n with
  | O => []
  | S n' => d :: stride_list n' (d + 7)
  end.

Definition stride_count (first last : Z) : nat :=
  if first <=? last then Z.to_nat ((last - first) / 7 + 1) else 0%nat.

(** The days [first], [first + 7], ... up to [last] inclusive. *)
Definition strides (first last : Z) : list Z :=
  stride_list (stride_count first last) first.

(** The days on which a recurring record is tried: the weekly strides from
    its first weekday in the range; none for an unknown weekday. *)
Definition days_of (event : event) (semester_start semester_end : Z) : list Z :=
  match weekday_map (ev_weekday event) with
  | Some target => strides (first_on semester_start target) semester_end
  | None => []
  end.

(** A ONE_OFF session: a record of type [single] that carries a date. *)
Definition one_off (e : event) : bool :=
  match ev_type e, ev_date e with
  | single, Some (String _ _) => true
  | _, _ => false
  end.

(** The ISO week of a ONE_OFF session whose date parses. *)
Definition parsed_week (e : event) : option Z :=
  match ev_type e, ev_date e with
  | single, Some (String _ _ as d) => option_map Cal.isoweek (Cal.strptime_date d)
  | _, _ => None
  end.

(** The weeks in which some ONE_OFF session of [events] lies. *)
Definition active_week (events : list event) (w : Z) : Prop :=
  exists e, In e events /\ parsed_week e = Some w.

Section ExportVocabulary.
Variable ics_accepts : Cal.datetime -> Cal.datetime -> bool.

(** The occurrence of [event] on the day [d], when the date that [strftime]
    writes for [d] is read back (the year has four digits), the times of
    the record parse and the calendar library takes the pair. *)
Definition occurrence_on (event : event) (d : Z) : option occurrence :=
  if 1000 <=? Cal.year_of d then
    match Cal.parse_time (ev_start_time event), Cal.parse_time (ev_end_time event) with
    | Some (h1, m1), Some (h2, m2) =>
        let b := Cal.DateTime d h1 m1 in
        let e := Cal.DateTime d h2 m2 in
        if ics_accepts b e
        then Some (Occurrence (ev_full_label event) (ev_location event) b e)
        else None
    | _, _ => None
    end
  else None.

(** One occurrence per day of [days] outside the holiday weeks, up to the
    first day whose occurrence cannot be built. *)
Fixpoint emitted (event : event) (holiday_weeks : list Z) (days : list Z) : calendar :=
  match days with
  | [] => []
  | d :: rest =>
      if mem_Z (Cal.isoweek d) holiday_weeks then emitted event holiday_weeks rest
      else
        match occurrence_on event d with
        | Some o => o :: emitted event holiday_weeks rest
        | None => []
        end
  end.

End ExportVocabulary.

(** A session line: [time_pattern.search(line)] succeeds. *)
Definition is_session (line : string) : bool :=
  match Re.search time_pattern line with
  | Some _ => true
  | None => false
  end.

(** The location marker found first in [text]. *)
Definition located (text loc : string) : Prop :=
  exists m, Re.leftmost loc_pattern text m /\ loc = Re.m_text m.

Definition no_location (text : string) : Prop :=
  Re.unmatched loc_pattern text.

(** A record is unreadable when the expansion cannot build its datetimes:
    for a ONE_OFF record the date with a time does not parse, for a
    RECURRING record the weekday is unknown or a time does not parse. *)
Definition unreadable (event : event) : Prop :=
  match ev_type event with
  | single =>
      Cal.strptime_datetime (fmt (ev_date event) ++ " " ++ ev_start_time event) = None
      \/ Cal.strptime_datetime (fmt (ev_date event) ++ " " ++ ev_end_time event) = None
  | recurring =>
      weekday_map (ev_weekday event) = None
      \/ Cal.parse_time (ev_start_time event) = None
      \/ Cal.parse_time (ev_end_time event) = None
  end.

(** A calendar library that takes every pair of datetimes. *)
Definition accept_all (b e : Cal.datetime) : bool := true.

(** * Examples *)

Definition ex_lecture : event :=
  Event "1.3" "Modul X" "1.3 Modul X" recurring None "Di" "14:00" "16:00" "Raum 1.02".

Definition ex_seminar : event :=
  Event "1.3.1" "Seminar A" "1.3.1 Seminar A" single (Some "05.01.2024") "Fr"
        "10:00" "12:00" "Aula".

(** Two sessions of one course that start together but end at different
    times in different rooms. *)
Definition ex_short : event :=
  Event "2.1" "Tutorium" "2.1 Tutorium" recurring None "Mo" "08:00" "09:00" "Raum 1".

Definition ex_long : event :=
  Event "2.1" "Tutorium" "2.1 Tutorium" recurring None "Mo" "08:00" "10:00" "Raum 2".

Definition ex_block : list string := ["1.3 Modul X - Grundlagen"; "Di 14:00-16:00"].

(** A block whose first session line has no location of its own and whose
    last one has another location than the block. *)
Definition ex_located_block : list string :=
  ["1.3 Modul X"; "Fr 10:00-12:00"; "Di 14:00-16:00 Raum 1.02"; "Mi 08:00-10:00 Aula B"].

Definition one_off_on (date : string) : event :=
  Event "1.3" "Modul X" "1.3 Modul X" single (Some date) "Mo" "10:00" "12:00" "TBA".

(** 1 January 2024, the Monday of ISO week 1, and 11 February 2024, the
    Sunday of ISO week 6. *)
Definition ex_start : Z := Cal.ymd2ord 2024 1 1.
Definition ex_end : Z := Cal.ymd2ord 2024 2 11.

Definition ex_dated : list event :=
  [one_off_on "08.01.2024"; ex_lecture; one_off_on "24.01.2024"; one_off_on "10.02.2024"].

(** A session whose times the extractor accepts ("\d{2}[.:]\d{2}") and
    ['%H:%M'] does not. *)
Definition ex_late : event :=
  Event "1.3" "Modul X" "1.3 Modul X" recurring None "Di" "25:00" "26:00" "TBA".

(** A dated session labelled with a weekday that is none of Mo..So. *)
Definition ex_odd_day : event :=
  Event "1.3.1" "Seminar A" "1.3.1 Seminar A" single (Some "05.01.2024") "Xx"
        "10:00" "12:00" "Aula".

(** The line of a dated session in a month that has no such day. *)
Definition ex_no_such_day : event :=
  Event "1.3" "Modul X" "1.3 Modul X" single (Some "31.02.2024") "Mo"
        "10:00" "12:00" "TBA".

(** A listing whose only dated session is on that day. *)
Definition ex_no_such_day_text : string :=
  "1.3 Modul X" ++ String newline "Mo 31.02.2024 10:00-12:00".

(** * Vocabulary of the further properties *)

(** ** Matches, declaratively *)

Module ReSem.
Import Re.

(** [derives w r s cs s' cs']: a match of [r] leads from the suffix [s] of
    the subject, with the captures [cs], to the suffix [s'] with the
    captures [cs']; [w] is the length of the subject. *)
Inductive derives (w : nat) : regex -> string -> caps -> string -> caps -> Prop :=
| D_eps s cs : derives w Eps s cs s cs
| D_bol s cs : String.length s = w -> derives w Bol s cs s cs
| D_chr (p : ascii -> bool) a s cs :
    p a = true -> derives w (Chr p) (String a s) cs s cs
| D_seq r1 r2 s cs s1 c1 s2 c2 :
    derives w r1 s cs s1 c1 -> derives w r2 s1 c1 s2 c2 ->
    derives w (Seq r1 r2) s cs s2 c2
| D_alt_l r1 r2 s cs s' cs' :
    derives w r1 s cs s' cs' -> derives w (Alt r1 r2) s cs s' cs'
| D_alt_r r1 r2 s cs s' cs' :
    derives w r2 s cs s' cs' -> derives w (Alt r1 r2) s cs s' cs'
| D_opt_some r s cs s' cs' :
    derives w r s cs s' cs' -> derives w (Opt r) s cs s' cs'
| D_opt_none r s cs : derives w (Opt r) s cs s cs
| D_star_nil r s cs : derives w (Star r) s cs s cs
| D_star_cons r s cs s1 c1 s2 c2 :
    derives w r s cs s1 c1 -> derives w (Star r) s1 c1 s2 c2 ->
    derives w (Star r) s cs s2 c2
| D_plus r s cs s1 c1 s2 c2 :
    derives w r s cs s1 c1 -> derives w (Star r) s1 c1 s2 c2 ->
    derives w (Plus r) s cs s2 c2
| D_grp n r s cs s' cs' :
    derives w r s cs s' cs' ->
    derives w (Grp n r) s cs s' ((n, consumed s s') :: cs').

(** The continuation [k] gives [x] after some match of [r]. *)
Definition lands {A : Type} (w : nat) (r : regex) (k : @cont A) (s : string)
    (cs : caps) (x : A) : Prop :=
  exists s' cs', derives w r s cs s' cs' /\ k s' cs' = Some x.

End ReSem.

(** ** The fields of a record, as the patterns leave them *)

Fixpoint all_chars (p : ascii -> bool) (s : string) : bool :=
  match s with
  | EmptyString => true
  | String a s' => p a && all_chars p s'
  end.

(** A text of ASCII characters (code points below 128): its decimal digits
    are the digits 0 to 9. *)
Definition plain (s : string) : bool :=
  all_chars (fun c => N.ltb (Str.ord c) 128) s.

(** The elements of [l] before the first one that [p] refuses. *)
Fixpoint take_while {A : Type} (p : A -> bool) (l : list A) : list A :=
  match l with
  | [] => []
  | x :: rest => if p x then x :: take_while p rest else []
  end.

(** The keys of [weekday_map]. *)
Definition weekdays : list string := ["Mo"; "Di"; "Mi"; "Do"; "Fr"; "Sa"; "So"].

(** "hh:mm": two digits, a colon, two digits. *)
Definition is_clock (t : string) : bool :=
  match t with
  | String a (String b (String c (String d (String e EmptyString)))) =>
      Str.is_digit a && Str.is_digit b && Ascii.eqb c ":" &&
      Str.is_digit d && Str.is_digit e
  | _ => false
  end.

(** "dd.mm.yyy" or "dd.mm.yyyy": day and month of two digits and a year of
    three or four. *)
Definition is_full_date (d : string) : bool :=
  match d with
  | String d1 (String d2 (String p (String m1 (String m2 (String q
      (String y1 (String y2 (String y3 rest)))))))) =>
      Str.is_digit d1 && Str.is_digit d2 && Ascii.eqb p "." &&
      Str.is_digit m1 && Str.is_digit m2 && Ascii.eqb q "." &&
      Str.is_digit y1 && Str.is_digit y2 && Str.is_digit y3 &&
      match rest with
      | EmptyString => true
      | String y4 EmptyString => Str.is_digit y4
      | _ => false
      end
  | _ => false
  end.

(** A run of digits that is not empty. *)
Definition component (p : string) : bool :=
  negb (p =? "")%string && all_chars Str.is_digit p.

(** An identifier: two or more such runs joined by dots. *)
Definition is_course_id (s : string) : bool :=
  let parts := Str.split "." s in
  (2 <=? List.length parts)%nat && forallb component parts.

(** The keywords of the location marker. *)
Definition keywords : list string :=
  ["Raum"; "Aula"; String "H" (String o_umlaut "rsaal")].

(** "TBA", or a text that starts with a keyword. *)
Definition is_location (l : string) : bool :=
  (l =? "TBA")%string || existsb (Str.startswith l) keywords.

Definition well_formed (e : event) : bool :=
  is_course_id (ev_id e) &&
  (ev_full_label e =? ev_id e ++ " " ++ ev_title e)%string &&
  mem_str (ev_weekday e) weekdays &&
  is_clock (ev_start_time e) && is_clock (ev_end_time e) &&
  is_location (ev_location e) &&
  match ev_date e, ev_type e with
  | None, recurring => true
  | Some d, single => is_full_date d
  | _, _ => false
  end.

(** The value of a digit. *)
Definition digit_value (c : ascii) : Z := Z.of_N (Str.ord c) - 48.

(** The hour and minute of "hh:mm", when there is such a time of day. *)
Definition clock_value (t : string) : option (Z * Z) :=
  match t with
  | String a (String b (String _ (String d (String e EmptyString)))) =>
      let h := 10 * digit_value a + digit_value b in
      let mi := 10 * digit_value d + digit_value e in
      if (h <? 24) && (mi <? 60) then Some (h, mi) else None
  | _ => None
  end.

(** The day of "dd.mm.yyyy", when the calendar has it. *)
Definition date_value (d : string) : option Z :=
  match d with
  | String d1 (String d2 (String _ (String m1 (String m2 (String _
      (String y1 (String y2 (String y3 (String y4 EmptyString))))))))) =>
      let day := 10 * digit_value d1 + digit_value d2 in
      let month := 10 * digit_value m1 + digit_value m2 in
      let year := 1000 * digit_value y1 + 100 * digit_value y2 +
                  10 * digit_value y3 + digit_value y4 in
      if (1 <=? year) && (1 <=? month) && (month <=? 12) &&
         (1 <=? day) && (day <=? Cal.days_in_month year month)
      then Some (Cal.ymd2ord year month day)
      else None
  | _ => None
  end.

(** The date "dd.mm.yyyy" of eight digits. *)
Definition written (d1 d2 m1 m2 y1 y2 y3 y4 : ascii) : string :=
  String d1 (String d2 (String "." (String m1 (String m2 (String "."
    (String y1 (String y2 (String y3 (String y4 ""))))))))).

(** The separator of the deduplication key. *)
Definition bar : ascii := "|"%char.

(** ** The blocks of a text *)

(** [id_pattern.match(line)] succeeds. *)
Definition is_anchor (line : string) : bool :=
  match Re.rmatch id_pattern line with
  | Some _ => true
  | None => false
  end.

(** The lines before the first anchor, and the blocks after it: every
    anchor opens a block that takes the lines up to the next anchor. *)
Fixpoint segment (lines : list string) : list string * list (list string) :=
  match lines with
  | [] => ([], [])
  | line :: rest =>
      let '(pending, found) := segment rest in
      if is_anchor line then ([], (line :: pending) :: found)
      else (line :: pending, found)
  end.

Definition preamble (lines : list string) : list string := fst (segment lines).
Definition blocks (lines : list string) : list (list string) := snd (segment lines).

(** An anchor line followed by lines that are no anchors. *)
Definition is_block (b : list string) : bool :=
  match b with
  | [] => false
  | header :: rest => is_anchor header && forallb (fun l => negb (is_anchor l)) rest
  end.

(** ** The query and the selection *)

(** A search id as the query loop keeps it: not empty, trimmed, without a
    comma. *)
Definition clean_token (t : string) : bool :=
  negb (t =? "")%string && (Str.strip t =? t)%string && negb (Str.contains "," t).

(** The keys met after [events], starting from [seen]. *)
Definition seen_after (events : list event) (seen : list string) : list string :=
  fold_left (fun acc e => if mem_str (sig e) acc then acc else sig e :: acc) events seen.

(** What an occurrence carries of the record [event]: its label and
    location, and datetimes the calendar library took. *)
Definition stamped (ics_accepts : Cal.datetime -> Cal.datetime -> bool)
    (event : event) (o : occurrence) : Prop :=
  o_name o = ev_full_label event /\ o_location o = ev_location event /\
  ics_accepts (o_begin o) (o_end o) = true.

(** The five fields of the deduplication key agree. *)
Definition same_key_fields (a b : event) : Prop :=
  ev_id a = ev_id b /\ ev_title a = ev_title b /\ ev_weekday a = ev_weekday b /\
  ev_start_time a = ev_start_time b /\ ev_date a = ev_date b.

(** ** The two programs *)

(** [e] with another title, and the label that goes with it. *)
Definition retitle (title : string) (e : event) : event :=
  Event (ev_id e) title (ev_id e ++ " " ++ title) (ev_type e) (ev_date e)
        (ev_weekday e) (ev_start_time e) (ev_end_time e) (ev_location e).

(** The title that ai_studio_code-3.py gives the records of a block. *)
Definition block_title (block_lines : list string) : string :=
  match block_lines with
  | [] => ""
  | header :: _ =>
      match Re.rmatch id_pattern header with
      | Some id_match =>
          match Re.group id_match 3 with
          | Some raw_title => clean_title_string raw_title
          | None => ""
          end
      | None => ""
      end
  end.

(** All fields but the title and the label agree. *)
Definition same_session (a b : event) : Prop := retitle "" a = retitle "" b.

(** The variants of [variants] that are the first of their signature, where
    the signatures of [seen] count as met. *)
Fixpoint firsts (seen : list string) (variants : list AiStudio.variant)
  : list AiStudio.variant :=
  match variants with
  | [] => []
  | v :: rest =>
      if mem_str (AiStudio.v_signature v) seen then firsts seen rest
      else v :: firsts (AiStudio.v_signature v :: seen) rest
  end.

(** ** A listing *)

Definition demo_text : string :=
  "1.3 Analysis - Grundlagen" ++ String newline
  ("Mo 10:00-12:00 Raum 101" ++ String newline "Fr 05.01.24 14.15-15.45").

Definition demo_weekly : event :=
  Event "1.3" "Analysis" "1.3 Analysis" recurring None "Mo" "10:00" "12:00" "Raum 101".

Definition demo_day : event :=
  Event "1.3" "Analysis" "1.3 Analysis" single (Some "05.01.2024") "Fr" "14:15" "15:45"
        "Raum 101".

(** Two modules that meet in the same time slot. *)
Definition demo_pair_text : string :=
  "1.3 Analysis" ++ String newline
  ("Mo 10:00-12:00 Raum 101" ++ String newline
  ("1.4 Algebra" ++ String newline "Mo 10:00-12:00 Raum 101")).

Definition demo_analysis : AiStudio.variant :=
  AiStudio.Variant demo_weekly "Mo 10:00-12:00 @ Raum 101".

Definition demo_algebra : AiStudio.variant :=
  AiStudio.Variant
    (Event "1.4" "Algebra" "1.4 Algebra" recurring None "Mo" "10:00" "12:00" "Raum 101")
    "Mo 10:00-12:00 @ Raum 101".


(** * Facts about the library models *)

Module StrFacts.
Import Str.

Lemma app_empty_r (s : string) : s ++ "" = s.
Proof. induction s as [|a s IH]; simpl; [reflexivity | now rewrite IH]. Qed.

Lemma app_assoc (a b c : string) : (a ++ b) ++ c = a ++ b ++ c.
Proof. induction a as [|x a IH]; simpl; [reflexivity | now rewrite IH]. Qed.

Lemma length_app (a b : string) :
  String.length (a ++ b) = (String.length a + String.length b)%nat.
Proof. induction a as [|x a IH]; simpl; [reflexivity | now rewrite IH]. Qed.

Lemma split_not_nil c s : split c s <> [].
Proof.
  destruct s as [|a s]; simpl; [discriminate|].
  destruct (Ascii.eqb a c); [discriminate|].
  destruct (split c s); discriminate.
Qed.

(** The first piece of a split is the text before the first separator. *)
Lemma split_head c pre post :
  contains c pre = false ->
  hd "" (split c (pre ++ String c post)) = pre.
Proof.
  induction pre as [|a pre IH]; simpl; intros H.
  - now rewrite Ascii.eqb_refl.
  - destruct (Ascii.eqb a c); [discriminate|].
    specialize (IH H).
    destruct (split c (pre ++ String c post)) as [|h t] eqn:E.
    + now apply split_not_nil in E.
    + simpl in *. now subst.
Qed.

(** A string that contains [c] splits at its first [c]. *)
Lemma contains_first c s :
  contains c s = true ->
  exists pre post, s = pre ++ String c post /\ contains c pre = false.
Proof.
  induction s as [|a s IH]; simpl; [discriminate|].
  destruct (Ascii.eqb a c) eqn:E; intros H.
  - apply Ascii.eqb_eq in E; subst. now exists "", s.
  - destruct (IH H) as (pre & post & -> & Hp).
    exists (String a pre), post. simpl. now rewrite E.
Qed.

Lemma startswith_refl s : startswith s s = true.
Proof.
  unfold startswith. induction s as [|a s IH]; simpl; [reflexivity|].
  destruct (ascii_dec a a); [assumption | congruence].
Qed.

End StrFacts.

Module ReFacts.
Import Re.

Lemma take_app p s : take (String.length p) (p ++ s) = p.
Proof. induction p as [|a p IH]; simpl; [now destruct s | now rewrite IH]. Qed.

Lemma consumed_app p s : consumed (p ++ s) s = p.
Proof.
  unfold consumed. rewrite StrFacts.length_app.
  replace (String.length p + String.length s - String.length s)%nat
    with (String.length p) by lia.
  apply take_app.
Qed.

Lemma consumed_1 a s : consumed (String a s) s = String a "".
Proof. exact (consumed_app (String a "") s). Qed.

Lemma consumed_2 a b s : consumed (String a (String b s)) s = String a (String b "").
Proof. exact (consumed_app (String a (String b "")) s). Qed.

Lemma consumed_4 a b c d s :
  consumed (String a (String b (String c (String d s)))) s
  = String a (String b (String c (String d ""))).
Proof. exact (consumed_app (String a (String b (String c (String d "")))) s). Qed.

Section MatcherFacts.
Context {A : Type}.
Variable whole : nat.

(** The result depends on the continuation only through its values. *)
Lemma star_loop_ext (m : @matcher A) (k1 k2 : @cont A) :
  (forall s cs j1 j2, (forall s' cs', j1 s' cs' = j2 s' cs') -> m s cs j1 = m s cs j2) ->
  (forall s cs, k1 s cs = k2 s cs) ->
  forall fuel s cs, star_loop m k1 fuel s cs = star_loop m k2 fuel s cs.
Proof.
  intros Hm Hk fuel. induction fuel as [|f IH]; intros s cs; simpl; [apply Hk|].
  rewrite (Hm s cs _ (fun s' cs' =>
     if (String.length s' <? String.length s)%nat then star_loop m k2 f s' cs' else None)).
  - now rewrite Hk.
  - intros s' cs'. destruct (String.length s' <? String.length s)%nat; [apply IH | reflexivity].
Qed.

Lemma run_ext (r : regex) :
  forall s cs (k1 k2 : @cont A),
    (forall s' cs', k1 s' cs' = k2 s' cs') ->
    run whole r s cs k1 = run whole r s cs k2.
Proof.
  induction r as [| |p|r1 IH1 r2 IH2|r1 IH1 r2 IH2|r1 IH1|r1 IH1|r1 IH1|n r1 IH1];
    intros s cs k1 k2 Hk; simpl.
  - apply Hk.
  - destruct (Nat.eqb _ _); [apply Hk | reflexivity].
  - destruct s as [|a s]; [reflexivity|]. destruct (p a); [apply Hk | reflexivity].
  - apply IH1. intros s' cs'. now apply IH2.
  - rewrite (IH1 s cs k1 k2 Hk), (IH2 s cs k1 k2 Hk). reflexivity.
  - rewrite (IH1 s cs k1 k2 Hk), Hk. reflexivity.
  - apply star_loop_ext; assumption.
  - apply IH1. intros s' cs'. apply star_loop_ext; assumption.
  - apply IH1. intros s' cs'. apply Hk.
Qed.

(** Captures made before a match starts are carried through unchanged. *)
Lemma star_loop_frame (m : @matcher A) (cs0 : caps) (k : @cont A) :
  (forall s cs j1 j2, (forall s' cs', j1 s' cs' = j2 s' cs') -> m s cs j1 = m s cs j2) ->
  (forall s cs j, m s (cs ++ cs0)%list j = m s cs (fun s' c => j s' (c ++ cs0)%list)) ->
  forall fuel s cs,
    star_loop m k fuel s (cs ++ cs0)%list
    = star_loop m (fun s' c => k s' (c ++ cs0)%list) fuel s cs.
Proof.
  intros Hext Hm fuel. induction fuel as [|f IH]; intros s cs; simpl; [reflexivity|].
  rewrite Hm.
  rewrite (Hext s cs _ (fun s' cs' =>
     if (String.length s' <? String.length s)%nat
     then star_loop m (fun s'' c => k s'' (c ++ cs0)%list) f s' cs' else None)).
  - reflexivity.
  - intros s' cs'. destruct (String.length s' <? String.length s)%nat; [apply IH | reflexivity].
Qed.

Lemma run_frame (r : regex) (cs0 : caps) :
  forall s cs (k : @cont A),
    run whole r s (cs ++ cs0)%list k
    = run whole r s cs (fun s' c => k s' (c ++ cs0)%list).
Proof.
  induction r as [| |p|r1 IH1 r2 IH2|r1 IH1 r2 IH2|r1 IH1|r1 IH1|r1 IH1|n r1 IH1];
    intros s cs k; simpl; try reflexivity.
  - rewrite IH1. apply run_ext. intros s' cs'. apply IH2.
  - now rewrite IH1, IH2.
  - now rewrite IH1.
  - apply star_loop_frame; [apply run_ext | apply IH1].
  - rewrite IH1. apply run_ext. intros s' cs'.
    apply star_loop_frame; [apply run_ext | apply IH1].
  - now rewrite IH1.
Qed.

End MatcherFacts.

Lemma star_loop_same {A} (m1 m2 : @matcher A) (k : @cont A) :
  (forall s cs j1 j2, (forall s' cs', j1 s' cs' = j2 s' cs') -> m1 s cs j1 = m2 s cs j2) ->
  forall fuel s cs, star_loop m1 k fuel s cs = star_loop m2 k fuel s cs.
Proof.
  intros Hm fuel. induction fuel as [|f IH]; intros s cs; simpl; [reflexivity|].
  rewrite (Hm s cs _ (fun s' cs' =>
     if (String.length s' <? String.length s)%nat then star_loop m2 k f s' cs' else None)).
  - reflexivity.
  - intros s' cs'. destruct (String.length s' <? String.length s)%nat; [apply IH | reflexivity].
Qed.

Lemma run_unanchored {A} (w1 w2 : nat) (r : regex) :
  unanchored r = true ->
  forall s cs (k1 k2 : @cont A),
    (forall s' cs', k1 s' cs' = k2 s' cs') ->
    run w1 r s cs k1 = run w2 r s cs k2.
Proof.
  induction r as [| |p|r1 IH1 r2 IH2|r1 IH1 r2 IH2|r1 IH1|r1 IH1|r1 IH1|n r1 IH1];
    simpl; intros Hu s cs k1 k2 Hk; try discriminate.
  - apply Hk.
  - destruct s as [|a s]; [reflexivity|]. destruct (p a); [apply Hk | reflexivity].
  - apply andb_true_iff in Hu as [H1 H2].
    apply IH1; [assumption|]. intros s' cs'. now apply IH2.
  - apply andb_true_iff in Hu as [H1 H2].
    now rewrite (IH1 H1 s cs k1 k2 Hk), (IH2 H2 s cs k1 k2 Hk).
  - now rewrite (IH1 Hu s cs k1 k2 Hk), Hk.
  - rewrite (star_loop_ext (run w1 r1) k1 k2 (run_ext w1 r1) Hk).
    apply star_loop_same. intros; now apply IH1.
  - apply IH1; [assumption|]. intros s' cs'.
    rewrite (star_loop_ext (run w1 r1) k1 k2 (run_ext w1 r1) Hk).
    apply star_loop_same. intros; now apply IH1.
  - apply IH1; [assumption|]. intros s' cs'. apply Hk.
Qed.

(** Post-processing the result of the continuation is post-processing the
    result of the match. *)
Lemma star_loop_map {A B} (g : A -> B) (mA : @matcher A) (mB : @matcher B)
    (k : @cont A) :
  (forall s cs j, mB s cs (fun s' c => option_map g (j s' c)) = option_map g (mA s cs j)) ->
  (forall s cs j1 j2, (forall s' cs', j1 s' cs' = j2 s' cs') -> mB s cs j1 = mB s cs j2) ->
  forall fuel s cs,
    star_loop mB (fun s' c => option_map g (k s' c)) fuel s cs
    = option_map g (star_loop mA k fuel s cs).
Proof.
  intros Hm Hext fuel. induction fuel as [|f IH]; intros s cs; simpl; [reflexivity|].
  rewrite (Hext s cs _ (fun s' c =>
     option_map g (if (String.length s' <? String.length s)%nat
                   then star_loop mA k f s' c else None))).
  - rewrite Hm. destruct (mA s cs _); reflexivity.
  - intros s' cs'. destruct (String.length s' <? String.length s)%nat;
      [apply IH | reflexivity].
Qed.

Lemma run_map {A B} (g : A -> B) (w : nat) (r : regex) :
  forall s cs (k : @cont A),
    run w r s cs (fun s' c => option_map g (k s' c)) = option_map g (run w r s cs k).
Proof.
  induction r as [| |p|r1 IH1 r2 IH2|r1 IH1 r2 IH2|r1 IH1|r1 IH1|r1 IH1|n r1 IH1];
    intros s cs k; simpl; try reflexivity.
  - destruct (Nat.eqb _ _); reflexivity.
  - destruct s as [|a s]; [reflexivity|]. destruct (p a); reflexivity.
  - rewrite <- IH1. apply run_ext. intros s' cs'. apply IH2.
  - rewrite IH1, IH2. destruct (run w r1 s cs k); reflexivity.
  - rewrite IH1. destruct (run w r1 s cs k); reflexivity.
  - apply star_loop_map; [apply IH1 | apply run_ext].
  - rewrite <- IH1. apply run_ext. intros s' cs'.
    apply star_loop_map; [apply IH1 | apply run_ext].
  - now rewrite <- IH1.
Qed.

Lemma caps_of_app ns c1 c2 : caps_of ns c1 -> caps_of ns c2 -> caps_of ns (c1 ++ c2)%list.
Proof. unfold caps_of. intros. apply Forall_app. now split. Qed.

Lemma caps_of_incl ns ms c : incl ns ms -> caps_of ns c -> caps_of ms c.
Proof. unfold caps_of. intros Hi H. eapply Forall_impl; [|exact H]. intros p. apply Hi. Qed.

Section CapsOf.
Context {A : Type}.
Variable w : nat.

Lemma star_loop_caps (ns : list nat) (m : @matcher A) (cs : caps) (k1 k2 : @cont A) :
  (forall s c j1 j2, caps_of ns c ->
     (forall s' c', caps_of ns c' -> j1 s' (c' ++ c ++ cs)%list = j2 s' (c' ++ c ++ cs)%list) ->
     m s (c ++ cs)%list j1 = m s (c ++ cs)%list j2) ->
  (forall s' c', caps_of ns c' -> k1 s' (c' ++ cs)%list = k2 s' (c' ++ cs)%list) ->
  forall fuel s c, caps_of ns c ->
    star_loop m k1 fuel s (c ++ cs)%list = star_loop m k2 fuel s (c ++ cs)%list.
Proof.
  intros Hm Hk fuel. induction fuel as [|f IH]; intros s c Hc; simpl; [now apply Hk|].
  rewrite (Hm s c _ (fun s' cs' =>
     if (String.length s' <? String.length s)%nat then star_loop m k2 f s' cs' else None) Hc).
  - now rewrite Hk.
  - intros s' c' Hc'. destruct (String.length s' <? String.length s)%nat; [|reflexivity].
    rewrite List.app_assoc. apply IH. now apply caps_of_app.
Qed.

(** Two continuations that agree on the captures a match of [r] can add
    give the same result. *)
Lemma run_caps (r : regex) :
  forall s cs (k1 k2 : @cont A),
    (forall s' c', caps_of (groups r) c' -> k1 s' (c' ++ cs)%list = k2 s' (c' ++ cs)%list) ->
    run w r s cs k1 = run w r s cs k2.
Proof.
  induction r as [| |p|r1 IH1 r2 IH2|r1 IH1 r2 IH2|r1 IH1|r1 IH1|r1 IH1|n r1 IH1];
    intros s cs k1 k2 Hk; simpl.
  - apply (Hk s []). constructor.
  - destruct (Nat.eqb _ _); [|reflexivity]. apply (Hk s []). constructor.
  - destruct s as [|a s]; [reflexivity|]. destruct (p a); [|reflexivity].
    apply (Hk s []). constructor.
  - apply IH1. intros s' c1 H1. apply IH2. intros s'' c2 H2.
    rewrite List.app_assoc. apply Hk. cbn [groups].
    apply caps_of_app; [eapply caps_of_incl; [|exact H2] | eapply caps_of_incl; [|exact H1]].
    + apply incl_appr, incl_refl.
    + apply incl_appl, incl_refl.
  - rewrite (IH1 s cs k1 k2), (IH2 s cs k1 k2); [reflexivity| |];
      intros s' c' H; apply Hk; cbn [groups]; eapply caps_of_incl; try exact H.
    + apply incl_appr, incl_refl.
    + apply incl_appl, incl_refl.
  - rewrite (IH1 s cs k1 k2 Hk).
    pose proof (Hk s [] (Forall_nil _)) as E. simpl in E. now rewrite E.
  - apply (star_loop_caps (groups r1) (run w r1) cs k1 k2) with (c := []);
      [|exact Hk|constructor].
    intros s0 c j1 j2 Hc Hj. apply IH1. intros s' c' Hc'.
    rewrite List.app_assoc. rewrite <- List.app_assoc. now apply Hj.
  - apply IH1. intros s' c1 H1.
    apply (star_loop_caps (groups r1) (run w r1) cs k1 k2); [|exact Hk|exact H1].
    intros s0 c j1 j2 Hc Hj. apply IH1. intros s'' c' Hc'.
    rewrite List.app_assoc. rewrite <- List.app_assoc. now apply Hj.
  - apply IH1. intros s' c' H.
    apply (Hk s' ((n, consumed s s') :: c')). cbn [groups].
    constructor; [now left|]. eapply caps_of_incl; [|exact H]. apply incl_tl, incl_refl.
Qed.

End CapsOf.

Lemma lookup_app n c1 c2 :
  lookup n (c1 ++ c2)%list = match lookup n c1 with Some v => Some v | None => lookup n c2 end.
Proof.
  induction c1 as [|[i v] c1 IH]; simpl; [reflexivity|].
  destruct (Nat.eqb i n); [reflexivity | exact IH].
Qed.

Lemma lookup_caps_of n ns c : caps_of ns c -> ~ In n ns -> lookup n c = None.
Proof.
  induction c as [|[i v] c IH]; simpl; intros H Hn; [reflexivity|].
  inversion H as [|? ? Hi Hc]; subst. cbn [fst] in Hi.
  destruct (Nat.eqb_spec i n) as [->|]; [contradiction|]. now apply IH.
Qed.

Lemma suffix_refl s : suffix_of s s.
Proof. now exists "". Qed.

Lemma suffix_trans a b c : suffix_of a b -> suffix_of b c -> suffix_of a c.
Proof.
  intros [p ->] [q ->]. exists (p ++ q). now rewrite StrFacts.app_assoc.
Qed.

Section Result.
Context {A : Type}.
Variable w : nat.

Lemma reaches_here ns (k : @cont A) s cs x : k s cs = Some x -> reaches ns k s cs x.
Proof. intros H. exists s, []. repeat split; [apply suffix_refl | constructor | exact H]. Qed.

Lemma star_loop_result ns (m : @matcher A) (k : @cont A) cs x :
  (forall s c j, caps_of ns c -> m s (c ++ cs)%list j = Some x ->
     reaches ns j s (c ++ cs)%list x) ->
  forall fuel s c, caps_of ns c ->
    star_loop m k fuel s (c ++ cs)%list = Some x ->
    reaches ns k s (c ++ cs)%list x.
Proof.
  intros Hm fuel. induction fuel as [|f IH]; intros s c Hc; simpl.
  - apply reaches_here.
  - destruct (m s (c ++ cs)%list _) as [y|] eqn:E.
    + intros [= ->]. apply Hm in E; [|exact Hc].
      destruct E as (s1 & c1 & Hs1 & Hc1 & E).
      destruct (String.length s1 <? String.length s)%nat; [|discriminate].
      rewrite List.app_assoc in E. apply IH in E; [|now apply caps_of_app].
      destruct E as (s2 & c2 & Hs2 & Hc2 & E).
      exists s2, (c2 ++ c1)%list. repeat split.
      * eapply suffix_trans; eassumption.
      * now apply caps_of_app.
      * now rewrite <- !List.app_assoc in *.
    + apply reaches_here.
Qed.

Lemma run_result (r : regex) :
  forall s cs (k : @cont A) x,
    run w r s cs k = Some x -> reaches (groups r) k s cs x.
Proof.
  induction r as [| |p|r1 IH1 r2 IH2|r1 IH1 r2 IH2|r1 IH1|r1 IH1|r1 IH1|n r1 IH1];
    intros s cs k x; simpl.
  - apply reaches_here.
  - destruct (Nat.eqb _ _); [apply reaches_here | discriminate].
  - destruct s as [|a s]; [discriminate|]. destruct (p a); [|discriminate].
    intros H. exists s, []. repeat split; [now exists (String a "") | constructor | exact H].
  - intros H. apply IH1 in H. destruct H as (s1 & c1 & Hs1 & Hc1 & H).
    apply IH2 in H. destruct H as (s2 & c2 & Hs2 & Hc2 & H).
    exists s2, (c2 ++ c1)%list. repeat split.
    + eapply suffix_trans; eassumption.
    + apply caps_of_app; [eapply caps_of_incl; [|exact Hc2] | eapply caps_of_incl; [|exact Hc1]].
      * apply incl_appr, incl_refl.
      * apply incl_appl, incl_refl.
    + now rewrite <- List.app_assoc.
  - destruct (run w r1 s cs k) as [y|] eqn:E.
    + intros [= ->]. apply IH1 in E. destruct E as (s1 & c1 & ? & Hc & ?).
      exists s1, c1. repeat split; try assumption.
      eapply caps_of_incl; [|exact Hc]. apply incl_appl, incl_refl.
    + intros H. apply IH2 in H. destruct H as (s1 & c1 & ? & Hc & ?).
      exists s1, c1. repeat split; try assumption.
      eapply caps_of_incl; [|exact Hc]. apply incl_appr, incl_refl.
  - destruct (run w r1 s cs k) as [y|] eqn:E.
    + intros [= ->]. now apply IH1.
    + apply reaches_here.
  - intros H. apply (star_loop_result (groups r1) (run w r1) k cs x) with (c := []) in H;
      [exact H | | constructor].
    intros s0 c j _. apply IH1.
  - intros H. apply IH1 in H. destruct H as (s1 & c1 & Hs1 & Hc1 & H).
    apply (star_loop_result (groups r1) (run w r1) k cs x) in H; [|intros s0 c j _; apply IH1|exact Hc1].
    destruct H as (s2 & c2 & Hs2 & Hc2 & H).
    exists s2, (c2 ++ c1)%list. repeat split.
    + eapply suffix_trans; eassumption.
    + now apply caps_of_app.
    + now rewrite <- List.app_assoc.
  - intros H. apply IH1 in H. destruct H as (s1 & c1 & Hs1 & Hc1 & H).
    exists s1, ((n, consumed s s1) :: c1). repeat split; [exact Hs1 | | exact H].
    constructor; [now left|]. eapply caps_of_incl; [|exact Hc1]. apply incl_tl, incl_refl.
Qed.

End Result.

(** The fuel of an iteration never cuts it short: on a subject of at most
    [fuel] characters more fuel changes nothing. *)
Lemma star_loop_fuel {A} (w : nat) (r : regex) (k : @cont A) :
  forall f1 f2 s cs,
    (String.length s <= f1)%nat -> (String.length s <= f2)%nat ->
    star_loop (run w r) k f1 s cs = star_loop (run w r) k f2 s cs.
Proof.
  assert (Hdead : forall s cs,
             run w r s cs (fun s' _ =>
               if (String.length s' <? 0)%nat then None else @None A) = None).
  { intros s cs. destruct (run w r s cs _) as [x|] eqn:E; [|reflexivity].
    apply run_result in E. destruct E as (s' & c' & _ & _ & E).
    cbv beta in E. destruct (String.length s' <? 0)%nat; discriminate E. }
  induction f1 as [|f1 IH]; intros f2 s cs H1 H2.
  - destruct s; [|cbn in H1; lia]. destruct f2 as [|f2]; [reflexivity|].
    cbn [star_loop String.length].
    rewrite (run_ext w r "" cs _ (fun s' _ =>
               if (String.length s' <? 0)%nat then None else None)).
    + now rewrite Hdead.
    + intros s' cs'. destruct (Nat.ltb_spec (String.length s') 0); [lia | reflexivity].
  - destruct f2 as [|f2].
    + destruct s; [|cbn in H2; lia]. cbn [star_loop String.length].
      rewrite (run_ext w r "" cs _ (fun s' _ =>
                 if (String.length s' <? 0)%nat then None else None)).
      * now rewrite Hdead.
      * intros s' cs'. destruct (Nat.ltb_spec (String.length s') 0); [lia | reflexivity].
    + cbn [star_loop].
      rewrite (run_ext w r s cs _ (fun s' cs' =>
                 if (String.length s' <? String.length s)%nat
                 then star_loop (run w r) k f2 s' cs' else None)); [reflexivity|].
      intros s' cs'. destruct (Nat.ltb_spec (String.length s') (String.length s));
        [|reflexivity].
      apply IH; lia.
Qed.

(** [search] returns the leftmost match: no earlier offset has one. *)
Lemma search_from_leftmost r whole s m :
  search_from r whole s = Some m ->
  exists pre s', s = pre ++ s' /\ match_at r whole s' = Some m /\
    forall p q, pre = p ++ q -> q <> "" -> match_at r whole (q ++ s') = None.
Proof.
  induction s as [|a s IH]; simpl.
  - destruct (match_at r whole "") eqn:E; [|discriminate].
    intros [= <-]. exists "", "". repeat split; [assumption|].
    intros p q Hpq Hq. destruct p; destruct q; try discriminate. congruence.
  - destruct (match_at r whole (String a s)) eqn:E.
    + intros [= <-]. exists "", (String a s). repeat split; [assumption|].
      intros p q Hpq Hq. destruct p; destruct q; try discriminate. congruence.
    + intros H. destruct (IH H) as (pre & s' & -> & Hm & Hleft).
      exists (String a pre), s'. repeat split; [assumption|].
      intros p q Hpq Hq. destruct p as [|b p]; simpl in Hpq.
      * subst q. exact E.
      * injection Hpq as -> ->. now apply (Hleft p q).
Qed.

Lemma search_from_none r whole s :
  search_from r whole s = None ->
  forall p s', s = p ++ s' -> match_at r whole s' = None.
Proof.
  induction s as [|a s IH]; simpl.
  - destruct (match_at r whole "") eqn:E; [discriminate|].
    intros _ p s' Hs. destruct p; [|discriminate]. simpl in Hs. now subst.
  - destruct (match_at r whole (String a s)) eqn:E; [discriminate|].
    intros H p s' Hs. destruct p as [|b p]; simpl in Hs.
    + now subst.
    + injection Hs as -> ->. now apply (IH H p).
Qed.

Lemma search_spec r text :
  match search r text with
  | Some m => leftmost r text m
  | None => unmatched r text
  end.
Proof.
  unfold search. destruct (search_from r (String.length text) text) as [m|] eqn:E.
  - now apply search_from_leftmost.
  - unfold unmatched. now apply search_from_none.
Qed.

(** The text of a match object and what follows it make up the subject from
    the offset of the match on. *)
Lemma match_at_text r whole s m :
  match_at r whole s = Some m -> s = m_text m ++ m_rest m.
Proof.
  unfold match_at. intros H. apply run_result in H.
  destruct H as (s' & c' & (p & ->) & _ & H). injection H as <-.
  cbn [m_text m_rest]. now rewrite consumed_app.
Qed.

End ReFacts.

(** ** The calendar: [fromordinal] inverts [toordinal] *)

Module CalFacts.
Import Cal.

Lemma dby_cycle a b c d :
  0 <= b <= 3 -> 0 <= c <= 24 -> 0 <= d <= 3 ->
  days_before_year (400 * a + 100 * b + 4 * c + d + 1)
  = 146097 * a + 36524 * b + 1461 * c + 365 * d.
Proof.
  intros Hb Hc Hd. unfold days_before_year. cbv zeta.
  replace (400 * a + 100 * b + 4 * c + d + 1 - 1) with (400 * a + 100 * b + 4 * c + d) by lia.
  assert (E4 : (400 * a + 100 * b + 4 * c + d) / 4 = 100 * a + 25 * b + c)
    by (symmetry; apply (Z.div_unique _ 4 _ d); lia).
  assert (E100 : (400 * a + 100 * b + 4 * c + d) / 100 = 4 * a + b)
    by (symmetry; apply (Z.div_unique _ 100 _ (4 * c + d)); lia).
  assert (E400 : (400 * a + 100 * b + 4 * c + d) / 400 = a)
    by (symmetry; apply (Z.div_unique _ 400 _ (100 * b + 4 * c + d)); lia).
  rewrite E4, E100, E400. lia.
Qed.

Lemma leap_cycle a b c d :
  0 <= b <= 3 -> 0 <= c <= 24 -> 0 <= d <= 3 ->
  is_leap (400 * a + 100 * b + 4 * c + d + 1)
  = ((d =? 3) && (negb (c =? 24) || (b =? 3)))%bool.
Proof.
  intros Hb Hc Hd. unfold is_leap.
  set (Y := 400 * a + 100 * b + 4 * c + d + 1).
  assert (H4 : Y mod 4 = 0 <-> d = 3).
  { replace Y with (d + 1 + (100 * a + 25 * b + c) * 4) by (unfold Y; lia).
    rewrite Z.mod_add by lia.
    assert (Hd' : d = 0 \/ d = 1 \/ d = 2 \/ d = 3) by lia.
    destruct Hd' as [-> | [-> | [-> | ->]]]; cbn; lia. }
  assert (H100 : Y mod 100 = 0 <-> (c = 24 /\ d = 3)).
  { replace Y with (4 * c + d + 1 + (4 * a + b) * 100) by (unfold Y; lia).
    rewrite Z.mod_add by lia.
    destruct (Z.eq_dec (4 * c + d + 1) 100) as [E|E].
    - rewrite E. cbn. lia.
    - rewrite Z.mod_small by lia. lia. }
  assert (H400 : Y mod 400 = 0 <-> (b = 3 /\ c = 24 /\ d = 3)).
  { replace Y with (100 * b + 4 * c + d + 1 + a * 400) by (unfold Y; lia).
    rewrite Z.mod_add by lia.
    destruct (Z.eq_dec (100 * b + 4 * c + d + 1) 400) as [E|E].
    - rewrite E. cbn. lia.
    - rewrite Z.mod_small by lia. lia. }
  revert H4 H100 H400.
  generalize (Y mod 4) (Y mod 100) (Y mod 400). intros m4 m100 m400 H4 H100 H400.
  destruct (Z.eqb_spec m4 0), (Z.eqb_spec m100 0), (Z.eqb_spec m400 0),
    (Z.eqb_spec d 3), (Z.eqb_spec c 24), (Z.eqb_spec b 3);
    cbn [andb orb negb]; try reflexivity; exfalso; tauto.
Qed.

Lemma all_below_spec k f :
  all_below k f = true -> forall z, 0 <= z < Z.of_nat k -> f z = true.
Proof.
  induction k as [|k IH]; intros H z Hz; [lia|].
  cbn [all_below] in H. apply andb_true_iff in H as [H1 H2].
  destruct (Z.eq_dec z (Z.of_nat k)) as [->|Hne]; [assumption|].
  apply IH; [assumption | lia].
Qed.

Lemma md_of_spec leap n :
  0 <= n < 365 -> md_ok leap n = true.
Proof.
  intros Hn. apply (all_below_spec 365); [|exact Hn].
  destruct leap; vm_compute; reflexivity.
Qed.

Lemma days_in_month_alt y m :
  days_in_month y m = DAYS_IN_MONTH m + (if ((m =? 2) && is_leap y)%bool then 1 else 0).
Proof.
  unfold days_in_month. destruct (Z.eqb_spec m 2) as [->|]; cbn [andb]; [|lia].
  destruct (is_leap y); reflexivity.
Qed.

Lemma ord2ymd_spec n : ymd_ok n (ord2ymd n).
Proof.
  unfold ord2ymd. cbv zeta. unfold DI400Y, DI100Y, DI4Y.
  pose proof (Z.div_mod (n - 1) 146097 ltac:(lia)) as E1.
  pose proof (Z.mod_pos_bound (n - 1) 146097 ltac:(lia)) as B1.
  set (a := (n - 1) / 146097) in *. set (r400 := (n - 1) mod 146097) in *.
  pose proof (Z.div_mod r400 36524 ltac:(lia)) as E2.
  pose proof (Z.mod_pos_bound r400 36524 ltac:(lia)) as B2.
  set (b := r400 / 36524) in *. set (r100 := r400 mod 36524) in *.
  pose proof (Z.div_mod r100 1461 ltac:(lia)) as E3.
  pose proof (Z.mod_pos_bound r100 1461 ltac:(lia)) as B3.
  set (c := r100 / 1461) in *. set (r4 := r100 mod 1461) in *.
  pose proof (Z.div_mod r4 365 ltac:(lia)) as E4.
  pose proof (Z.mod_pos_bound r4 365 ltac:(lia)) as B4.
  set (d := r4 / 365) in *. set (r1 := r4 mod 365) in *.
  clearbody a r400 b r100 c r4 d r1.
  assert (Hb : 0 <= b <= 4) by lia.
  assert (Hc : 0 <= c <= 24) by lia.
  assert (Hd : 0 <= d <= 4) by lia.
  destruct (Z.eqb_spec d 4) as [Ed|Ed]; cbn [orb].
  - (* 31 December of a leap year *)
    unfold ymd_ok, ymd2ord, days_before_month, days_in_month.
    replace (a * 400 + 1 + b * 100 + c * 4 + d - 1) with (400 * a + 100 * b + 4 * c + 3 + 1) by lia.
    rewrite leap_cycle, dby_cycle by lia.
    assert (c <> 24) by lia. assert (b <> 4) by lia.
    destruct (Z.eqb_spec c 24); [lia|]. change (3 =? 3) with true. change (12 =? 2) with false.
    change (2 <? 12) with true. cbn [andb orb negb DAYS_BEFORE_MONTH DAYS_IN_MONTH]. lia.
  - destruct (Z.eqb_spec b 4) as [Eb|Eb].
    + unfold ymd_ok, ymd2ord, days_before_month, days_in_month.
      replace (a * 400 + 1 + b * 100 + c * 4 + d - 1) with (400 * a + 100 * 3 + 4 * 24 + 3 + 1) by lia.
      rewrite leap_cycle, dby_cycle by lia.
      change (3 =? 3) with true. change (24 =? 24) with true. change (12 =? 2) with false.
      change (2 <? 12) with true. cbn [andb orb negb DAYS_BEFORE_MONTH DAYS_IN_MONTH]. lia.
    + set (leap := ((d =? 3) && (negb (c =? 24) || (b =? 3)))%bool).
      pose proof (md_of_spec leap r1 B4) as Hmd. unfold md_ok in Hmd.
      replace (a * 400 + 1 + b * 100 + c * 4 + d) with (400 * a + 100 * b + 4 * c + d + 1) by lia.
      assert (Hl : is_leap (400 * a + 100 * b + 4 * c + d + 1) = leap) by (apply leap_cycle; lia).
      assert (Hy : days_before_year (400 * a + 100 * b + 4 * c + d + 1)
                   = 146097 * a + 36524 * b + 1461 * c + 365 * d) by (apply dby_cycle; lia).
      destruct (md_of r1 leap) as [month day].
      unfold ymd_ok, ymd2ord, days_before_month. rewrite days_in_month_alt, Hl, Hy.
      repeat (apply andb_true_iff in Hmd as [Hmd ?]). lia.
Qed.

Lemma dby_upper y : y <= 0 -> days_before_year y <= -366.
Proof. intros H. unfold days_before_year. cbv zeta. Z.div_mod_to_equations. lia. Qed.

Lemma dby_lower y : 10000 <= y -> 3652059 <= days_before_year y.
Proof. intros H. unfold days_before_year. cbv zeta. Z.div_mod_to_equations. lia. Qed.

Lemma dbm_bounds y m : 1 <= m <= 12 -> 0 <= days_before_month y m <= 335.
Proof.
  intros H. unfold days_before_month.
  assert (Hm : m = 1 \/ m = 2 \/ m = 3 \/ m = 4 \/ m = 5 \/ m = 6 \/ m = 7 \/ m = 8
               \/ m = 9 \/ m = 10 \/ m = 11 \/ m = 12) by lia.
  destruct (is_leap y);
    repeat (destruct Hm as [-> | Hm]; [cbn; lia|]); subst; cbn; lia.
Qed.

Lemma dim_bounds y m : 1 <= m <= 12 -> 28 <= days_in_month y m <= 31.
Proof.
  intros H. unfold days_in_month.
  assert (Hm : m = 1 \/ m = 2 \/ m = 3 \/ m = 4 \/ m = 5 \/ m = 6 \/ m = 7 \/ m = 8
               \/ m = 9 \/ m = 10 \/ m = 11 \/ m = 12) by lia.
  destruct (is_leap y);
    repeat (destruct Hm as [-> | Hm]; [cbn; lia|]); subst; cbn; lia.
Qed.

(** The year of a day of [date.min .. date.max] is one of 1..9999. *)
Lemma year_bounds n : valid n -> 1 <= year_of n <= 9999.
Proof.
  unfold valid, MINORD, MAXORD, year_of. intros Hn.
  pose proof (ord2ymd_spec n) as H. destruct (ord2ymd n) as [[y m] d]. cbn [fst].
  destruct H as (E & Hm & Hd). unfold ymd2ord in E.
  pose proof (dbm_bounds y m Hm). pose proof (dim_bounds y m Hm).
  destruct (Z_le_gt_dec y 0) as [Hy|Hy]; [pose proof (dby_upper y Hy); lia|].
  destruct (Z_le_gt_dec 10000 y) as [Hy'|Hy']; [pose proof (dby_lower y Hy'); lia|].
  lia.
Qed.

(** ** [strptime] reads what [strftime] writes *)

Lemma digit_cases k : 0 <= k <= 9 ->
  k = 0 \/ k = 1 \/ k = 2 \/ k = 3 \/ k = 4 \/ k = 5 \/ k = 6 \/ k = 7 \/ k = 8 \/ k = 9.
Proof. lia. Qed.

Ltac each_digit k H :=
  let C := fresh in
  pose proof (digit_cases k H) as C;
  repeat (destruct C as [-> | C]); [.. | subst k].

Lemma is_digit_digit_char k : 0 <= k <= 9 -> Str.is_digit (digit_char k) = true.
Proof. intros H. each_digit k H; reflexivity. Qed.

Lemma is_space_digit_char k : 0 <= k <= 9 -> Str.is_space (digit_char k) = false.
Proof. intros H. each_digit k H; reflexivity. Qed.

Lemma value_digit_char k : 0 <= k <= 9 -> Z.of_N (Str.ord (digit_char k)) - 48 = k.
Proof. intros H. each_digit k H; reflexivity. Qed.

Lemma int_pad2 n : 0 <= n <= 99 -> int (pad2 n) = n.
Proof.
  intros H. unfold int, pad2, Str.strip.
  assert (H1 : 0 <= n / 10 mod 10 <= 9) by (pose proof (Z.mod_pos_bound (n / 10) 10); lia).
  assert (H2 : 0 <= n mod 10 <= 9) by (pose proof (Z.mod_pos_bound n 10); lia).
  cbn [Str.lstrip]. rewrite (is_space_digit_char _ H1).
  cbn [Str.rstrip]. rewrite (is_space_digit_char _ H2).
  cbn [int_acc]. rewrite (value_digit_char _ H1), (value_digit_char _ H2).
  Z.div_mod_to_equations. lia.
Qed.

Lemma int_pad4 n : 0 <= n <= 9999 -> int (pad4 n) = n.
Proof.
  intros H. unfold int, pad4, pad2, Str.strip.
  assert (H1 : 0 <= n / 1000 mod 10 <= 9) by (pose proof (Z.mod_pos_bound (n / 1000) 10); lia).
  assert (H2 : 0 <= n / 100 mod 10 <= 9) by (pose proof (Z.mod_pos_bound (n / 100) 10); lia).
  assert (H3 : 0 <= n / 10 mod 10 <= 9) by (pose proof (Z.mod_pos_bound (n / 10) 10); lia).
  assert (H4 : 0 <= n mod 10 <= 9) by (pose proof (Z.mod_pos_bound n 10); lia).
  cbn [Str.lstrip]. rewrite (is_space_digit_char _ H1).
  cbn [Str.rstrip]. rewrite (is_space_digit_char _ H4).
  cbn [int_acc]. rewrite (value_digit_char _ H1), (value_digit_char _ H2),
    (value_digit_char _ H3), (value_digit_char _ H4).
  Z.div_mod_to_equations. lia.
Qed.

Import Re ReFacts.

#[local] Arguments consumed : simpl never.

Lemma day_cases d : 1 <= d <= 31 ->
  d = 1 \/ d = 2 \/ d = 3 \/ d = 4 \/ d = 5 \/ d = 6 \/ d = 7 \/ d = 8 \/ d = 9 \/ d = 10
  \/ d = 11 \/ d = 12 \/ d = 13 \/ d = 14 \/ d = 15 \/ d = 16 \/ d = 17 \/ d = 18 \/ d = 19
  \/ d = 20 \/ d = 21 \/ d = 22 \/ d = 23 \/ d = 24 \/ d = 25 \/ d = 26 \/ d = 27 \/ d = 28
  \/ d = 29 \/ d = 30 \/ d = 31.
Proof. lia. Qed.

Section Fields.
Context {A : Type}.
Variable w : nat.

Lemma run_day d (R : regex) rest cs (k : @cont A) :
  1 <= d <= 31 ->
  run w (Seq re_d (Seq (lit ".") R)) (pad2 d ++ String "." rest) cs k
  = run w R rest ((1%nat, pad2 d) :: cs) k.
Proof.
  intros H. pose proof (day_cases d H) as C.
  repeat (destruct C as [-> | C]); [.. | subst d];
    cbn; rewrite ?consumed_2; destruct (run w R rest _ k); reflexivity.
Qed.

Lemma run_month m (R : regex) rest cs (k : @cont A) :
  1 <= m <= 12 ->
  run w (Seq re_m (Seq (lit ".") R)) (pad2 m ++ String "." rest) cs k
  = run w R rest ((2%nat, pad2 m) :: cs) k.
Proof.
  intros H.
  assert (C : m = 1 \/ m = 2 \/ m = 3 \/ m = 4 \/ m = 5 \/ m = 6 \/ m = 7 \/ m = 8
              \/ m = 9 \/ m = 10 \/ m = 11 \/ m = 12) by lia.
  repeat (destruct C as [-> | C]); [.. | subst m];
    cbn; rewrite ?consumed_2; destruct (run w R rest _ k); reflexivity.
Qed.

Lemma run_year y (R : regex) rest cs (k : @cont A) :
  0 <= y <= 9999 ->
  run w (Seq re_Y R) (pad4 y ++ rest) cs k
  = run w R rest ((3%nat, pad4 y) :: cs) k.
Proof.
  intros H.
  assert (H1 : 0 <= y / 1000 mod 10 <= 9) by (pose proof (Z.mod_pos_bound (y / 1000) 10); lia).
  assert (H2 : 0 <= y / 100 mod 10 <= 9) by (pose proof (Z.mod_pos_bound (y / 100) 10); lia).
  assert (H3 : 0 <= y / 10 mod 10 <= 9) by (pose proof (Z.mod_pos_bound (y / 10) 10); lia).
  assert (H4 : 0 <= y mod 10 <= 9) by (pose proof (Z.mod_pos_bound y 10); lia).
  unfold re_Y, pad4, pad2, digit. cbn [run append].
  rewrite (is_digit_digit_char _ H1), (is_digit_digit_char _ H2),
    (is_digit_digit_char _ H3), (is_digit_digit_char _ H4).
  now rewrite consumed_4.
Qed.

(** A date written by [strftime_dmY] is read back by ['%d.%m.%Y']: the
    match goes on with what follows the date. *)
Lemma run_fmt_date y m d (tail : regex) rest cs (k : @cont A) :
  0 <= y <= 9999 -> 1 <= m <= 12 -> 1 <= d <= 31 ->
  run w (fmt_date tail) (pad2 d ++ "." ++ pad2 m ++ "." ++ pad4 y ++ rest) cs k
  = run w tail rest ((3%nat, pad4 y) :: (2%nat, pad2 m) :: (1%nat, pad2 d) :: cs) k.
Proof.
  intros Hy Hm Hd. unfold fmt_date.
  change ("." ++ pad2 m ++ "." ++ pad4 y ++ rest)
    with (String "." (pad2 m ++ String "." (pad4 y ++ rest))).
  now rewrite run_day, run_month, run_year.
Qed.

(** A year that [%Y] wrote with fewer than four digits is no year of
    ['%Y']: a blank follows it too early. *)
Lemma run_year_text_short y (R : regex) t cs (k : @cont A) :
  1 <= y < 1000 ->
  run w (Seq re_Y R) (year_text y ++ String " " t) cs k = None.
Proof.
  intros H.
  assert (H2 : 0 <= y / 100 mod 10 <= 9) by (pose proof (Z.mod_pos_bound (y / 100) 10); lia).
  assert (H3 : 0 <= y / 10 mod 10 <= 9) by (pose proof (Z.mod_pos_bound (y / 10) 10); lia).
  assert (H4 : 0 <= y mod 10 <= 9) by (pose proof (Z.mod_pos_bound y 10); lia).
  unfold year_text.
  destruct (y <? 10); [|destruct (y <? 100); [|destruct (Z.ltb_spec y 1000); [|lia]]];
    unfold re_Y, pad2, digit; cbn [run append];
    rewrite ?(is_digit_digit_char _ H2), ?(is_digit_digit_char _ H3),
      ?(is_digit_digit_char _ H4); reflexivity.
Qed.

Lemma run_fmt_date_short y m d (tail : regex) t cs (k : @cont A) :
  1 <= y < 1000 -> 1 <= m <= 12 -> 1 <= d <= 31 ->
  run w (fmt_date tail) (pad2 d ++ "." ++ pad2 m ++ "." ++ year_text y ++ String " " t) cs k
  = None.
Proof.
  intros Hy Hm Hd. unfold fmt_date.
  change ("." ++ pad2 m ++ "." ++ year_text y ++ String " " t)
    with (String "." (pad2 m ++ String "." (year_text y ++ String " " t))).
  now rewrite run_day, run_month, run_year_text_short.
Qed.

End Fields.

Lemma date_of_caps_canon y m d cs :
  0 <= y <= 9999 -> 1 <= m <= 12 -> 1 <= d <= 31 ->
  date_of_caps ((3%nat, pad4 y) :: (2%nat, pad2 m) :: (1%nat, pad2 d) :: cs)
  = if ((1 <=? y) && (d <=? days_in_month y m))%bool then Some (ymd2ord y m d) else None.
Proof.
  intros Hy Hm Hd. unfold date_of_caps. cbn [lookup Nat.eqb].
  rewrite int_pad4, !int_pad2 by lia.
  destruct (Z.leb_spec 1 y), (Z.leb_spec 1 m), (Z.leb_spec m 12), (Z.leb_spec 1 d);
    try lia; reflexivity.
Qed.

Lemma tail_HM_groups : groups tail_HM = [4%nat; 5%nat].
Proof. reflexivity. Qed.

(** The part of a ['%d.%m.%Y %H:%M'] match that follows a well-written date
    does not depend on the date. *)
Lemma found_datetime_canon y m d t :
  0 <= y <= 9999 -> 1 <= m <= 12 -> 1 <= d <= 31 ->
  strptime_datetime (pad2 d ++ "." ++ pad2 m ++ "." ++ pad4 y ++ String " " t)
  = if ((1 <=? y) && (d <=? days_in_month y m))%bool
    then match parse_time t with
         | Some (h, mi) => Some (DateTime (ymd2ord y m d) h mi)
         | None => None
         end
    else None.
Proof.
  intros Hy Hm Hd.
  unfold strptime_datetime, found, rmatch, match_at, FMT_DATETIME.
  rewrite run_fmt_date by assumption.
  set (S := pad2 d ++ "." ++ pad2 m ++ "." ++ pad4 y ++ String " " t).
  set (capsD := [(3%nat, pad4 y); (2%nat, pad2 m); (1%nat, pad2 d)]).
  set (g := fun p : string * caps =>
              MObj (String.length S - String.length S) (consumed S (fst p)) (fst p)
                   (snd p ++ capsD)%list).
  rewrite (run_frame (String.length S) tail_HM capsD (String " " t) []).
  rewrite (run_unanchored (String.length S) 0 tail_HM eq_refl (String " " t) [] _
             (fun s' c => option_map g ((fun s' c => Some (s', c)) s' c)))
    by reflexivity.
  rewrite (run_map g 0 tail_HM).
  unfold parse_time.
  destruct (run 0 tail_HM (String " " t) [] (fun s' cs => Some (s', cs)))
    as [[s' c]|] eqn:E; cbn [option_map g fst snd m_rest m_caps].
  2:{ now destruct (_ && _)%bool. }
  destruct s' as [|a s']; [|now destruct (_ && _)%bool].
  apply run_result in E. destruct E as (s1 & c1 & _ & Hc & E).
  injection E as -> E. rewrite List.app_nil_r in E. subst c1.
  rewrite tail_HM_groups in Hc.
  assert (Hd' : date_of_caps (c ++ capsD)%list = date_of_caps capsD).
  { unfold date_of_caps. rewrite !lookup_app.
    rewrite (lookup_caps_of 1 _ _ Hc), (lookup_caps_of 2 _ _ Hc), (lookup_caps_of 3 _ _ Hc);
      [reflexivity | | |]; cbn; intuition discriminate. }
  assert (Ht : time_of_caps (c ++ capsD)%list = time_of_caps c).
  { unfold time_of_caps. rewrite !lookup_app. cbn [capsD lookup Nat.eqb].
    destruct (lookup 4 c), (lookup 5 c); reflexivity. }
  rewrite Hd', Ht. unfold capsD. rewrite date_of_caps_canon by assumption.
  destruct (_ && _)%bool; [|reflexivity].
  destruct (time_of_caps c) as [[h mi]|]; reflexivity.
Qed.

(** Reading back the date that [strftime] wrote, whatever follows it: the
    date of a year of four digits is read back, the date of an earlier year
    is refused. *)
Lemma strptime_strftime n t :
  valid n ->
  strptime_datetime (strftime_dmY n ++ " " ++ t)
  = if 1000 <=? year_of n then
      match parse_time t with
      | Some (h, mi) => Some (DateTime n h mi)
      | None => None
      end
    else None.
Proof.
  intros Hn. change (" " ++ t) with (String " " t). unfold strftime_dmY.
  pose proof (ord2ymd_spec n) as H. pose proof (year_bounds n Hn) as Hy. unfold year_of in *.
  destruct (ord2ymd n) as [[y m] d]. cbn [fst] in *. destruct H as (E & Hm & Hd).
  pose proof (dim_bounds y m Hm).
  rewrite !StrFacts.app_assoc.
  destruct (Z.leb_spec 1000 y) as [Hk|Hk].
  - assert (year_text y = pad4 y) as ->.
    { unfold year_text. destruct (Z.ltb_spec y 10); [lia|].
      destruct (Z.ltb_spec y 100); [lia|]. destruct (Z.ltb_spec y 1000); [lia|].
      reflexivity. }
    rewrite found_datetime_canon by lia.
    destruct (Z.leb_spec 1 y); [|lia]. destruct (Z.leb_spec d (days_in_month y m)); [|lia].
    cbn [andb]. now rewrite E.
  - unfold strptime_datetime, found, rmatch, match_at, FMT_DATETIME.
    now rewrite run_fmt_date_short by lia.
Qed.

(** The days from 1 January 1000 on are days of a year of four digits. *)
Lemma dby_before_1000 y : y <= 998 -> days_before_year y + 366 <= days_before_year 1000.
Proof.
  intros H. unfold days_before_year. cbv zeta.
  change ((1000 - 1) * 365 + (1000 - 1) / 4 - (1000 - 1) / 100 + (1000 - 1) / 400)
    with 364877.
  Z.div_mod_to_equations. lia.
Qed.

Lemma year_from_1000 n : ymd2ord 1000 1 1 <= n -> 1000 <= year_of n.
Proof.
  intros Hn. unfold year_of.
  pose proof (ord2ymd_spec n) as H. destruct (ord2ymd n) as [[y m] d]. cbn [fst].
  destruct H as (E & Hm & Hd). unfold ymd2ord in E.
  change (ymd2ord 1000 1 1) with (days_before_year 1000 + 1) in Hn.
  pose proof (dbm_bounds y m Hm). pose proof (dim_bounds y m Hm).
  destruct (Z_le_gt_dec y 998) as [Hy|Hy]; [pose proof (dby_before_1000 y Hy); lia|].
  destruct (Z.eq_dec y 999) as [->|Hy']; [|lia].
  exfalso.
  assert (Hd' : days_before_month 999 m + days_in_month 999 m <= 365).
  { assert (C : m = 1 \/ m = 2 \/ m = 3 \/ m = 4 \/ m = 5 \/ m = 6 \/ m = 7 \/ m = 8
                \/ m = 9 \/ m = 10 \/ m = 11 \/ m = 12) by lia.
    repeat (destruct C as [-> | C]); [.. | subst m]; vm_compute; discriminate. }
  change (days_before_year 1000) with (days_before_year 999 + 365) in Hn. lia.
Qed.

End CalFacts.

(** * Facts about the loops *)

Module LoopFacts.
Import Cal CalFacts.

Lemma stride_count_cons first last :
  first <= last -> stride_count first last = S (stride_count (first + 7) last).
Proof.
  intros H. unfold stride_count.
  destruct (Z.leb_spec first last); [|lia].
  destruct (Z.leb_spec (first + 7) last).
  - replace (last - first) with (last - (first + 7) + 1 * 7) by lia.
    rewrite Z.div_add by lia.
    assert (0 <= (last - (first + 7)) / 7) by (apply Z.div_pos; lia).
    lia.
  - rewrite Z.div_small by lia. reflexivity.
Qed.

Lemma strides_nil first last : last < first -> strides first last = [].
Proof.
  intros H. unfold strides, stride_count. destruct (Z.leb_spec first last); [lia|reflexivity].
Qed.

Lemma strides_cons first last :
  first <= last -> strides first last = first :: strides (first + 7) last.
Proof. intros H. unfold strides. now rewrite stride_count_cons. Qed.

Lemma stride_count_le first last :
  (stride_count first last <= Z.to_nat (last - first + 1))%nat.
Proof.
  unfold stride_count. destruct (Z.leb_spec first last); [|lia].
  assert ((last - first) / 7 <= last - first) by (apply Z.div_le_upper_bound; lia).
  lia.
Qed.

Lemma In_stride_list n d x :
  In x (stride_list n d) <-> exists k, 0 <= k < Z.of_nat n /\ x = d + 7 * k.
Proof.
  revert d. induction n as [|n IH]; intros d; cbn [stride_list In].
  - split; [tauto | intros (k & Hk & _); lia].
  - rewrite IH. split.
    + intros [<- | (k & Hk & ->)]; [exists 0; lia | exists (k + 1); lia].
    + intros (k & Hk & ->). destruct (Z.eq_dec k 0) as [->|]; [left; lia|].
      right. exists (k - 1). lia.
Qed.

(** The strides are the days [first + 7k] that do not pass [last]. *)
Lemma In_strides first last x :
  In x (strides first last) <-> exists k, 0 <= k /\ x = first + 7 * k /\ x <= last.
Proof.
  unfold strides. rewrite In_stride_list. unfold stride_count.
  destruct (Z.leb_spec first last) as [H|H].
  - assert (H0 : 0 <= (last - first) / 7) by (apply Z.div_pos; lia).
    rewrite Z2Nat.id by lia.
    split; intros (k & Hk & Hx).
    + exists k. repeat split; try lia.
      assert (7 * k <= last - first); [|lia].
      assert (k <= (last - first) / 7) by lia.
      pose proof (Z.mul_div_le (last - first) 7). nia.
    + destruct Hx as [-> Hx]. exists k. repeat split; try lia.
      assert (k <= (last - first) / 7); [|lia].
      apply Z.div_le_lower_bound; lia.
  - split; intros (k & Hk & Hx); [cbn in Hk; lia | lia].
Qed.

Lemma weekday_range d : 0 <= weekday d <= 6.
Proof. unfold weekday. pose proof (Z.mod_pos_bound (d + 6) 7). lia. Qed.

Lemma first_on_spec start target :
  0 <= target <= 6 ->
  start <= first_on start target <= start + 6 /\
  weekday (first_on start target) = target /\
  forall d, start <= d < first_on start target -> weekday d <> target.
Proof.
  intros Ht. unfold first_on, weekday.
  repeat split; try (Z.div_mod_to_equations; lia).
  intros d Hd. Z.div_mod_to_equations. lia.
Qed.

(** The first loop of the expansion stops on [first_on], or leaves the
    calendar of [date]. *)
Lemma advance_spec target fuel :
  0 <= target <= 6 ->
  forall current,
    current <= MAXORD ->
    MINORD <= current ->
    (target - weekday current) mod 7 < Z.of_nat fuel ->
    advance fuel current target
    = if first_on current target <=? MAXORD then Ok (first_on current target) else Raise.
Proof.
  intros Ht. induction fuel as [|f IH]; intros current Hmax Hmin Hoff.
  - pose proof (Z.mod_pos_bound (target - weekday current) 7). lia.
  - cbn [advance]. unfold first_on in *.
    destruct (Z.eqb_spec (weekday current) target) as [E|E].
    + rewrite E, Z.sub_diag. cbn. rewrite Z.add_0_r.
      destruct (Z.leb_spec current MAXORD); [reflexivity | lia].
    + assert (Hstep : (target - weekday (current + 1)) mod 7
                      = (target - weekday current) mod 7 - 1).
      { unfold weekday in *. Z.div_mod_to_equations. lia. }
      assert (Hpos : 1 <= (target - weekday current) mod 7).
      { unfold weekday in *. Z.div_mod_to_equations. lia. }
      unfold add_days.
      destruct (Z.leb_spec MINORD (current + 1)); [|lia].
      destruct (Z.leb_spec (current + 1) MAXORD) as [H1|H1]; cbn [andb].
      * rewrite IH by lia. rewrite Hstep.
        replace (current + 1 + ((target - weekday current) mod 7 - 1))
          with (current + (target - weekday current) mod 7) by lia.
        reflexivity.
      * destruct (Z.leb_spec (current + (target - weekday current) mod 7) MAXORD);
          [lia | reflexivity].
Qed.

Lemma add_days_some d k : MINORD <= d + k <= MAXORD -> add_days d k = Some (d + k).
Proof.
  intros H. unfold add_days.
  destruct (Z.leb_spec MINORD (d + k)), (Z.leb_spec (d + k) MAXORD); try lia. reflexivity.
Qed.

Lemma add_days_none d k : MAXORD < d + k -> add_days d k = None.
Proof.
  intros H. unfold add_days.
  destruct (Z.leb_spec (d + k) MAXORD); [lia|]. now rewrite andb_false_r.
Qed.

Lemma mem_Z_In x l : mem_Z x l = true <-> In x l.
Proof.
  induction l as [|y l IH]; cbn; [split; [discriminate | tauto]|].
  destruct (Z.eqb_spec x y) as [->|Hne]; [tauto|].
  rewrite IH. split; [tauto | intros [H|H]; [congruence | assumption]].
Qed.

Lemma parsed_week_one_off e w : parsed_week e = Some w -> one_off e = true.
Proof.
  unfold parsed_week, one_off. destruct (ev_type e); [|discriminate].
  destruct (ev_date e) as [[|a d]|]; try discriminate. reflexivity.
Qed.

Lemma scan_event_spec act found e :
  let st := scan_event (act, found) e in
  snd st = (found || one_off e)%bool /\
  forall w, In w (fst st) <-> In w act \/ parsed_week e = Some w.
Proof.
  unfold scan_event, one_off, parsed_week.
  destruct (ev_type e); cbn [fst snd].
  2:{ rewrite orb_false_r. split; [reflexivity|]. intros w. split; [tauto | intros [H|H]; [assumption | discriminate]]. }
  destruct (ev_date e) as [[|a d]|]; cbn [fst snd];
    try (rewrite orb_false_r; split; [reflexivity|]; intros w; split;
         [tauto | intros [H|H]; [assumption | discriminate]]).
  destruct (strptime_date (String a d)) as [dt|]; cbn [fst snd option_map].
  - split; [now rewrite orb_true_r|]. intros w.
    destruct (mem_Z (isoweek dt) act) eqn:E.
    + apply mem_Z_In in E. split; [tauto|]. intros [H|[= <-]]; assumption.
    + cbn [In]. split; [intros [<-|H]; [now right | now left]|].
      intros [H|[= <-]]; [now right | now left].
  - split; [now rewrite orb_true_r|]. intros w.
    split; [tauto | intros [H|H]; [assumption | discriminate]].
Qed.

(** The first loop collects the active weeks and notes whether a ONE_OFF
    session was seen, parsed or not. *)
Lemma scan_spec events :
  forall act found,
    let st := fold_left scan_event events (act, found) in
    snd st = (found || existsb one_off events)%bool /\
    forall w, In w (fst st) <-> In w act \/ active_week events w.
Proof.
  induction events as [|e l IH]; intros act found; cbn [fold_left existsb].
  - rewrite orb_false_r. split; [reflexivity|]. intros w. split; [tauto|].
    intros [H|(e & [] & _)]. assumption.
  - pose proof (scan_event_spec act found e) as He.
    destruct (scan_event (act, found) e) as [act1 found1]. cbn [fst snd] in He.
    destruct He as [Hf Ha]. specialize (IH act1 found1). cbv zeta in IH.
    destruct IH as [IHf IHa]. split.
    + rewrite IHf, Hf. now rewrite orb_assoc.
    + intros w. rewrite IHa, Ha. unfold active_week. split.
      * intros [[H|H]|(e' & Hin & H)]; [now left | right; exists e; split; [now left | assumption] |].
        right. exists e'. split; [now right | assumption].
      * intros [H|(e' & [<-|Hin] & H)]; [now left; left | now left; right |].
        right. exists e'. now split.
Qed.

(** What the walk over the semester collects, when no stride leaves the
    calendar of [date]. *)
Lemma holiday_loop_spec last active fuel :
  last + 7 <= MAXORD ->
  forall current acc,
    MINORD <= current ->
    (stride_count current last < fuel)%nat ->
    holiday_loop fuel current last active acc
    = Ok (acc ++ filter (fun wk => negb (mem_Z wk active))
                   (map isoweek (strides current last)))%list.
Proof.
  intros Hlast. induction fuel as [|f IH]; intros current acc Hmin Hfuel; [lia|].
  cbn [holiday_loop]. destruct (Z.leb_spec current last) as [Hle|Hgt].
  2:{ rewrite strides_nil by lia. cbn. now rewrite List.app_nil_r. }
  rewrite strides_cons by assumption. rewrite stride_count_cons in Hfuel by assumption.
  rewrite add_days_some by (unfold MINORD in *; lia).
  rewrite IH by (unfold MINORD in *; lia). cbn [map filter].
  destruct (mem_Z (isoweek current) active); cbn [negb]; [reflexivity|].
  now rewrite <- List.app_assoc.
Qed.

(** The fuel of the walk is enough, whether or not a stride leaves the
    calendar. *)
Lemma holiday_loop_fuel last active fuel :
  forall current acc,
    (stride_count current last < fuel)%nat ->
    holiday_loop fuel current last active acc <> NoFuel.
Proof.
  induction fuel as [|f IH]; intros current acc Hfuel; [lia|].
  cbn [holiday_loop]. destruct (Z.leb_spec current last) as [Hle|Hgt]; [|discriminate].
  rewrite stride_count_cons in Hfuel by assumption.
  unfold add_days. destruct (_ && _)%bool; [|discriminate].
  apply IH. lia.
Qed.

Lemma In_insert_sorted x l y : In y (insert_sorted x l) <-> y = x \/ In y l.
Proof.
  induction l as [|a l IH]; cbn; [intuition|].
  destruct (x <=? a); cbn; [intuition|]. rewrite IH. intuition.
Qed.

Lemma In_sorted l y : In y (sorted l) <-> In y l.
Proof.
  induction l as [|a l IH]; cbn; [tauto|].
  rewrite In_insert_sorted, IH. intuition.
Qed.

Lemma insert_sorted_strict x l :
  StronglySorted Z.lt l -> ~ In x l -> StronglySorted Z.lt (insert_sorted x l).
Proof.
  induction l as [|a l IH]; cbn; intros Hs Hn.
  - repeat constructor.
  - inversion Hs as [|? ? Hs' Ha]; subst.
    destruct (Z.leb_spec x a) as [Hle|Hgt].
    + constructor; [assumption|]. constructor; [lia|].
      rewrite Forall_forall in *. intros y Hy. specialize (Ha y Hy). lia.
    + constructor; [apply IH; [assumption | tauto]|].
      rewrite Forall_forall in *. intros y Hy. apply In_insert_sorted in Hy.
      destruct Hy as [->|Hy]; [lia | now apply Ha].
Qed.

(** [sorted(list(set(l)))] is strictly increasing and has the members of [l]. *)
Lemma sorted_list_set l :
  StronglySorted Z.lt (sorted (list_set l)) /\
  forall y, In y (sorted (list_set l)) <-> In y l.
Proof.
  split.
  - unfold list_set. pose proof (NoDup_nodup Z.eq_dec l) as H.
    induction H as [|a t Ha Ht IH]; cbn; [constructor|].
    apply insert_sorted_strict; [assumption|]. now rewrite In_sorted.
  - intros y. rewrite In_sorted. unfold list_set. apply nodup_In.
Qed.

(** A strictly increasing list is determined by its members. *)
Lemma strictly_sorted_unique (l1 l2 : list Z) :
  StronglySorted Z.lt l1 -> StronglySorted Z.lt l2 ->
  (forall y, In y l1 <-> In y l2) -> l1 = l2.
Proof.
  revert l2. induction l1 as [|a l1 IH]; intros l2 H1 H2 Hiff.
  - destruct l2 as [|b l2]; [reflexivity|]. exfalso. apply (Hiff b). now left.
  - destruct l2 as [|b l2]; [exfalso; apply (Hiff a); now left|].
    inversion H1 as [|? ? H1' Ha]; inversion H2 as [|? ? H2' Hb]; subst.
    rewrite Forall_forall in Ha, Hb.
    assert (a = b).
    { destruct (proj1 (Hiff a) (or_introl eq_refl)) as [->|Hina]; [reflexivity|].
      destruct (proj2 (Hiff b) (or_introl eq_refl)) as [->|Hinb]; [reflexivity|].
      specialize (Ha _ Hinb). specialize (Hb _ Hina). lia. }
    subst b. f_equal. apply IH; try assumption.
    intros y. split; intros Hy.
    + destruct (proj1 (Hiff y) (or_intror Hy)) as [->|]; [|assumption].
      specialize (Ha _ Hy). lia.
    + destruct (proj2 (Hiff y) (or_intror Hy)) as [->|]; [|assumption].
      specialize (Hb _ Hy). lia.
Qed.

Section WeeklyLoop.
Variable ics_accepts : datetime -> datetime -> bool.

(** What the second loop adds, for any fuel that covers the strides. *)
Lemma weekly_spec event last holiday_weeks fuel :
  last <= MAXORD ->
  forall current c,
    MINORD <= current ->
    (stride_count current last < fuel)%nat ->
    weekly ics_accepts fuel event current last holiday_weeks c
    = (c ++ emitted ics_accepts event holiday_weeks (strides current last))%list.
Proof.
  intros Hlast. induction fuel as [|f IH]; intros current c Hmin Hfuel; [lia|].
  cbn [weekly]. destruct (Z.leb_spec current last) as [Hle|Hgt].
  2:{ rewrite strides_nil by lia. cbn. now rewrite List.app_nil_r. }
  rewrite strides_cons by assumption. rewrite stride_count_cons in Hfuel by assumption.
  cbn [emitted].
  assert (Hnext : forall c', 
             match add_days current 7 with
             | Some next => weekly ics_accepts f event next last holiday_weeks c'
             | None => c'
             end = (c' ++ emitted ics_accepts event holiday_weeks (strides (current + 7) last))%list).
  { intros c'. destruct (Z_le_gt_dec (current + 7) MAXORD) as [H7|H7].
    - rewrite add_days_some by (unfold MINORD in *; lia). apply IH; [unfold MINORD in *; lia | lia].
    - rewrite add_days_none by lia. rewrite strides_nil by lia. cbn.
      now rewrite List.app_nil_r. }
  destruct (mem_Z (isoweek current) holiday_weeks); [apply Hnext|].
  rewrite !strptime_strftime by (unfold valid; lia).
  unfold occurrence_on.
  destruct (1000 <=? year_of current); [|now rewrite List.app_nil_r].
  destruct (parse_time (ev_start_time event)) as [[h1 m1]|];
    [|now rewrite List.app_nil_r].
  destruct (parse_time (ev_end_time event)) as [[h2 m2]|];
    [|now rewrite List.app_nil_r].
  cbv zeta. destruct (ics_accepts _ _); [|now rewrite List.app_nil_r].
  rewrite Hnext. now rewrite <- List.app_assoc.
Qed.

Lemma weekday_map_range w t : weekday_map w = Some t -> 0 <= t <= 6.
Proof.
  unfold weekday_map.
  repeat (destruct (String.eqb w _); [intros [= <-]; lia|]). discriminate.
Qed.

Lemma add_recurring_spec event semester_start semester_end holiday_weeks c :
  valid semester_start -> valid semester_end ->
  add_recurring ics_accepts event semester_start semester_end holiday_weeks c
  = (c ++ emitted ics_accepts event holiday_weeks
            (days_of event semester_start semester_end))%list.
Proof.
  unfold valid. intros Hs He. unfold add_recurring, days_of.
  destruct (weekday_map (ev_weekday event)) as [target|] eqn:Ew;
    [|cbn; now rewrite List.app_nil_r].
  pose proof (weekday_map_range _ _ Ew) as Ht.
  destruct (first_on_spec semester_start target Ht) as (Hf & _ & _).
  rewrite (advance_spec target 7 Ht) by
    (try lia; pose proof (Z.mod_pos_bound (target - weekday semester_start) 7); lia).
  destruct (Z.leb_spec (first_on semester_start target) MAXORD) as [H|H].
  - apply weekly_spec; [lia | lia |].
    unfold walk_fuel. pose proof (stride_count_le (first_on semester_start target) semester_end).
    lia.
  - rewrite strides_nil by lia. cbn. now rewrite List.app_nil_r.
Qed.

(** Without any assumption on the range: a record adds to the calendar and
    never looks at what it holds. *)
Lemma weekly_app event last holiday_weeks fuel :
  forall current c,
    weekly ics_accepts fuel event current last holiday_weeks c
    = (c ++ weekly ics_accepts fuel event current last holiday_weeks [])%list.
Proof.
  induction fuel as [|f IH]; intros current c; cbn [weekly];
    [now rewrite List.app_nil_r|].
  destruct (current <=? last); [|now rewrite List.app_nil_r].
  destruct (mem_Z _ _).
  - destruct (add_days current 7); [apply IH | now rewrite List.app_nil_r].
  - match goal with |- context [strptime_datetime ?x] =>
      destruct (strptime_datetime x) as [b|] end; [|now rewrite List.app_nil_r].
    match goal with |- context [strptime_datetime ?x] =>
      destruct (strptime_datetime x) as [e|] end; [|now rewrite List.app_nil_r].
    destruct (ics_accepts b e); [|now rewrite List.app_nil_r].
    destruct (add_days current 7); [|reflexivity].
    rewrite IH. rewrite (IH _ ([] ++ _)%list). now rewrite <- !List.app_assoc.
Qed.

Lemma add_event_app semester_start semester_end holiday_weeks c event :
  add_event ics_accepts semester_start semester_end holiday_weeks c event
  = (c ++ add_event ics_accepts semester_start semester_end holiday_weeks [] event)%list.
Proof.
  unfold add_event, add_single, add_recurring. destruct (ev_type event).
  - match goal with |- context [strptime_datetime ?x] =>
      destruct (strptime_datetime x) end; [|now rewrite List.app_nil_r].
    match goal with |- context [strptime_datetime ?x] =>
      destruct (strptime_datetime x) end; [|now rewrite List.app_nil_r].
    destruct (ics_accepts _ _); [reflexivity | now rewrite List.app_nil_r].
  - destruct (weekday_map _); [|now rewrite List.app_nil_r].
    destruct (advance _ _ _); try now rewrite List.app_nil_r.
    apply weekly_app.
Qed.

(** The calendar of a batch is the calendars of its records, one after the
    other. *)
Lemma generate_ics_flat_map selected_events semester_start semester_end holiday_weeks :
  generate_ics ics_accepts selected_events semester_start semester_end holiday_weeks
  = flat_map (fun event =>
                generate_ics ics_accepts [event] semester_start semester_end holiday_weeks)
             selected_events.
Proof.
  unfold generate_ics.
  enough (H : forall c,
             fold_left (add_event ics_accepts semester_start semester_end holiday_weeks)
               selected_events c
             = (c ++ flat_map (fun event =>
                   fold_left (add_event ics_accepts semester_start semester_end holiday_weeks)
                     [event] []) selected_events)%list) by apply (H []).
  induction selected_events as [|e l IH]; intros c; cbn [fold_left flat_map].
  - now rewrite List.app_nil_r.
  - rewrite IH, add_event_app. now rewrite <- List.app_assoc.
Qed.

End WeeklyLoop.

End LoopFacts.

Module DedupFacts.

Lemma mem_str_In x l : mem_str x l = true <-> In x l.
Proof.
  induction l as [|y l IH]; cbn; [split; [discriminate | tauto]|].
  destruct (String.eqb_spec x y) as [->|Hne]; [tauto|].
  rewrite IH. split; [tauto | intros [H|H]; [congruence | assumption]].
Qed.

Lemma dedup_loop_keeps events :
  forall seen unique e, In e unique -> In e (dedup_loop events seen unique).
Proof.
  induction events as [|y l IH]; intros seen unique e Hu; cbn; [assumption|].
  destruct (mem_str (sig y) seen); apply IH; [assumption|].
  apply in_or_app. now left.
Qed.

(** The loop keeps the first record of every key, in the order of arrival. *)
Lemma dedup_loop_spec events :
  forall seen unique,
    (forall s, In s seen <-> In s (map sig unique)) ->
    NoDup (map sig unique) ->
    let out := dedup_loop events seen unique in
    NoDup (map sig out) /\
    (forall e, In e out -> In e unique \/ In e events) /\
    (forall e, In e events -> exists e', In e' out /\ sig e' = sig e).
Proof.
  induction events as [|e l IH]; intros seen unique Hseen Hnd; cbn [dedup_loop].
  - repeat split; [assumption | tauto | intros e []].
  - destruct (mem_str (sig e) seen) eqn:E.
    + destruct (IH seen unique Hseen Hnd) as (H1 & H2 & H3). repeat split.
      * assumption.
      * intros x Hx. destruct (H2 x Hx); [now left | right; now right].
      * intros x [<-|Hx]; [|now apply H3].
        apply mem_str_In, Hseen, in_map_iff in E. destruct E as (e' & He' & Hin).
        exists e'. split; [now apply dedup_loop_keeps | assumption].
    + assert (Hn : ~ In (sig e) (map sig unique)).
      { intros Hin. apply Hseen, mem_str_In in Hin. congruence. }
      destruct (IH (sig e :: seen) (unique ++ [e])%list) as (H1 & H2 & H3).
      * intros s. rewrite map_app, in_app_iff. cbn. rewrite Hseen. tauto.
      * rewrite map_app. cbn. apply NoDup_app; [assumption | repeat constructor; tauto |].
        intros x Hx [<-|[]]. contradiction.
      * repeat split.
        -- assumption.
        -- intros x Hx. destruct (H2 x Hx) as [Hu|Hl]; [|right; now right].
           apply in_app_iff in Hu. destruct Hu as [Hu|[<-|[]]]; [now left | right; now left].
        -- intros x [<-|Hx]; [|now apply H3].
           exists e. split; [|reflexivity]. apply dedup_loop_keeps.
           apply in_or_app. right. now left.
Qed.

Lemma NoDup_map_eq {A B} (f : A -> B) (l : list A) (x y : A) :
  NoDup (map f l) -> In x l -> In y l -> f x = f y -> x = y.
Proof.
  induction l as [|a l IH]; cbn; intros Hnd Hx Hy Hf; [contradiction|].
  inversion Hnd as [|? ? Hna Hnd']; subst.
  destruct Hx as [->|Hx], Hy as [->|Hy]; try reflexivity.
  - exfalso. apply Hna. rewrite Hf. now apply in_map.
  - exfalso. apply Hna. rewrite <- Hf. now apply in_map.
  - now apply IH.
Qed.

End DedupFacts.

Module LocationFacts.

Lemma location_in_spec text default :
  (located text (location_in text default))
  \/ (no_location text /\ location_in text default = default).
Proof.
  unfold location_in, located, no_location.
  pose proof (ReFacts.search_spec loc_pattern text) as H.
  destruct (Re.search loc_pattern text) as [m|]; [left; now exists m | right; now split].
Qed.

Lemma process_line_location course_id final_title default line e :
  In e (process_line course_id final_title default line) ->
  Re.search time_pattern line <> None /\
  ev_location e = location_in line default.
Proof.
  unfold process_line. destruct (Re.search time_pattern line) as [tm|]; [|intros []].
  destruct (Re.group tm 1); [|intros []].
  destruct (Re.group tm 3); [|intros []].
  destruct (Re.group tm 4); [|intros []].
  intros [<-|[]]. split; [discriminate | reflexivity].
Qed.

End LocationFacts.

Module HolidayFacts.
Import LoopFacts.

Lemma existsb_one_off events w : active_week events w -> existsb one_off events = true.
Proof.
  intros (e & Hin & Hw). apply existsb_exists. exists e. split; [assumption|].
  now apply parsed_week_one_off in Hw.
Qed.

Lemma detect_no_one_off events semester_start semester_end :
  existsb one_off events = false ->
  detect_holiday_weeks events semester_start semester_end = Ok [].
Proof.
  intros H. unfold detect_holiday_weeks.
  pose proof (scan_spec events [] false) as Hs. cbv zeta in Hs.
  destruct (fold_left scan_event events ([], false)) as [act found].
  cbn [fst snd] in Hs. destruct Hs as [Hf _]. rewrite H in Hf. now subst found.
Qed.

(** With a ONE_OFF session in the input the walk is taken; its result is
    the set of the stride weeks that are not active, in increasing order. *)
Lemma detect_walk events semester_start semester_end :
  existsb one_off events = true ->
  Cal.MINORD <= semester_start -> semester_end + 7 <= Cal.MAXORD ->
  exists hw,
    detect_holiday_weeks events semester_start semester_end = Ok hw /\
    StronglySorted Z.lt hw /\
    forall w, In w hw <->
      (exists d, In d (strides semester_start semester_end) /\ Cal.isoweek d = w)
      /\ ~ active_week events w.
Proof.
  intros H Hs He. unfold detect_holiday_weeks.
  pose proof (scan_spec events [] false) as Hscan. cbv zeta in Hscan.
  destruct (fold_left scan_event events ([], false)) as [act found].
  cbn [fst snd] in Hscan. destruct Hscan as [Hf Ha]. rewrite H in Hf. subst found.
  cbn [negb orb].
  rewrite (holiday_loop_spec semester_end act) by
    (try assumption; unfold walk_fuel;
     pose proof (stride_count_le semester_start semester_end); lia).
  cbn [app]. eexists. split; [reflexivity|].
  destruct (sorted_list_set
              (filter (fun wk => negb (mem_Z wk act))
                 (map Cal.isoweek (strides semester_start semester_end)))) as [Hsort Hin].
  split; [exact Hsort|]. intros w. rewrite Hin, filter_In, in_map_iff.
  rewrite negb_true_iff, <- not_true_iff_false, mem_Z_In, Ha.
  split.
  - intros [(d & Hd & Hstride) Hn]. split; [now exists d|]. tauto.
  - intros [(d & Hstride & Hd) Hn]. split; [now exists d|]. intros [[]|Hact]. contradiction.
Qed.

End HolidayFacts.

Module ExportFacts.
Import Cal CalFacts LoopFacts.

Section WithLibrary.
Variable ics_accepts : datetime -> datetime -> bool.

Lemma occurrence_on_date event d o :
  occurrence_on ics_accepts event d = Some o ->
  dt_date (o_begin o) = d /\ dt_date (o_end o) = d.
Proof.
  unfold occurrence_on. destruct (1000 <=? year_of d); [|discriminate].
  destruct (parse_time (ev_start_time event)) as [[h1 m1]|]; [|discriminate].
  destruct (parse_time (ev_end_time event)) as [[h2 m2]|]; [|discriminate].
  cbv zeta. destruct (ics_accepts _ _); [|discriminate].
  intros [= <-]. now split.
Qed.

(** Every emitted occurrence is the occurrence of a day outside the holiday
    weeks. *)
Lemma In_emitted event holiday_weeks days o :
  In o (emitted ics_accepts event holiday_weeks days) ->
  exists d, In d days /\ mem_Z (isoweek d) holiday_weeks = false
            /\ occurrence_on ics_accepts event d = Some o.
Proof.
  induction days as [|d rest IH]; cbn [emitted]; [intros []|].
  destruct (mem_Z (isoweek d) holiday_weeks) eqn:E.
  - intros H. destruct (IH H) as (d' & Hd' & H'). exists d'. split; [now right | exact H'].
  - destruct (occurrence_on ics_accepts event d) as [o'|] eqn:Eo; [|intros []].
    intros [<-|H].
    + exists d. repeat split; [now left | assumption | assumption].
    + destruct (IH H) as (d' & Hd' & H'). exists d'. split; [now right | exact H'].
Qed.

(** When every day gives an occurrence, nothing but the holiday weeks is
    left out. *)
Lemma emitted_all event holiday_weeks days (f : Z -> occurrence) :
  (forall d, In d days -> occurrence_on ics_accepts event d = Some (f d)) ->
  emitted ics_accepts event holiday_weeks days
  = map f (filter (fun d => negb (mem_Z (isoweek d) holiday_weeks)) days).
Proof.
  induction days as [|d rest IH]; intros H; cbn [emitted filter map]; [reflexivity|].
  destruct (mem_Z (isoweek d) holiday_weeks); cbn [negb].
  - apply IH. intros d' Hd'. apply H. now right.
  - rewrite (H d (or_introl eq_refl)). cbn [map]. f_equal.
    apply IH. intros d' Hd'. apply H. now right.
Qed.

(** When the occurrence of a day can be built exactly on the days that [ok]
    takes, the days outside the holiday weeks are emitted up to the first
    one that [ok] refuses. *)
Lemma emitted_until event holiday_weeks days (ok : Z -> bool) (f : Z -> occurrence) :
  (forall d, In d days ->
     occurrence_on ics_accepts event d = if ok d then Some (f d) else None) ->
  emitted ics_accepts event holiday_weeks days
  = map f (take_while ok
             (filter (fun d => negb (mem_Z (isoweek d) holiday_weeks)) days)).
Proof.
  induction days as [|d rest IH]; intros H; cbn [emitted filter]; [reflexivity|].
  destruct (mem_Z (isoweek d) holiday_weeks); cbn [negb].
  - apply IH. intros d' Hd'. apply H. now right.
  - rewrite (H d (or_introl eq_refl)). cbn [take_while].
    destruct (ok d); [|reflexivity]. cbn [map]. f_equal.
    apply IH. intros d' Hd'. apply H. now right.
Qed.

(** When no day gives an occurrence, nothing is emitted. *)
Lemma emitted_none event holiday_weeks days :
  (forall d, occurrence_on ics_accepts event d = None) ->
  emitted ics_accepts event holiday_weeks days = [].
Proof.
  intros H. induction days as [|d rest IH]; cbn [emitted]; [reflexivity|].
  destruct (mem_Z (isoweek d) holiday_weeks); [exact IH | now rewrite H].
Qed.

Lemma generate_ics_recurring event semester_start semester_end holiday_weeks :
  ev_type event = recurring ->
  valid semester_start -> valid semester_end ->
  generate_ics ics_accepts [event] semester_start semester_end holiday_weeks
  = emitted ics_accepts event holiday_weeks (days_of event semester_start semester_end).
Proof.
  intros Ht Hs He. unfold generate_ics. cbn [fold_left]. unfold add_event. rewrite Ht.
  now rewrite add_recurring_spec.
Qed.

Lemma generate_ics_single event semester_start semester_end holiday_weeks :
  ev_type event = single ->
  generate_ics ics_accepts [event] semester_start semester_end holiday_weeks
  = add_single ics_accepts event [].
Proof. intros Ht. unfold generate_ics. cbn [fold_left]. unfold add_event. now rewrite Ht. Qed.

Lemma In_days_of event semester_start semester_end target d :
  weekday_map (ev_weekday event) = Some target ->
  In d (days_of event semester_start semester_end) ->
  weekday d = target /\ semester_start <= d <= semester_end /\
  exists k, 0 <= k /\ d = first_on semester_start target + 7 * k.
Proof.
  intros Hw. unfold days_of. rewrite Hw. intros H.
  apply In_strides in H. destruct H as (k & Hk & -> & Hle).
  pose proof (weekday_map_range _ _ Hw) as Ht.
  destruct (first_on_spec semester_start target Ht) as (Hf & Hwd & _).
  repeat split; try lia.
  - assert (E : weekday (first_on semester_start target + 7 * k)
               = weekday (first_on semester_start target)); [|now rewrite E].
    unfold weekday.
    replace (first_on semester_start target + 7 * k + 6)
      with (first_on semester_start target + 6 + k * 7) by lia.
    apply Z.mod_add. lia.
  - exists k. now split.
Qed.

End WithLibrary.

End ExportFacts.

Module NormalizeFacts.
Import Cal CalFacts.






End NormalizeFacts.

(** * Facts for the further properties *)

(** ** The matcher is sound for the declarative matches *)

Module SemFacts.
Import Re ReFacts ReSem.

Section Sound.
Context {A : Type}.
Variable w : nat.

Lemma star_loop_sound (r : regex) (k : @cont A) x :
  (forall s cs j, run w r s cs j = Some x -> lands w r j s cs x) ->
  forall fuel s cs,
    star_loop (run w r) k fuel s cs = Some x -> lands w (Star r) k s cs x.
Proof.
  intros Hr fuel. induction fuel as [|f IH]; intros s cs; simpl.
  - intros H. exists s, cs. split; [constructor | exact H].
  - destruct (run w r s cs _) as [y|] eqn:E.
    + intros [= ->]. apply Hr in E. destruct E as (s1 & c1 & Hd & E).
      destruct (String.length s1 <? String.length s)%nat; [|discriminate].
      apply IH in E. destruct E as (s2 & c2 & Hd2 & E).
      exists s2, c2. split; [eapply D_star_cons; eassumption | exact E].
    + intros H. exists s, cs. split; [constructor | exact H].
Qed.

(** Every result of the matcher is the result of its continuation after a
    match of the pattern. *)
Lemma run_sound (r : regex) :
  forall s cs (k : @cont A) x, run w r s cs k = Some x -> lands w r k s cs x.
Proof.
  induction r as [| |p|r1 IH1 r2 IH2|r1 IH1 r2 IH2|r1 IH1|r1 IH1|r1 IH1|n r1 IH1];
    intros s cs k x; simpl.
  - intros H. exists s, cs. split; [constructor | exact H].
  - destruct (Nat.eqb_spec (String.length s) w); [|discriminate].
    intros H. exists s, cs. split; [now constructor | exact H].
  - destruct s as [|a s]; [discriminate|]. destruct (p a) eqn:Ep; [|discriminate].
    intros H. exists s, cs. split; [now constructor | exact H].
  - intros H. apply IH1 in H. destruct H as (s1 & c1 & Hd1 & H).
    apply IH2 in H. destruct H as (s2 & c2 & Hd2 & H).
    exists s2, c2. split; [eapply D_seq; eassumption | exact H].
  - destruct (run w r1 s cs k) as [y|] eqn:E.
    + intros [= ->]. apply IH1 in E. destruct E as (s1 & c1 & Hd & E).
      exists s1, c1. split; [now apply D_alt_l | exact E].
    + intros H. apply IH2 in H. destruct H as (s1 & c1 & Hd & E').
      exists s1, c1. split; [now apply D_alt_r | exact E'].
  - destruct (run w r1 s cs k) as [y|] eqn:E.
    + intros [= ->]. apply IH1 in E. destruct E as (s1 & c1 & Hd & E).
      exists s1, c1. split; [now apply D_opt_some | exact E].
    + intros H. exists s, cs. split; [apply D_opt_none | exact H].
  - apply star_loop_sound. intros s0 c0 j. apply IH1.
  - intros H. apply IH1 in H. destruct H as (s1 & c1 & Hd1 & H).
    apply (star_loop_sound r1 k x (fun s0 c0 j => IH1 s0 c0 j x)) in H. destruct H as (s2 & c2 & Hd2 & H).
    exists s2, c2. split; [eapply D_plus; eassumption | exact H].
  - intros H. apply IH1 in H. destruct H as (s1 & c1 & Hd & H).
    exists s1, ((n, consumed s s1) :: c1). split; [now constructor | exact H].
Qed.

End Sound.

(** What a match consumes is a prefix of the subject. *)
Lemma derives_suffix w r s cs s' cs' :
  derives w r s cs s' cs' -> exists p, s = p ++ s'.
Proof.
  induction 1;
    repeat match goal with
           | H : exists _, _ |- _ => destruct H as [? ->]
           end;
    try (now exists "");
    try (now eexists (String _ ""));
    try (eexists; reflexivity);
    eexists; symmetry; apply StrFacts.app_assoc.
Qed.

(** A pattern without groups leaves the captures as they are. *)
Lemma derives_no_groups w r s cs s' cs' :
  derives w r s cs s' cs' -> groups r = [] -> cs' = cs.
Proof.
  induction 1; cbn [groups]; intros Hg; try discriminate;
    try (apply app_eq_nil in Hg as [H1 H2]); try reflexivity; auto;
    rewrite IHderives2, IHderives1 by assumption; reflexivity.
Qed.

(** A match found by [search] or [match] is a derivation from its offset. *)
Lemma match_at_sound r whole s m :
  match_at r whole s = Some m ->
  derives whole r s [] (m_rest m) (m_caps m) /\ s = m_text m ++ m_rest m.
Proof.
  intros H. split; [|now apply match_at_text in H].
  unfold match_at in H. apply run_sound in H. destruct H as (s' & cs' & Hd & [= <-]).
  exact Hd.
Qed.

Lemma search_sound r text m :
  search r text = Some m ->
  exists pre, text = pre ++ m_text m ++ m_rest m /\
    derives (String.length text) r (m_text m ++ m_rest m) [] (m_rest m) (m_caps m).
Proof.
  intros H. pose proof (search_spec r text) as Hs. rewrite H in Hs.
  destruct Hs as (pre & s' & -> & Hm & _).
  apply match_at_sound in Hm. destruct Hm as [Hd E].
  exists pre. rewrite <- E. now split.
Qed.

End SemFacts.

(** ** What the patterns of a block capture *)

Module ShapeFacts.
Import Re ReFacts ReSem SemFacts.

Ltac inv H := inversion H; subst; clear H.

Ltac inv_derives :=
  repeat match goal with
         | H : derives _ (Seq _ _) _ _ _ _ |- _ => inv H
         | H : derives _ (Chr _) _ _ _ _ |- _ => inv H
         | H : derives _ (Alt _ _) _ _ _ _ |- _ => inv H
         | H : derives _ (Opt _) _ _ _ _ |- _ => inv H
         | H : derives _ (Grp _ _) _ _ _ _ |- _ => inv H
         | H : derives _ Eps _ _ _ _ |- _ => inv H
         | H : derives _ Bol _ _ _ _ |- _ => inv H
         end.

Lemma digit_not_dot a : Str.is_digit a = true -> Ascii.eqb a "." = false.
Proof. destruct a as [[] [] [] [] [] [] [] []]; try reflexivity; discriminate. Qed.

Lemma eqb_sym_true a b : Ascii.eqb a b = true -> b = a.
Proof. intros H. apply Ascii.eqb_eq in H. now subst. Qed.

(** The text of a time token, with its separator made a colon. *)
Lemma time_token_shape w s cs s' cs' :
  derives w time_token s cs s' cs' ->
  cs' = cs /\ exists t, s = t ++ s' /\ is_clock (Str.replace "." ":" t) = true.
Proof.
  unfold time_token, digit. intros H. inv_derives. split; [reflexivity|].
  eexists (String _ (String _ (String _ (String _ (String _ ""))))).
  split; [reflexivity|].
  cbn [Str.replace is_clock].
  repeat match goal with
         | H : Str.is_digit ?a = true |- _ =>
             rewrite (digit_not_dot a H), H; clear H
         end.
  match goal with
  | H : _ = true |- _ =>
      cbv beta in H; apply orb_true_iff in H; destruct H as [H|H];
      apply Ascii.eqb_eq in H; subst; reflexivity
  end.
Qed.

Lemma weekday_shape w s cs s' cs' :
  derives w (Alt (word "Mo") (Alt (word "Di") (Alt (word "Mi")
            (Alt (word "Do") (Alt (word "Fr") (Alt (word "Sa")
               (word "So"))))))) s cs s' cs' ->
  cs' = cs /\ exists d, s = d ++ s' /\ In d weekdays.
Proof.
  cbn [word]. unfold lit. intros H. inv_derives;
    repeat match goal with
           | H : Ascii.eqb _ _ = true |- _ => apply eqb_sym_true in H; subst
           end;
    (split; [reflexivity|]);
    eexists (String _ (String _ "")); (split; [reflexivity|]);
    unfold weekdays; simpl; tauto.
Qed.

Ltac digits_known :=
  repeat match goal with
         | H : Str.is_digit ?a = true |- _ =>
             let E := fresh "E" in
             pose proof (digit_not_dot a H) as E; revert H E
         end;
  intros.

Ltac use_digits :=
  repeat (cbn;
          repeat match goal with
                 | H : Ascii.eqb ?a "." = false |- context [Ascii.eqb ?a "."] =>
                     rewrite H
                 | H : Str.is_digit ?a = true |- context [Str.is_digit ?a] =>
                     rewrite H
                 end).

Lemma date_token_shape w s cs s' cs' :
  derives w date_token s cs s' cs' ->
  cs' = cs /\
  exists a d, s = String a d ++ s' /\
              is_full_date (normalize_year (String a d)) = true.
Proof.
  unfold date_token, digit, lit. intros H. inv_derives;
    repeat match goal with
           | H : Ascii.eqb _ _ = true |- _ => apply eqb_sym_true in H; subst
           end;
    (split; [reflexivity|]); digits_known.
  - eexists _, (String _ (String _ (String _ (String _ (String _ (String _
                 (String _ (String _ (String _ ""))))))))).
    split; [reflexivity|]. unfold normalize_year. now use_digits.
  - eexists _, (String _ (String _ (String _ (String _ (String _ (String _
                 (String _ (String _ "")))))))).
    split; [reflexivity|]. unfold normalize_year. now use_digits.
  - eexists _, (String _ (String _ (String _ (String _ (String _ (String _
                 (String _ ""))))))).
    split; [reflexivity|]. unfold normalize_year. now use_digits.
Qed.

Ltac no_caps :=
  repeat match goal with
         | H : derives _ (Plus _) _ _ _ _ |- _ =>
             apply derives_no_groups in H; [subst | reflexivity]
         | H : derives _ (Star _) _ _ _ _ |- _ =>
             apply derives_no_groups in H; [subst | reflexivity]
         end.

(** The groups of a match of the schedule pattern. *)
Lemma time_pattern_shape w s s' cs' :
  derives w time_pattern s [] s' cs' ->
  exists weekday start_time end_time,
    lookup 1 cs' = Some weekday /\ In weekday weekdays /\
    lookup 3 cs' = Some start_time /\
    is_clock (Str.replace "." ":" start_time) = true /\
    lookup 4 cs' = Some end_time /\
    is_clock (Str.replace "." ":" end_time) = true /\
    (lookup 2 cs' = None \/
     exists a d, lookup 2 cs' = Some (String a d) /\
                 is_full_date (normalize_year (String a d)) = true).
Proof.
  pose proof (weekday_shape w) as HW. pose proof (date_token_shape w) as HD.
  pose proof (time_token_shape w) as HT.
  unfold time_pattern.
  set (W := Alt (word "Mo") _) in *. set (D := date_token) in *.
  set (T := time_token) in *. clearbody W D T.
  unfold lit. intros H. inv_derives; no_caps;
    repeat match goal with
           | H : derives _ W _ _ _ _ |- _ =>
               apply HW in H; destruct H as (-> & ? & -> & ?)
           | H : derives _ D _ _ _ _ |- _ =>
               apply HD in H; destruct H as (-> & ? & ? & -> & ?)
           | H : derives _ T _ _ _ _ |- _ =>
               apply HT in H; destruct H as (-> & ? & -> & ?)
           end;
    rewrite ?consumed_app; cbn [lookup Nat.eqb];
    do 3 eexists; repeat (split; [first [reflexivity | eassumption]|]);
    first [now left | right; do 2 eexists; split; [reflexivity | assumption]].
Qed.

Lemma digits_run w s cs s' cs' :
  derives w (Star digit) s cs s' cs' ->
  cs' = cs /\ exists p, s = p ++ s' /\ all_chars Str.is_digit p = true.
Proof.
  intros H. remember (Star digit) as r eqn:Er.
  induction H; try discriminate; injection Er as ->.
  - split; [reflexivity|]. now exists "".
  - destruct (IHderives2 eq_refl) as (-> & p & -> & Hp).
    unfold digit in H. inv H. split; [reflexivity|].
    eexists (String _ p). split; [reflexivity|]. simpl.
    match goal with E : Str.is_digit _ = true |- _ => now rewrite E, Hp end.
Qed.

Lemma digits_run1 w s cs s' cs' :
  derives w (Plus digit) s cs s' cs' ->
  cs' = cs /\
  exists a p, s = String a p ++ s' /\ all_chars Str.is_digit (String a p) = true.
Proof.
  intros H. inv H.
  match goal with
  | H : derives _ (Star _) _ _ _ _ |- _ =>
      apply digits_run in H; destruct H as (-> & p & -> & Hp)
  end.
  match goal with H : derives _ digit _ _ _ _ |- _ => unfold digit in H; inv H end.
  split; [reflexivity|].
  eexists _, p. split; [reflexivity|]. simpl.
  match goal with E : Str.is_digit _ = true |- _ => now rewrite E, Hp end.
Qed.

Lemma split_digits d r :
  all_chars Str.is_digit d = true ->
  Str.split "." (d ++ String "." r) = d :: Str.split "." r.
Proof.
  induction d as [|a d IH]; simpl; [reflexivity|].
  intros H. apply andb_true_iff in H as [Ha Hd].
  rewrite (digit_not_dot a Ha), (IH Hd). reflexivity.
Qed.

Lemma split_digits_only d :
  all_chars Str.is_digit d = true -> Str.split "." d = [d].
Proof.
  induction d as [|a d IH]; simpl; [reflexivity|].
  intros H. apply andb_true_iff in H as [Ha Hd].
  rewrite (digit_not_dot a Ha), (IH Hd). reflexivity.
Qed.

(** The dotted components after the first one. *)
Lemma components_run w s cs s' cs' :
  derives w (Star (Grp 2 (Seq (lit ".") (Plus digit)))) s cs s' cs' ->
  exists p, s = p ++ s' /\
    forall a d, all_chars Str.is_digit (String a d) = true ->
      forallb component (Str.split "." (String a d ++ p)) = true /\
      (p <> "" -> (2 <= List.length (Str.split "." (String a d ++ p)))%nat).
Proof.
  intros H. remember (Star (Grp 2 (Seq (lit ".") (Plus digit)))) as r eqn:Er.
  induction H; try discriminate; injection Er as ->.
  - exists "". split; [reflexivity|].
    intros a d Hd. rewrite StrFacts.app_empty_r, (split_digits_only _ Hd).
    split; [|congruence]. cbn [forallb]. rewrite andb_true_r.
    apply andb_true_iff; split; [reflexivity | exact Hd].
  - destruct (IHderives2 eq_refl) as (p & -> & Hp).
    unfold lit in H. inv_derives.
    match goal with E : Ascii.eqb _ _ = true |- _ => apply eqb_sym_true in E; subst end.
    match goal with
    | H : derives _ (Plus digit) _ _ _ _ |- _ =>
        apply digits_run1 in H; destruct H as (-> & b & q & -> & Hq)
    end.
    exists (String "." (String b q ++ p)). split.
    + simpl. now rewrite StrFacts.app_assoc.
    + intros a d Hd. rewrite (split_digits _ _ Hd).
      destruct (Hp b q Hq) as [Hall _]. cbn [forallb List.length].
      rewrite Hall.
      assert (component (String a d) = true) as ->
        by (apply andb_true_iff; split; [reflexivity | exact Hd]).
      split; [reflexivity|].
      intros _. pose proof (StrFacts.split_not_nil "." (String b q ++ p)).
      destruct (Str.split "." (String b q ++ p)); [congruence | simpl; lia].
Qed.

Lemma is_course_id_intro x :
  forallb component (Str.split "." x) = true ->
  (2 <= List.length (Str.split "." x))%nat ->
  is_course_id x = true.
Proof.
  unfold is_course_id, component. intros -> H. apply Nat.leb_le in H.
  now rewrite H.
Qed.

Lemma startswith_app x y : Str.startswith (x ++ y) x = true.
Proof.
  unfold Str.startswith. induction x as [|c x IH]; simpl.
  - now destruct y.
  - destruct (ascii_dec c c); [assumption | congruence].
Qed.

Lemma dot_component_progress w s cs s' cs' :
  derives w (Grp 2 (Seq (lit ".") (Plus digit))) s cs s' cs' ->
  (String.length s' < String.length s)%nat.
Proof.
  unfold lit. intros H. inv_derives.
  match goal with
  | H : derives _ (Plus digit) _ _ _ _ |- _ =>
      apply derives_suffix in H; destruct H as [q ->]
  end.
  simpl. rewrite StrFacts.length_app. lia.
Qed.

(** The groups of a match of the anchor pattern. *)
Lemma id_pattern_shape w s s' cs' :
  derives w id_pattern s [] s' cs' ->
  exists course_id raw_title,
    lookup 1 cs' = Some course_id /\ lookup 3 cs' = Some raw_title /\
    is_course_id course_id = true /\ Str.startswith s course_id = true.
Proof.
  unfold id_pattern. intros H. inv_derives.
  match goal with
  | H : derives _ (Plus (Grp _ _)) _ _ _ _ |- _ =>
      inv H
  end.
  match goal with
  | H1 : derives _ (Grp 2 _) _ _ _ _, H2 : derives _ (Star _) _ _ _ _ |- _ =>
      rename H1 into Hg; rename H2 into Hs
  end.
  match goal with
  | H : derives _ (Plus digit) _ _ _ _ |- _ =>
      apply digits_run1 in H; destruct H as (-> & a & d & -> & Hd)
  end.
  pose proof (D_star_cons _ _ _ _ _ _ _ _ Hg Hs) as Hc.
  apply components_run in Hc. destruct Hc as (p & -> & Hp).
  no_caps.
  rewrite <- StrFacts.app_assoc, consumed_app. cbn [lookup Nat.eqb].
  do 2 eexists. do 2 (split; [reflexivity|]).
  assert (p <> "") as Hne.
  { intros ->. apply derives_suffix in Hs. destruct Hs as [q ->].
    apply dot_component_progress in Hg.
    rewrite StrFacts.length_app in Hg. simpl in Hg. lia. }
  destruct (Hp a d Hd) as [Hall Hlen]. split.
  - apply is_course_id_intro; auto.
  - apply startswith_app.
Qed.

Lemma keyword_shape w s cs s' cs' :
  derives w (Alt (word "Raum") (Alt (word "Aula")
               (word (String "H" (String o_umlaut "rsaal"))))) s cs s' cs' ->
  exists k, s = k ++ s' /\ In k keywords.
Proof.
  cbn [word]. unfold lit. intros H. inv_derives;
    repeat match goal with
           | H : Ascii.eqb _ _ = true |- _ => apply eqb_sym_true in H; subst
           end.
  - exists "Raum". split; [reflexivity | simpl; tauto].
  - exists "Aula". split; [reflexivity | simpl; tauto].
  - exists (String "H" (String o_umlaut "rsaal")). split; [reflexivity | simpl; tauto].
Qed.

(** A location is "TBA" or starts with a keyword. *)
Lemma location_in_shape text default :
  is_location default = true -> is_location (location_in text default) = true.
Proof.
  intros Hdef. unfold location_in.
  destruct (search loc_pattern text) as [m|] eqn:E; [|exact Hdef].
  apply search_sound in E. destruct E as (pre & _ & Hd).
  remember (m_text m ++ m_rest m) as x eqn:Ex.
  unfold loc_pattern in Hd.
  inversion Hd as [| | |r1 r2 s0 c0 s1 c1 s2 c2 Hk Hrest| | | | | | | |]; subst.
  inversion Hk as [| | | | | | | | | | |n r s0 c0 s1' c1' Hk']; subst.
  apply keyword_shape in Hk'. destruct Hk' as (k & Ek & Hin).
  apply derives_suffix in Hrest. destruct Hrest as [q ->].
  assert (m_text m = k ++ q) as ->.
  { rewrite <- (consumed_app (m_text m) (m_rest m)), Ek, <- StrFacts.app_assoc.
    apply consumed_app. }
  unfold is_location. apply orb_true_iff. right.
  apply existsb_exists. exists k. split; [exact Hin | apply startswith_app].
Qed.

Lemma full_date_truthy d : is_full_date d = true -> truthy (Some d) = true.
Proof. destruct d; [discriminate | reflexivity]. Qed.

Lemma process_line_shape course_id final_title default_location line e :
  In e (process_line course_id final_title default_location line) ->
  is_course_id course_id = true -> is_location default_location = true ->
  well_formed e = true /\ ev_id e = course_id /\ ev_title e = final_title.
Proof.
  unfold process_line.
  destruct (search time_pattern line) as [tm|] eqn:E; [|intros []].
  apply search_sound in E. destruct E as (pre & _ & Hd).
  apply time_pattern_shape in Hd.
  destruct Hd as (wd & st & et & E1 & Hwd & E3 & Hst & E4 & Het & Hdate).
  unfold group. rewrite E1, E3, E4.
  intros [<-|[]] Hid Hloc. split; [|now split].
  unfold well_formed. cbn [ev_id ev_full_label ev_title ev_weekday ev_start_time
    ev_end_time ev_location ev_date ev_type].
  rewrite Hid, String.eqb_refl, (proj2 (DedupFacts.mem_str_In _ _) Hwd), Hst, Het,
    (location_in_shape _ _ Hloc).
  destruct Hdate as [->|(a & d & -> & Hfull)]; [reflexivity|].
  rewrite (full_date_truthy _ Hfull). exact Hfull.
Qed.

(** A session line gives one record, with the location [location_in] finds
    for the line; any other line gives none. *)
Lemma process_line_session course_id final_title default_location line :
  if is_session line
  then exists e, process_line course_id final_title default_location line = [e]
                 /\ ev_location e = location_in line default_location
  else process_line course_id final_title default_location line = [].
Proof.
  unfold is_session, process_line.
  destruct (search time_pattern line) as [tm|] eqn:E; [|reflexivity].
  apply search_sound in E. destruct E as (pre & _ & Hd).
  apply time_pattern_shape in Hd.
  destruct Hd as (wd & st & et & E1 & _ & E3 & _ & E4 & _).
  unfold group. rewrite E1, E3, E4. eexists. split; reflexivity.
Qed.

(** The records of the lines of a block are the records of its session
    lines, one for each and in their order. *)
Lemma block_locations course_id final_title default_location lines :
  Forall2 (fun line e => ev_location e = location_in line default_location)
          (filter is_session lines)
          (flat_map (process_line course_id final_title default_location) lines).
Proof.
  induction lines as [|line rest IH]; cbn [filter flat_map]; [constructor|].
  pose proof (process_line_session course_id final_title default_location line) as H.
  destruct (is_session line).
  - destruct H as (e & -> & He). cbn [app]. now constructor.
  - rewrite H. exact IH.
Qed.

Lemma is_location_TBA : is_location "TBA" = true.
Proof. reflexivity. Qed.

(** The records of a block carry the identifier of its header and one title. *)
Lemma process_event_block_shape block e :
  In e (process_event_block block) ->
  exists header rest id_match course_id raw_title,
    block = header :: rest /\
    rmatch id_pattern header = Some id_match /\
    group id_match 1 = Some course_id /\ group id_match 3 = Some raw_title /\
    Str.startswith header course_id = true /\
    well_formed e = true /\ ev_id e = course_id /\
    ev_title e = clean_title_logic course_id raw_title.
Proof.
  unfold process_event_block. destruct block as [|header rest]; [intros []|].
  destruct (rmatch id_pattern header) as [m|] eqn:E; [|intros []].
  pose proof E as Hm. unfold rmatch in Hm. apply match_at_sound in Hm.
  destruct Hm as [Hd _]. apply id_pattern_shape in Hd.
  destruct Hd as (course_id & raw_title & E1 & E3 & Hid & Hpre).
  unfold group. rewrite E1, E3. intros H. apply in_flat_map in H.
  destruct H as (line & _ & H).
  apply process_line_shape in H;
    [|exact Hid | apply location_in_shape, is_location_TBA].
  destruct H as (Hwf & Ei & Et).
  exists header, rest, m, course_id, raw_title. unfold group. now repeat split.
Qed.

End ShapeFacts.

(** ** Trimming and splitting *)

Module TextFacts.

Lemma lstrip_clean a s : Str.is_space a = false -> Str.lstrip (String a s) = String a s.
Proof. intros H. simpl. now rewrite H. Qed.

Lemma lstrip_cases s :
  Str.lstrip s = "" \/ exists a r, Str.lstrip s = String a r /\ Str.is_space a = false.
Proof.
  induction s as [|a s IH]; simpl; [now left|].
  destruct (Str.is_space a) eqn:E; [exact IH|]. right. now exists a, s.
Qed.

Lemma rstrip_head a s :
  Str.is_space a = false -> exists r, Str.rstrip (String a s) = String a r.
Proof.
  intros H. simpl. destruct (Str.rstrip s) as [|b r].
  - rewrite H. now exists "".
  - now exists (String b r).
Qed.

Lemma rstrip_idem s : Str.rstrip (Str.rstrip s) = Str.rstrip s.
Proof.
  induction s as [|a s IH]; simpl; [reflexivity|].
  destruct (Str.rstrip s) as [|b r] eqn:E.
  - destruct (Str.is_space a) eqn:Ea; [reflexivity|]. simpl. now rewrite Ea.
  - change (Str.rstrip (String a (String b r))) with
      (match Str.rstrip (String b r) with
       | EmptyString => if Str.is_space a then EmptyString else String a EmptyString
       | x => String a x
       end).
    now rewrite IH.
Qed.

(** A trimmed text is trimmed. *)
Lemma strip_idem s : Str.strip (Str.strip s) = Str.strip s.
Proof.
  unfold Str.strip.
  destruct (lstrip_cases s) as [->|(a & r & -> & Ha)]; [reflexivity|].
  destruct (rstrip_head a r Ha) as [r' E]. rewrite E.
  rewrite (lstrip_clean a r' Ha), <- E. apply rstrip_idem.
Qed.

Lemma contains_lstrip c s : Str.contains c (Str.lstrip s) = true -> Str.contains c s = true.
Proof.
  induction s as [|a s IH]; simpl; [discriminate|].
  destruct (Str.is_space a); [|now simpl].
  intros H. rewrite (IH H). now destruct (Ascii.eqb a c).
Qed.

Lemma contains_rstrip c s : Str.contains c (Str.rstrip s) = true -> Str.contains c s = true.
Proof.
  induction s as [|a s IH]; simpl; [discriminate|].
  destruct (Str.rstrip s) as [|b r].
  - destruct (Str.is_space a); [discriminate|]. simpl.
    destruct (Ascii.eqb a c); [reflexivity | discriminate].
  - simpl. destruct (Ascii.eqb a c); [reflexivity|]. exact IH.
Qed.

Lemma contains_strip c s : Str.contains c s = false -> Str.contains c (Str.strip s) = false.
Proof.
  intros H. destruct (Str.contains c (Str.strip s)) eqn:E; [|reflexivity].
  unfold Str.strip in E. apply contains_rstrip, contains_lstrip in E. congruence.
Qed.

(** The pieces of a split hold no separator. *)
Lemma split_pieces c s p : In p (Str.split c s) -> Str.contains c p = false.
Proof.
  revert p. induction s as [|a s IH]; simpl; intros p.
  - intros [<-|[]]. reflexivity.
  - destruct (Ascii.eqb a c) eqn:E.
    + intros [<-|H]; [reflexivity | now apply IH].
    + pose proof (StrFacts.split_not_nil c s).
      destruct (Str.split c s) as [|h t]; [congruence|].
      intros [<-|H'].
      * simpl. rewrite E. apply IH. now left.
      * apply IH. now right.
Qed.

Lemma split_no_sep c s : Str.contains c s = false -> Str.split c s = [s].
Proof.
  induction s as [|a s IH]; simpl; [reflexivity|].
  destruct (Ascii.eqb a c); [discriminate|]. intros H. now rewrite (IH H).
Qed.

Lemma split_app c a b :
  Str.contains c a = false ->
  Str.split c (a ++ String c b) = a :: Str.split c b.
Proof.
  induction a as [|x a IH]; simpl.
  - now rewrite Ascii.eqb_refl.
  - destruct (Ascii.eqb x c); [discriminate|]. intros H. now rewrite (IH H).
Qed.

(** A split cut at one of its separators. *)
Lemma split_app_any c a b :
  Str.split c (a ++ String c b) = (Str.split c a ++ Str.split c b)%list.
Proof.
  induction a as [|x a IH]; simpl.
  - now rewrite Ascii.eqb_refl.
  - destruct (Ascii.eqb x c); [now rewrite IH|].
    rewrite IH. pose proof (StrFacts.split_not_nil c a).
    destruct (Str.split c a); [congruence | reflexivity].
Qed.

Lemma search_ids_In q t :
  In t (search_ids q) <->
  t <> "" /\ exists piece, In piece (Str.split "," q) /\ t = Str.strip piece.
Proof.
  unfold search_ids. rewrite in_flat_map. split.
  - intros (piece & Hp & Ht). destruct (Str.strip piece) eqn:E; [destruct Ht|].
    destruct Ht as [<-|[]]. split; [discriminate|]. now exists piece.
  - intros (Hne & piece & Hp & ->). exists piece. split; [assumption|].
    destruct (Str.strip piece); [congruence | now left].
Qed.

Lemma lstrip_blank s : Str.lstrip (String " " s) = Str.lstrip s.
Proof. reflexivity. Qed.

Lemma clean_token_fields t :
  clean_token t = true -> t <> "" /\ Str.strip t = t /\ Str.contains "," t = false.
Proof.
  unfold clean_token. intros H.
  apply andb_true_iff in H as [H Hc]. apply andb_true_iff in H as [Hn Hs].
  apply String.eqb_eq in Hs. apply negb_true_iff in Hc, Hn.
  apply String.eqb_neq in Hn. now repeat split.
Qed.

Lemma keep_clean t :
  clean_token t = true ->
  match Str.strip t with
  | EmptyString => []
  | x => [x]
  end = [t].
Proof.
  intros H. apply clean_token_fields in H. destruct H as (Hne & -> & _).
  destruct t; [congruence | reflexivity].
Qed.

Lemma keep_clean_blank t :
  clean_token t = true ->
  match Str.strip (String " " t) with
  | EmptyString => []
  | x => [x]
  end = [t].
Proof. intros H. unfold Str.strip. rewrite lstrip_blank. now apply keep_clean. Qed.

Lemma keep_clean_after pre t :
  pre = "" \/ pre = " " -> clean_token t = true ->
  Str.contains "," (pre ++ t) = false /\
  match Str.strip (pre ++ t) with
  | EmptyString => []
  | x => [x]
  end = [t].
Proof.
  intros [->| ->] Ht; pose proof (clean_token_fields _ Ht) as (_ & _ & Hc).
  - split; [exact Hc | now apply keep_clean].
  - split; [exact Hc | now apply keep_clean_blank].
Qed.

(** The ids written one after the other, with a comma and a blank between
    them, are read back one by one. *)
Lemma search_ids_join_after ids :
  forallb clean_token ids = true ->
  forall t pre,
    clean_token t = true -> pre = "" \/ pre = " " ->
    flat_map (fun s => match Str.strip s with
                       | EmptyString => []
                       | x => [x]
                       end)
             (Str.split "," (pre ++ Str.join ", " (t :: ids)))
    = t :: ids.
Proof.
  induction ids as [|u ids IH]; intros Hall t pre Ht Hpre;
    destruct (keep_clean_after pre t Hpre Ht) as [Hc Hk].
  - cbn [Str.join]. rewrite (split_no_sep _ _ Hc). cbn [flat_map].
    rewrite Hk. reflexivity.
  - cbn [forallb] in Hall. apply andb_true_iff in Hall as [Hu Hall].
    change (Str.join ", " (t :: u :: ids))
      with (t ++ String "," (" " ++ Str.join ", " (u :: ids))).
    rewrite <- StrFacts.app_assoc, (split_app _ _ _ Hc). cbn [flat_map].
    rewrite Hk, (IH Hall u " " Hu (or_intror eq_refl)). reflexivity.
Qed.

(** Title cleaning. *)

Lemma hd_split_no_sep c s : Str.contains c (hd "" (Str.split c s)) = false.
Proof.
  apply split_pieces with (s := s).
  pose proof (StrFacts.split_not_nil c s).
  destruct (Str.split c s); [congruence | now left].
Qed.

Lemma clean_title_string_no_hyphen title :
  Str.contains "-" (clean_title_string title) = false.
Proof.
  unfold clean_title_string. destruct (Str.contains "-" title) eqn:E.
  - apply contains_strip, hd_split_no_sep.
  - now apply contains_strip.
Qed.

Lemma clean_title_string_idem title :
  clean_title_string (clean_title_string title) = clean_title_string title.
Proof.
  unfold clean_title_string at 1. rewrite clean_title_string_no_hyphen.
  unfold clean_title_string. destruct (Str.contains "-" title); apply strip_idem.
Qed.

End TextFacts.

(** ** The blocks of [extract_events] *)

Module BlockFacts.
Import Re.

Lemma segment_cons line rest :
  segment (line :: rest) =
  if is_anchor line then ([], (line :: preamble rest) :: blocks rest)
  else (line :: preamble rest, blocks rest).
Proof. unfold preamble, blocks. simpl. now destruct (segment rest). Qed.

(** The loop of [extract_events] hands over the open block, completed by the
    lines up to the next anchor, and then the blocks that follow. *)
Lemma extract_loop_blocks lines :
  forall current events,
    extract_loop lines current events =
    (events ++
     match current with
     | [] => []
     | _ => process_event_block (current ++ preamble lines)
     end ++ flat_map process_event_block (blocks lines))%list.
Proof.
  induction lines as [|line rest IH]; intros current events.
  - simpl. rewrite !app_nil_r. destruct current; [now rewrite app_nil_r | reflexivity].
  - cbn [extract_loop]. unfold preamble, blocks. rewrite segment_cons.
    unfold is_anchor. destruct (rmatch id_pattern line) as [m|].
    + rewrite IH. cbn [fst snd flat_map]. rewrite app_nil_r.
      destruct current; cbn [app]; [reflexivity | now rewrite <- app_assoc].
    + cbn [fst snd]. destruct current as [|c current].
      * apply IH.
      * rewrite IH. rewrite <- app_assoc. cbn [app].
        destruct (current ++ [line])%list eqn:E; [now destruct current | reflexivity].
Qed.

Lemma segment_spec lines :
  lines = (preamble lines ++ List.concat (blocks lines))%list /\
  forallb (fun l => negb (is_anchor l)) (preamble lines) = true /\
  forallb is_block (blocks lines) = true.
Proof.
  induction lines as [|line rest (E & Hp & Hb)].
  - now repeat split.
  - unfold preamble, blocks. rewrite segment_cons.
    destruct (is_anchor line) eqn:Ea; cbn [fst snd List.concat app forallb is_block].
    + rewrite Ea, Hp, Hb. repeat split. now rewrite <- E.
    + rewrite Ea, Hp, Hb. repeat split. now rewrite <- E.
Qed.

Lemma extract_events_blocks text :
  extract_events text = flat_map process_event_block (blocks (Str.split newline text)).
Proof. unfold extract_events. now rewrite extract_loop_blocks. Qed.

Lemma blocks_no_anchor lines rest :
  forallb (fun l => negb (is_anchor l)) lines = true ->
  blocks (lines ++ rest) = blocks rest.
Proof.
  induction lines as [|line lines IH]; cbn [app forallb]; [reflexivity|].
  intros H. apply andb_true_iff in H as [Ha H]. apply negb_true_iff in Ha.
  unfold blocks. rewrite segment_cons, Ha. cbn [snd]. now apply IH.
Qed.

Lemma segment_app lines rest :
  preamble rest = [] ->
  segment (lines ++ rest) = (preamble lines, (blocks lines ++ blocks rest)%list).
Proof.
  intros Hr. induction lines as [|line lines IH]; cbn [app].
  - unfold preamble, blocks in *. destruct (segment rest) as [p b].
    cbn [fst snd] in *. now subst.
  - rewrite segment_cons. unfold preamble, blocks. rewrite IH, segment_cons.
    cbn [fst snd]. fold (preamble lines) (blocks lines).
    destruct (is_anchor line); reflexivity.
Qed.

Lemma preamble_anchor lines :
  is_anchor (hd "" lines) = true -> preamble lines = [].
Proof.
  destruct lines as [|line rest]; [reflexivity|]. cbn [hd]. intros H.
  unfold preamble. now rewrite segment_cons, H.
Qed.

End BlockFacts.

(** ** The deduplication key on well-formed records *)

Module KeyFacts.
Import ShapeFacts.

Lemma first_bar a1 a2 r1 r2 :
  Str.contains bar a1 = false -> Str.contains bar a2 = false ->
  a1 ++ String bar r1 = a2 ++ String bar r2 -> a1 = a2 /\ r1 = r2.
Proof.
  revert a2. induction a1 as [|c a1 IH]; intros [|c2 a2]; simpl.
  - intros _ _ [= ->]. now split.
  - intros _ H [= <- _]. now rewrite Ascii.eqb_refl in H.
  - intros H _ [= -> _]. now rewrite Ascii.eqb_refl in H.
  - destruct (Ascii.eqb c bar); [discriminate|].
    destruct (Ascii.eqb c2 bar); [discriminate|].
    intros H1 H2 [= -> E]. destruct (IH _ H1 H2 E) as [-> ->]. now split.
Qed.

Lemma contains_app c a b :
  Str.contains c (a ++ b) = (Str.contains c a || Str.contains c b)%bool.
Proof.
  induction a as [|x a IH]; simpl; [reflexivity|].
  destruct (Ascii.eqb x c); [reflexivity | exact IH].
Qed.

Lemma last_bar x1 x2 d1 d2 :
  Str.contains bar d1 = false -> Str.contains bar d2 = false ->
  x1 ++ String bar d1 = x2 ++ String bar d2 -> x1 = x2 /\ d1 = d2.
Proof.
  intros H1 H2. revert x2. induction x1 as [|c x1 IH]; intros [|c2 x2]; simpl.
  - intros [= ->]. now split.
  - intros [= <- E]. rewrite E, contains_app in H1. simpl in H1.
    rewrite ?Ascii.eqb_refl, orb_true_r in H1. discriminate.
  - intros [= -> E]. rewrite <- E, contains_app in H2. simpl in H2.
    rewrite ?Ascii.eqb_refl, orb_true_r in H2. discriminate.
  - intros [= -> E]. destruct (IH _ E) as [-> ->]. now split.
Qed.

Lemma same_length_suffix a1 a2 b1 b2 :
  String.length b1 = String.length b2 ->
  a1 ++ b1 = a2 ++ b2 -> a1 = a2 /\ b1 = b2.
Proof.
  intros Hl. revert a2. induction a1 as [|c a1 IH]; intros [|c2 a2]; simpl.
  - now split.
  - intros ->. simpl in Hl. rewrite StrFacts.length_app in Hl. lia.
  - intros <-. simpl in Hl. rewrite StrFacts.length_app in Hl. lia.
  - intros [= -> E]. destruct (IH _ E) as [-> ->]. now split.
Qed.

Lemma digit_not_bar a : Str.is_digit a = true -> Ascii.eqb a bar = false.
Proof. destruct a as [[] [] [] [] [] [] [] []]; try reflexivity; discriminate. Qed.

(** A text made of digits and dots holds no bar. *)
Lemma dotted_no_bar s :
  forallb (all_chars Str.is_digit) (Str.split "." s) = true ->
  Str.contains bar s = false.
Proof.
  induction s as [|a s IH]; simpl; [reflexivity|].
  destruct (Ascii.eqb a ".") eqn:Ea.
  - apply Ascii.eqb_eq in Ea. subst. simpl. exact IH.
  - pose proof (StrFacts.split_not_nil "." s) as Hn.
    destruct (Str.split "." s) as [|h t]; [congruence|].
    simpl. intros H. apply andb_true_iff in H as [H Ht].
    apply andb_true_iff in H as [Ha Hh].
    rewrite (digit_not_bar a Ha). apply IH. simpl. now rewrite Hh, Ht.
Qed.

Lemma component_digits l :
  forallb component l = true -> forallb (all_chars Str.is_digit) l = true.
Proof.
  induction l as [|p l IH]; simpl; [reflexivity|].
  intros H. apply andb_true_iff in H as [H Hl].
  apply andb_true_iff in H as [_ H]. now rewrite H, IH.
Qed.

Lemma course_id_no_bar s : is_course_id s = true -> Str.contains bar s = false.
Proof.
  unfold is_course_id. intros H. apply andb_true_iff in H as [_ H].
  now apply dotted_no_bar, component_digits.
Qed.

Ltac split_andb H :=
  repeat match type of H with
         | (_ && _)%bool = true =>
             let H' := fresh "H" in
             apply andb_true_iff in H as [H H']
         end.

Lemma full_date_no_bar d : is_full_date d = true -> Str.contains bar d = false.
Proof.
  destruct d as [|d1 [|d2 [|p [|m1 [|m2 [|q [|y1 [|y2 [|y3 rest]]]]]]]]];
    try discriminate.
  unfold is_full_date. intros H.
  assert (Hrest : Str.contains bar rest = false).
  { apply andb_true_iff in H as [_ H].
    destruct rest as [|y4 [|]]; try discriminate; [reflexivity|].
    simpl. now rewrite (digit_not_bar y4 H). }
  apply andb_true_iff in H as [H _]. split_andb H.
  repeat match goal with
         | H : Ascii.eqb _ "." = true |- _ => apply Ascii.eqb_eq in H; subst
         | H : Str.is_digit _ = true |- _ => apply digit_not_bar in H
         end.
  simpl. now repeat match goal with H : Ascii.eqb _ bar = false |- _ => rewrite H; clear H end.
Qed.

Lemma clock_length t : is_clock t = true -> String.length t = 5%nat.
Proof.
  intros H. destruct t as [|a [|b [|c [|d [|e [|]]]]]]; try discriminate H.
  reflexivity.
Qed.

Lemma weekday_length d :
  mem_str d weekdays = true -> String.length d = 2%nat /\ Str.contains bar d = false.
Proof.
  intros H. apply DedupFacts.mem_str_In in H. simpl in H.
  repeat (destruct H as [<-|H]; [now split|]). destruct H.
Qed.

Lemma well_formed_fields e :
  well_formed e = true ->
  is_course_id (ev_id e) = true /\
  ev_full_label e = ev_id e ++ " " ++ ev_title e /\
  mem_str (ev_weekday e) weekdays = true /\
  is_clock (ev_start_time e) = true /\ is_clock (ev_end_time e) = true /\
  is_location (ev_location e) = true /\
  ((ev_date e = None /\ ev_type e = recurring) \/
   (exists d, ev_date e = Some d /\ ev_type e = single /\ is_full_date d = true)).
Proof.
  unfold well_formed. intros H.
  apply andb_true_iff in H as [H Hdate]. apply andb_true_iff in H as [H Hloc].
  apply andb_true_iff in H as [H Hend]. apply andb_true_iff in H as [H Hstart].
  apply andb_true_iff in H as [H Hday]. apply andb_true_iff in H as [Hid Hlabel].
  apply String.eqb_eq in Hlabel. repeat (split; [assumption|]).
  destruct (ev_date e) as [d|], (ev_type e); try discriminate.
  - right. now exists d.
  - now left.
Qed.

Lemma fmt_date_no_bar e :
  well_formed e = true -> Str.contains bar (fmt (ev_date e)) = false.
Proof.
  intros H. apply well_formed_fields in H.
  destruct H as (_ & _ & _ & _ & _ & _ & [[-> _]|(d & -> & _ & Hd)]).
  - reflexivity.
  - now apply full_date_no_bar.
Qed.

Lemma fmt_date_inj e1 e2 :
  well_formed e1 = true -> well_formed e2 = true ->
  fmt (ev_date e1) = fmt (ev_date e2) -> ev_date e1 = ev_date e2.
Proof.
  intros H1 H2. apply well_formed_fields in H1, H2.
  destruct H1 as (_ & _ & _ & _ & _ & _ & [[-> _]|(d1 & -> & _ & Hd1)]),
           H2 as (_ & _ & _ & _ & _ & _ & [[-> _]|(d2 & -> & _ & Hd2)]); simpl.
  - reflexivity.
  - intros <-. discriminate.
  - intros ->. discriminate.
  - now intros ->.
Qed.

Lemma regroup t w s f :
  t ++ String bar (w ++ String bar (s ++ String bar f)) =
  (t ++ String bar (w ++ String bar s)) ++ String bar f.
Proof.
  rewrite StrFacts.app_assoc. simpl. now rewrite StrFacts.app_assoc.
Qed.

(** On well-formed records the key determines its five fields. *)
Lemma sig_inj e1 e2 :
  well_formed e1 = true -> well_formed e2 = true -> sig e1 = sig e2 ->
  ev_id e1 = ev_id e2 /\ ev_title e1 = ev_title e2 /\
  ev_weekday e1 = ev_weekday e2 /\ ev_start_time e1 = ev_start_time e2 /\
  ev_date e1 = ev_date e2.
Proof.
  intros W1 W2 E.
  pose proof (fmt_date_no_bar _ W1) as B1. pose proof (fmt_date_no_bar _ W2) as B2.
  pose proof (fmt_date_inj _ _ W1 W2) as Hdate.
  apply well_formed_fields in W1, W2.
  destruct W1 as (I1 & _ & D1 & S1 & _), W2 as (I2 & _ & D2 & S2 & _).
  apply course_id_no_bar in I1, I2. apply clock_length in S1, S2.
  apply weekday_length in D1, D2. destruct D1 as [L1 N1], D2 as [L2 N2].
  unfold sig in E. change "|" with (String bar "") in E. simpl append in E.
  apply first_bar in E; [|assumption..]. destruct E as [Eid E].
  rewrite !regroup in E.
  apply last_bar in E; [|assumption..]. destruct E as [E Efmt].
  apply same_length_suffix in E.
  - destruct E as [Et E]. injection E as E.
    apply first_bar in E; [|assumption..]. destruct E as [Ew Es].
    repeat split; auto.
  - simpl. rewrite !StrFacts.length_app. simpl. lia.
Qed.

End KeyFacts.

(** ** Times of day and dates, as ['%d.%m.%Y %H:%M'] reads them *)

Module ClockFacts.
Import Re ReFacts Cal KeyFacts.

Lemma is_digit_cases a :
  Str.is_digit a = true ->
  a = "0"%char \/ a = "1"%char \/ a = "2"%char \/ a = "3"%char \/ a = "4"%char \/
  a = "5"%char \/ a = "6"%char \/ a = "7"%char \/ a = "8"%char \/ a = "9"%char.
Proof.
  destruct a as [[] [] [] [] [] [] [] []]; intros H; try discriminate H; clear H;
    repeat match goal with
           | |- _ \/ _ => first [left; reflexivity | right]
           end; reflexivity.
Qed.

Ltac each_char a H :=
  let C := fresh in
  pose proof (is_digit_cases a H) as C; clear H;
  repeat (destruct C as [-> | C]); [.. | subst a].

Section Clock.
Context {A : Type}.
Variable w : nat.

(** The hour of a time, before the colon. *)
Lemma run_hour a b (R : regex) tail cs (k : @cont A) :
  Str.is_digit a = true -> Str.is_digit b = true ->
  run w (Seq (Plus space) (Seq re_H (Seq (lit ":") R)))
      (String " " (String a (String b (String ":" tail)))) cs k
  = if 10 * digit_value a + digit_value b <? 24
    then run w R tail ((4%nat, String a (String b "")) :: cs) k
    else None.
Proof.
  intros Ha Hb. each_char a Ha; each_char b Hb;
    cbn -[consumed]; rewrite ?consumed_2, ?consumed_1; try reflexivity;
    destruct (run w R tail _ k); reflexivity.
Qed.

End Clock.

(** The minute of a time, at the end of the text. *)
Lemma run_minute w d e cs :
  Str.is_digit d = true -> Str.is_digit e = true ->
  match run w re_M (String d (String e "")) cs (fun s' c => Some (s', c)) with
  | Some (EmptyString, c) => Some c
  | _ => None
  end
  = if 10 * digit_value d + digit_value e <? 60
    then Some ((5%nat, String d (String e "")) :: cs)
    else None.
Proof.
  intros Hd He. each_char d Hd; each_char e He;
    cbn -[consumed]; rewrite ?consumed_2, ?consumed_1; reflexivity.
Qed.

Lemma int_digits a b :
  Str.is_digit a = true -> Str.is_digit b = true ->
  int (String a (String b "")) = 10 * digit_value a + digit_value b.
Proof. intros Ha Hb. each_char a Ha; each_char b Hb; reflexivity. Qed.

(** [' %H:%M'] reads a clock text as its time of day, and nothing else. *)
Lemma parse_time_clock t :
  is_clock t = true -> parse_time t = clock_value t.
Proof.
  destruct t as [|a [|b [|c [|d [|e [|]]]]]]; try discriminate.
  unfold is_clock. intros H.
  apply andb_true_iff in H as [H He]. apply andb_true_iff in H as [H Hd].
  apply andb_true_iff in H as [H Hc]. apply andb_true_iff in H as [Ha Hb].
  apply Ascii.eqb_eq in Hc. subst c.
  unfold parse_time, tail_HM, clock_value. rewrite (run_hour 0 a b) by assumption.
  destruct (10 * digit_value a + digit_value b <? 24); [|reflexivity].
  pose proof (run_minute 0 d e [(4%nat, String a (String b ""))] Hd He) as HM.
  destruct (run 0 re_M _ _ _) as [[[|x r] c]|];
    destruct (10 * digit_value d + digit_value e <? 60); try discriminate HM;
    try reflexivity.
  injection HM as ->. unfold time_of_caps. cbn [lookup Nat.eqb].
  now rewrite !int_digits.
Qed.

Section DateFields.
Context {A : Type}.
Variable w : nat.

Lemma run_day_digits a b (R : regex) rest cs (k : @cont A) :
  Str.is_digit a = true -> Str.is_digit b = true ->
  run w (Seq re_d (Seq (lit ".") R)) (String a (String b (String "." rest))) cs k
  = if (1 <=? 10 * digit_value a + digit_value b) &&
       (10 * digit_value a + digit_value b <=? 31)
    then run w R rest ((1%nat, String a (String b "")) :: cs) k
    else None.
Proof.
  intros Ha Hb. each_char a Ha; each_char b Hb;
    cbn -[consumed]; rewrite ?consumed_2, ?consumed_1; try reflexivity;
    destruct (run w R rest _ k); reflexivity.
Qed.

Lemma run_month_digits a b (R : regex) rest cs (k : @cont A) :
  Str.is_digit a = true -> Str.is_digit b = true ->
  run w (Seq re_m (Seq (lit ".") R)) (String a (String b (String "." rest))) cs k
  = if (1 <=? 10 * digit_value a + digit_value b) &&
       (10 * digit_value a + digit_value b <=? 12)
    then run w R rest ((2%nat, String a (String b "")) :: cs) k
    else None.
Proof.
  intros Ha Hb. each_char a Ha; each_char b Hb;
    cbn -[consumed]; rewrite ?consumed_2, ?consumed_1; try reflexivity;
    destruct (run w R rest _ k); reflexivity.
Qed.

Lemma run_year_digits a b c d (R : regex) rest cs (k : @cont A) :
  Str.is_digit a = true -> Str.is_digit b = true ->
  Str.is_digit c = true -> Str.is_digit d = true ->
  run w (Seq re_Y R) (String a (String b (String c (String d rest)))) cs k
  = run w R rest ((3%nat, String a (String b (String c (String d "")))) :: cs) k.
Proof.
  intros Ha Hb Hc Hd. unfold re_Y, digit. cbn [run].
  rewrite Ha, Hb, Hc, Hd. now rewrite consumed_4.
Qed.

(** A year of three digits is no year of ['%Y']. *)
Lemma run_year_short a b c (R : regex) rest cs (k : @cont A) :
  match rest with
  | EmptyString => True
  | String x _ => Str.is_digit x = false
  end ->
  run w (Seq re_Y R) (String a (String b (String c rest))) cs k = None.
Proof.
  intros H. unfold re_Y, digit. cbn [run].
  destruct (Str.is_digit a); [|reflexivity].
  destruct (Str.is_digit b); [|reflexivity].
  destruct (Str.is_digit c); [|reflexivity].
  destruct rest as [|x rest]; [reflexivity | now rewrite H].
Qed.

End DateFields.

Lemma digit_not_space a : Str.is_digit a = true -> Str.is_space a = false.
Proof. destruct a as [[] [] [] [] [] [] [] []]; try reflexivity; discriminate. Qed.

Lemma int_digits4 a b c d :
  Str.is_digit a = true -> Str.is_digit b = true ->
  Str.is_digit c = true -> Str.is_digit d = true ->
  int (String a (String b (String c (String d "")))) =
  1000 * digit_value a + 100 * digit_value b + 10 * digit_value c + digit_value d.
Proof.
  intros Ha Hb Hc Hd. unfold int, Str.strip. cbn [Str.lstrip].
  rewrite (digit_not_space a Ha). cbn [Str.rstrip].
  rewrite (digit_not_space d Hd). cbn [int_acc]. unfold digit_value. lia.
Qed.

(** What ['%d.%m.%Y %H:%M'] makes of a subject once its date is matched:
    the captures of the date and the time of day of the rest. *)
Lemma datetime_tail S y m d t :
  match
    match run (String.length S) tail_HM (String " " t)
            [(3%nat, y); (2%nat, m); (1%nat, d)]
            (fun s' cs =>
               Some (MObj (String.length S - String.length S) (consumed S s') s' cs)) with
    | Some mo => match m_rest mo with
                 | EmptyString => Some (m_caps mo)
                 | _ => None
                 end
    | None => None
    end
  with
  | Some cs =>
      match date_of_caps cs, time_of_caps cs with
      | Some n, Some (h, mi) => Some (DateTime n h mi)
      | _, _ => None
      end
  | None => None
  end
  = match date_of_caps [(3%nat, y); (2%nat, m); (1%nat, d)], parse_time t with
    | Some n, Some (h, mi) => Some (DateTime n h mi)
    | _, _ => None
    end.
Proof.
  set (capsD := [(3%nat, y); (2%nat, m); (1%nat, d)]).
  set (g := fun p : string * caps =>
              MObj (String.length S - String.length S) (consumed S (fst p)) (fst p)
                   (snd p ++ capsD)%list).
  rewrite (run_frame (String.length S) tail_HM capsD (String " " t) []).
  rewrite (run_unanchored (String.length S) 0 tail_HM eq_refl (String " " t) [] _
             (fun s' c => option_map g ((fun s' c => Some (s', c)) s' c)))
    by reflexivity.
  rewrite (run_map g 0 tail_HM).
  unfold parse_time.
  destruct (run 0 tail_HM (String " " t) [] (fun s' cs => Some (s', cs)))
    as [[s' c]|] eqn:E; cbn [option_map g fst snd m_rest m_caps].
  2:{ now destruct (date_of_caps capsD). }
  destruct s' as [|a s']; [|now destruct (date_of_caps capsD)].
  apply run_result in E. destruct E as (s1 & c1 & _ & Hc & E).
  injection E as -> E. rewrite List.app_nil_r in E. subst c1.
  assert (Hd' : date_of_caps (c ++ capsD)%list = date_of_caps capsD).
  { unfold date_of_caps. rewrite !lookup_app.
    rewrite (lookup_caps_of 1 _ _ Hc), (lookup_caps_of 2 _ _ Hc), (lookup_caps_of 3 _ _ Hc);
      [reflexivity | | |]; cbn; intuition discriminate. }
  assert (Ht : time_of_caps (c ++ capsD)%list = time_of_caps c).
  { unfold time_of_caps. rewrite !lookup_app. cbn [capsD lookup Nat.eqb].
    destruct (lookup 4 c), (lookup 5 c); reflexivity. }
  rewrite Hd', Ht. reflexivity.
Qed.

Lemma date_value_none d1 d2 m1 m2 y1 y2 y3 y4 :
  (1 <=? 10 * digit_value d1 + digit_value d2) &&
  (10 * digit_value d1 + digit_value d2 <=? 31) = false \/
  (1 <=? 10 * digit_value m1 + digit_value m2) &&
  (10 * digit_value m1 + digit_value m2 <=? 12) = false ->
  date_value (written d1 d2 m1 m2 y1 y2 y3 y4) = None.
Proof.
  unfold date_value, written. cbv zeta. intros H.
  destruct (Z.leb_spec 1 (10 * digit_value m1 + digit_value m2));
    destruct (Z.leb_spec (10 * digit_value m1 + digit_value m2) 12);
    rewrite ?andb_false_r; cbn [andb]; try reflexivity.
  destruct H as [H|H]; [|discriminate H].
  match goal with
  | |- context [days_in_month ?y ?m] =>
      pose proof (CalFacts.dim_bounds y m ltac:(lia));
      destruct (Z.leb_spec (10 * digit_value d1 + digit_value d2) (days_in_month y m))
  end; rewrite ?andb_false_r; try reflexivity.
  destruct (Z.leb_spec 1 (10 * digit_value d1 + digit_value d2));
    rewrite ?andb_false_r; try reflexivity.
  destruct (Z.leb_spec (10 * digit_value d1 + digit_value d2) 31); [discriminate H | lia].
Qed.

Lemma date_of_caps_digits d1 d2 m1 m2 y1 y2 y3 y4 :
  Str.is_digit d1 = true -> Str.is_digit d2 = true ->
  Str.is_digit m1 = true -> Str.is_digit m2 = true ->
  Str.is_digit y1 = true -> Str.is_digit y2 = true ->
  Str.is_digit y3 = true -> Str.is_digit y4 = true ->
  date_of_caps [(3%nat, String y1 (String y2 (String y3 (String y4 ""))));
                (2%nat, String m1 (String m2 "")); (1%nat, String d1 (String d2 ""))]
  = date_value (written d1 d2 m1 m2 y1 y2 y3 y4).
Proof.
  intros. unfold date_of_caps, date_value, written. cbn [lookup Nat.eqb].
  now rewrite !int_digits, int_digits4 by assumption.
Qed.

(** ['%d.%m.%Y'] reads a date token as the day it writes, when the year has
    four digits and the calendar has the day; with ['%H:%M'] after it, the
    time of day is read from what follows the blank. *)
Lemma strptime_full_date d :
  is_full_date d = true ->
  strptime_date d = date_value d /\
  forall t, strptime_datetime (d ++ " " ++ t) =
            match date_value d, parse_time t with
            | Some n, Some (h, mi) => Some (DateTime n h mi)
            | _, _ => None
            end.
Proof.
  destruct d as [|d1 [|d2 [|p [|m1 [|m2 [|q [|y1 [|y2 [|y3 rest]]]]]]]]];
    try discriminate.
  unfold is_full_date. intros H. apply andb_true_iff in H as [H Hrest].
  split_andb H.
  repeat match goal with
         | H : Ascii.eqb _ "." = true |- _ => apply Ascii.eqb_eq in H; subst
         end.
  destruct rest as [|y4 [|]]; try discriminate Hrest.
  - split; [|intros t; cbn [append]];
      unfold strptime_date, strptime_datetime, found, rmatch, match_at,
        FMT_DATE, FMT_DATETIME, fmt_date;
      rewrite run_day_digits by assumption;
      (destruct (_ && _)%bool; [|reflexivity]);
      rewrite run_month_digits by assumption;
      (destruct (_ && _)%bool; [|reflexivity]);
      now rewrite run_year_short.
  - fold (written d1 d2 m1 m2 y1 y2 y3 y4).
    split; [|intros t];
      unfold strptime_date, strptime_datetime, found, rmatch, match_at,
        FMT_DATE, FMT_DATETIME, fmt_date;
      unfold written at 1 2 3; cbn [append];
      rewrite run_day_digits by assumption;
      (destruct ((1 <=? 10 * digit_value d1 + digit_value d2) &&
                 (10 * digit_value d1 + digit_value d2 <=? 31)) eqn:Eday;
       [|now rewrite date_value_none by (now left)]);
      rewrite run_month_digits by assumption;
      (destruct ((1 <=? 10 * digit_value m1 + digit_value m2) &&
                 (10 * digit_value m1 + digit_value m2 <=? 12)) eqn:Emonth;
       [|now rewrite date_value_none by (now right)]);
      rewrite run_year_digits by assumption.
    + cbn [run m_rest m_caps]. now apply date_of_caps_digits.
    + rewrite <- date_of_caps_digits by assumption.
      match goal with
      | |- context [MObj (String.length ?S - _)] => apply (datetime_tail S)
      end.
Qed.

End ClockFacts.

(** ** Prefix filter and deduplication *)

Module SelectFacts.

Lemma prefix_trans a b c :
  String.prefix a b = true -> String.prefix b c = true -> String.prefix a c = true.
Proof.
  revert b c. induction a as [|x a IH]; intros [|y b] [|z c]; simpl; try congruence.
  destruct (ascii_dec x y) as [->|]; [|discriminate].
  destruct (ascii_dec y z) as [->|]; [|discriminate].
  destruct (ascii_dec z z); [|congruence]. apply IH.
Qed.

(** Deduplication. *)

Lemma dedup_loop_app events :
  forall seen unique,
    dedup_loop events seen unique = (unique ++ dedup_loop events seen [])%list.
Proof.
  induction events as [|e l IH]; intros seen unique; cbn [dedup_loop].
  - now rewrite app_nil_r.
  - destruct (mem_str (sig e) seen); [apply IH|].
    rewrite IH, (IH _ ([] ++ [e])%list). now rewrite <- app_assoc.
Qed.

Lemma dedup_loop_append l l' :
  forall seen unique,
    dedup_loop (l ++ l') seen unique
    = dedup_loop l' (seen_after l seen) (dedup_loop l seen unique).
Proof.
  induction l as [|e l IH]; intros seen unique; cbn [app dedup_loop seen_after fold_left];
    [reflexivity|].
  destruct (mem_str (sig e) seen); apply IH.
Qed.

Lemma seen_after_In l :
  forall seen s, In s (seen_after l seen) <-> In s seen \/ In s (map sig l).
Proof.
  induction l as [|e l IH]; intros seen s; cbn [seen_after fold_left map In]; [tauto|].
  fold (seen_after l (if mem_str (sig e) seen then seen else sig e :: seen)).
  rewrite IH. destruct (mem_str (sig e) seen) eqn:E.
  - apply DedupFacts.mem_str_In in E. split; [tauto|].
    intros [H|[<-|H]]; tauto.
  - cbn [In]. tauto.
Qed.

Lemma mem_str_ext x l l' :
  (forall s, In s l <-> In s l') -> mem_str x l = mem_str x l'.
Proof.
  intros H. destruct (mem_str x l) eqn:E, (mem_str x l') eqn:E'; try reflexivity.
  - apply DedupFacts.mem_str_In, H, DedupFacts.mem_str_In in E. congruence.
  - apply DedupFacts.mem_str_In, H, DedupFacts.mem_str_In in E'. congruence.
Qed.

Lemma dedup_loop_distinct l :
  forall seen,
    NoDup (map sig l) -> (forall e, In e l -> ~ In (sig e) seen) ->
    dedup_loop l seen [] = l.
Proof.
  induction l as [|e l IH]; intros seen Hnd Hseen; cbn [dedup_loop]; [reflexivity|].
  cbn [map] in Hnd. inversion Hnd as [|? ? Hn Hnd']; subst.
  destruct (mem_str (sig e) seen) eqn:E.
  - apply DedupFacts.mem_str_In in E. exfalso. apply (Hseen e); [now left | assumption].
  - rewrite dedup_loop_app. cbn [app]. f_equal. apply IH; [assumption|].
    intros x Hx [Hs|Hs].
    + apply Hn. rewrite Hs. now apply in_map.
    + apply (Hseen x); [now right | assumption].
Qed.

Lemma unique_events_idem l : unique_events (unique_events l) = unique_events l.
Proof.
  unfold unique_events at 1. apply dedup_loop_distinct.
  - destruct (DedupFacts.dedup_loop_spec l [] []) as (H & _); [tauto | constructor | exact H].
  - intros e _ [].
Qed.

End SelectFacts.

(** ** Export and holiday weeks *)

Module ExportMoreFacts.
Import KeyFacts ClockFacts.

Section WithLibrary.
Variable ics_accepts : Cal.datetime -> Cal.datetime -> bool.

Lemma weekly_stamped event last holiday_weeks fuel :
  forall current c o,
    In o (weekly ics_accepts fuel event current last holiday_weeks c) ->
    In o c \/ stamped ics_accepts event o.
Proof.
  induction fuel as [|f IH]; intros current c o; cbn [weekly]; [now left|].
  destruct (current <=? last); [|now left].
  destruct (mem_Z _ _).
  - destruct (add_days current 7); [apply IH | now left].
  - match goal with |- context [Cal.strptime_datetime ?x] =>
      destruct (Cal.strptime_datetime x) as [b|] end; [|now left].
    match goal with |- context [Cal.strptime_datetime ?x] =>
      destruct (Cal.strptime_datetime x) as [e|] end; [|now left].
    destruct (ics_accepts b e) eqn:Ea; [|now left].
    assert (Hlast : forall o, In o (c ++ [Occurrence (ev_full_label event)
                                 (ev_location event) b e])%list ->
                      In o c \/ stamped ics_accepts event o).
    { intros o' Ho. apply in_app_iff in Ho. destruct Ho as [Ho|[<-|[]]]; [now left|].
      right. now repeat split. }
    destruct (add_days current 7); [|apply Hlast].
    intros H. apply IH in H. destruct H as [H|H]; [now apply Hlast | now right].
Qed.

Lemma add_event_stamped semester_start semester_end holiday_weeks event o :
  In o (add_event ics_accepts semester_start semester_end holiday_weeks [] event) ->
  stamped ics_accepts event o.
Proof.
  unfold add_event, add_single, add_recurring. destruct (ev_type event).
  - match goal with |- context [Cal.strptime_datetime ?x] =>
      destruct (Cal.strptime_datetime x) as [b|] end; [|intros []].
    match goal with |- context [Cal.strptime_datetime ?x] =>
      destruct (Cal.strptime_datetime x) as [e|] end; [|intros []].
    destruct (ics_accepts b e) eqn:Ea; [|intros []].
    intros [<-|[]]. now repeat split.
  - destruct (weekday_map _); [|intros []].
    destruct (advance _ _ _); try (intros []).
    intros H. apply weekly_stamped in H. now destruct H.
Qed.

(** The occurrence of a ONE_OFF record whose fields are well-formed. *)
Lemma add_single_well_formed event d :
  well_formed event = true -> ev_date event = Some d ->
  add_single ics_accepts event [] =
  match date_value d, clock_value (ev_start_time event),
        clock_value (ev_end_time event) with
  | Some n, Some (h1, m1), Some (h2, m2) =>
      if ics_accepts (Cal.DateTime n h1 m1) (Cal.DateTime n h2 m2)
      then [Occurrence (ev_full_label event) (ev_location event)
              (Cal.DateTime n h1 m1) (Cal.DateTime n h2 m2)]
      else []
  | _, _, _ => []
  end.
Proof.
  intros Hwf Hd. apply well_formed_fields in Hwf.
  destruct Hwf as (_ & _ & _ & Hs & He & _ & [[Hn _]|(d' & Hd' & _ & Hfull)]);
    [congruence|].
  rewrite Hd in Hd'. injection Hd' as <-.
  unfold add_single. rewrite Hd. cbn [fmt].
  destruct (strptime_full_date d Hfull) as [_ Hdt]. rewrite !Hdt.
  rewrite (parse_time_clock _ Hs), (parse_time_clock _ He).
  destruct (date_value d) as [n|]; [|reflexivity].
  destruct (clock_value (ev_start_time event)) as [[h1 m1]|]; [|reflexivity].
  destruct (clock_value (ev_end_time event)) as [[h2 m2]|]; reflexivity.
Qed.

Lemma emitted_length event holiday_weeks days :
  (List.length (emitted ics_accepts event holiday_weeks days) <= List.length days)%nat.
Proof.
  induction days as [|d rest IH]; cbn [emitted List.length]; [lia|].
  destruct (mem_Z _ _); [lia|].
  destruct (occurrence_on ics_accepts event d); cbn [List.length]; lia.
Qed.

Lemma stride_list_length n d : List.length (stride_list n d) = n.
Proof. revert d. induction n as [|n IH]; intros d; simpl; [reflexivity | now rewrite IH]. Qed.

(** One record gives at most one occurrence per week of the range, and at
    least room for one. *)
Lemma record_length event semester_start semester_end holiday_weeks :
  Cal.valid semester_start -> Cal.valid semester_end ->
  Z.of_nat (List.length (generate_ics ics_accepts [event] semester_start semester_end
                           holiday_weeks))
  <= Z.max 1 ((semester_end - semester_start) / 7 + 1).
Proof.
  intros Hs He. destruct (ev_type event) eqn:Ht.
  - rewrite ExportFacts.generate_ics_single by assumption. unfold add_single.
    match goal with |- context [Cal.strptime_datetime ?x] =>
      destruct (Cal.strptime_datetime x) end; [|simpl; lia].
    match goal with |- context [Cal.strptime_datetime ?x] =>
      destruct (Cal.strptime_datetime x) end; [|simpl; lia].
    destruct (ics_accepts _ _); simpl; lia.
  - rewrite ExportFacts.generate_ics_recurring by assumption.
    pose proof (emitted_length event holiday_weeks
                  (days_of event semester_start semester_end)) as Hl.
    assert (Z.of_nat (List.length (days_of event semester_start semester_end))
            <= Z.max 1 ((semester_end - semester_start) / 7 + 1)); [|lia].
    unfold days_of. destruct (weekday_map (ev_weekday event)) as [target|] eqn:Ew;
      [|simpl; lia].
    pose proof (LoopFacts.weekday_map_range _ _ Ew) as Hrange.
    destruct (LoopFacts.first_on_spec semester_start target Hrange) as (Hf & _ & _).
    unfold strides. rewrite stride_list_length. unfold stride_count.
    destruct (Z.leb_spec (first_on semester_start target) semester_end); [|simpl; lia].
    assert ((semester_end - first_on semester_start target) / 7
            <= (semester_end - semester_start) / 7)
      by (apply Z.div_le_mono; lia).
    assert (0 <= (semester_end - first_on semester_start target) / 7)
      by (apply Z.div_pos; lia).
    lia.
Qed.

End WithLibrary.

Lemma weekday_known d : mem_str d weekdays = true -> weekday_map d <> None.
Proof.
  intros H. apply DedupFacts.mem_str_In in H. simpl in H.
  repeat (destruct H as [<-|H]; [discriminate|]). destruct H.
Qed.

(** Holiday weeks. *)

Lemma detect_not_NoFuel events semester_start semester_end :
  detect_holiday_weeks events semester_start semester_end <> NoFuel.
Proof.
  unfold detect_holiday_weeks.
  destruct (fold_left scan_event events ([], false)) as [act found].
  destruct found; cbn [negb]; [|discriminate].
  pose proof (LoopFacts.holiday_loop_fuel semester_end act
                (walk_fuel semester_start semester_end) semester_start []) as H.
  destruct (holiday_loop _ _ _ _ _); try discriminate.
  apply H. unfold walk_fuel.
  pose proof (LoopFacts.stride_count_le semester_start semester_end). lia.
Qed.

Lemma detect_reversed events semester_start semester_end :
  semester_end < semester_start ->
  detect_holiday_weeks events semester_start semester_end = Ok [].
Proof.
  intros H. unfold detect_holiday_weeks.
  destruct (fold_left scan_event events ([], false)) as [act found].
  destruct found; cbn [negb]; [|reflexivity].
  unfold walk_fuel. cbn [holiday_loop].
  destruct (Z.leb_spec semester_start semester_end); [lia | reflexivity].
Qed.

End ExportMoreFacts.

(** ** The records of a text *)

Module RecordFacts.
Import Re ShapeFacts BlockFacts.

Lemma block_lines lines block l :
  In block (blocks lines) -> In l block -> In l lines.
Proof.
  intros Hb Hl. destruct (segment_spec lines) as (E & _). rewrite E.
  apply in_or_app. right. apply in_concat. now exists block.
Qed.

(** Every record of a text comes from one of its blocks; it is well-formed
    and carries the identifier and the cleaned title of the block's anchor. *)
Lemma extracted_shape text e :
  In e (extract_events text) ->
  well_formed e = true /\
  exists header id_match raw_title,
    In header (Str.split newline text) /\
    rmatch id_pattern header = Some id_match /\
    group id_match 1 = Some (ev_id e) /\
    group id_match 3 = Some raw_title /\
    Str.startswith header (ev_id e) = true /\
    ev_title e = clean_title_logic (ev_id e) raw_title.
Proof.
  rewrite extract_events_blocks. intros H. apply in_flat_map in H.
  destruct H as (block & Hb & He). apply process_event_block_shape in He.
  destruct He as (header & rest & m & course_id & raw_title & -> & Hm & E1 & E3
                  & Hpre & Hwf & <- & Ht).
  split; [exact Hwf|]. exists header, m, raw_title.
  repeat split; try assumption.
  apply (block_lines _ _ _ Hb). now left.
Qed.

End RecordFacts.

(** ** ISO week numbers and the detected range *)

Module WeekFacts.
Import Cal.

Lemma year_length y : 365 <= days_before_year (y + 1) - days_before_year y <= 366.
Proof.
  unfold days_before_year. cbv zeta.
  replace (y + 1 - 1) with (y - 1 + 1) by lia.
  generalize (y - 1). intros z. Z.div_mod_to_equations. lia.
Qed.

Lemma day_in_year n :
  days_before_year (year_of n) + 1 <= n <= days_before_year (year_of n) + 366.
Proof.
  pose proof (CalFacts.ord2ymd_spec n) as H. unfold year_of.
  destruct (ord2ymd n) as [[y m] d]. cbn [fst]. destruct H as (E & Hm & Hd).
  unfold ymd2ord in E. pose proof (CalFacts.dbm_bounds y m Hm).
  pose proof (CalFacts.dim_bounds y m Hm). lia.
Qed.

Lemma week1monday_spec year :
  days_before_year year - 2 <= isoweek1monday year <= days_before_year year + 4 /\
  (isoweek1monday year + 6) mod 7 = 0.
Proof.
  unfold isoweek1monday, ymd2ord. cbv zeta.
  change (days_before_month year 1) with 0.
  destruct (Z.ltb_spec 3 ((days_before_year year + 0 + 1 + 6) mod 7));
    Z.div_mod_to_equations; lia.
Qed.

(** An ISO week number lies between 1 and 53. *)
Lemma isoweek_range n : 1 <= isoweek n <= 53.
Proof.
  unfold isoweek. cbv zeta.
  pose proof (day_in_year n) as Hn. set (y := year_of n) in *.
  pose proof (week1monday_spec y) as [Ha Ma].
  pose proof (week1monday_spec (y - 1)) as [Hb Mb].
  pose proof (year_length (y - 1)) as Hy. replace (y - 1 + 1) with y in Hy by lia.
  set (a := isoweek1monday y) in *. set (b := isoweek1monday (y - 1)) in *.
  generalize (isoweek1monday (y + 1)). intros c.
  generalize dependent (days_before_year (y - 1)). intros p.
  generalize dependent (days_before_year y). intros q. intros.
  destruct (Z.ltb_spec ((n - a) / 7) 0).
  - Z.div_mod_to_equations. lia.
  - destruct (Z.leb_spec 52 ((n - a) / 7)).
    + destruct (c <=? n); Z.div_mod_to_equations; lia.
    + Z.div_mod_to_equations. lia.
Qed.

(** The weeks the walk reports are weeks of its strides that are not
    active. *)
Lemma holiday_loop_sound last active fuel :
  forall current acc hw,
    holiday_loop fuel current last active acc = Ok hw ->
    forall w, In w hw ->
      In w acc \/
      (mem_Z w active = false /\
       exists k, 0 <= k /\ current + 7 * k <= last /\ isoweek (current + 7 * k) = w).
Proof.
  induction fuel as [|f IH]; intros current acc hw; cbn [holiday_loop]; [discriminate|].
  destruct (Z.leb_spec current last) as [Hle|Hgt]; [|intros [= <-] w Hw; now left].
  unfold add_days. destruct (_ && _)%bool; [|discriminate].
  intros H w Hw. apply (IH _ _ _ H) in Hw. destruct Hw as [Hw|(Hm & k & Hk & Hl & E)].
  - destruct (mem_Z (isoweek current) active) eqn:Em; [now left|].
    apply in_app_iff in Hw. destruct Hw as [Hw|[<-|[]]]; [now left|].
    right. split; [assumption|]. exists 0. rewrite Z.mul_0_r, Z.add_0_r. repeat split; lia.
  - right. split; [assumption|]. exists (k + 1).
    replace (current + 7 * (k + 1)) with (current + 7 + 7 * k) by lia.
    repeat split; try assumption; lia.
Qed.

Lemma sorted_bounded l :
  StronglySorted Z.lt l ->
  forall lo hi, (forall x, In x l -> lo <= x <= hi) ->
                Z.of_nat (List.length l) <= Z.max 0 (hi - lo + 1).
Proof.
  induction 1 as [|a l Hs IH Ha]; intros lo hi Hb; [simpl; lia|].
  rewrite Forall_forall in Ha.
  assert (Hl : Z.of_nat (List.length l) <= Z.max 0 (hi - (a + 1) + 1)).
  { apply IH. intros x Hx. specialize (Ha x Hx).
    specialize (Hb x (or_intror Hx)). lia. }
  specialize (Hb a (or_introl eq_refl)). cbn [List.length]. lia.
Qed.

(** A result of the detection is sorted, and its weeks are weeks of the
    strides of the range that are not active. *)
Lemma detect_members events semester_start semester_end hw :
  detect_holiday_weeks events semester_start semester_end = Ok hw ->
  StronglySorted Z.lt hw /\
  forall w, In w hw ->
    ~ active_week events w /\
    exists k, 0 <= k /\ semester_start + 7 * k <= semester_end /\
              isoweek (semester_start + 7 * k) = w.
Proof.
  unfold detect_holiday_weeks.
  pose proof (LoopFacts.scan_spec events [] false) as Hscan. cbv zeta in Hscan.
  destruct (fold_left scan_event events ([], false)) as [act found].
  cbn [fst snd] in Hscan. destruct Hscan as [_ Ha].
  destruct found; cbn [negb].
  2:{ intros [= <-]. split; [constructor | intros w []]. }
  destruct (holiday_loop _ _ _ _ _) as [l| |] eqn:E; try discriminate.
  intros [= <-]. destruct (LoopFacts.sorted_list_set l) as [Hs Hin].
  split; [assumption|]. intros w Hw. apply Hin in Hw.
  destruct (holiday_loop_sound _ _ _ _ _ _ E w Hw) as [[]|(Hm & k & Hk & Hl & Ek)].
  split; [|now exists k].
  intros Hact. assert (In w act) as Hi by (apply Ha; now right).
  apply LoopFacts.mem_Z_In in Hi. congruence.
Qed.

Lemma fold_min_spec l : forall d,
  (fold_left Z.min l d = d \/ In (fold_left Z.min l d) l) /\
  fold_left Z.min l d <= d /\ forall x, In x l -> fold_left Z.min l d <= x.
Proof.
  induction l as [|a l IH]; intros d; cbn [fold_left].
  - split; [now left|]. split; [lia | intros x []].
  - destruct (IH (Z.min d a)) as ([E|Hin] & Hle & Hall). 
    + split; [|split; [lia|]].
      * rewrite E. destruct (Z.min_spec d a) as [[_ ->]|[_ ->]]; [now left | right; now left].
      * intros x [<-|Hx]; [lia | now apply Hall].
    + split; [right; now right|]. split; [lia|].
      intros x [<-|Hx]; [lia | now apply Hall].
Qed.

Lemma fold_max_spec l : forall d,
  (fold_left Z.max l d = d \/ In (fold_left Z.max l d) l) /\
  d <= fold_left Z.max l d /\ forall x, In x l -> x <= fold_left Z.max l d.
Proof.
  induction l as [|a l IH]; intros d; cbn [fold_left].
  - split; [now left|]. split; [lia | intros x []].
  - destruct (IH (Z.max d a)) as ([E|Hin] & Hle & Hall).
    + split; [|split; [lia|]].
      * rewrite E. destruct (Z.max_spec d a) as [[_ ->]|[_ ->]]; [right; now left | now left].
      * intros x [<-|Hx]; [lia | now apply Hall].
    + split; [right; now right|]. split; [lia|].
      intros x [<-|Hx]; [lia | now apply Hall].
Qed.

Lemma detected_range_spec events s e :
  detected_range events = Some (s, e) ->
  In s (found_dates events) /\ In e (found_dates events) /\
  forall d, In d (found_dates events) -> s <= d <= e.
Proof.
  unfold detected_range. destruct (found_dates events) as [|d rest]; [discriminate|].
  intros [= <- <-].
  destruct (fold_min_spec rest d) as ([E1|H1] & L1 & A1),
           (fold_max_spec rest d) as ([E2|H2] & L2 & A2).
  all: repeat split;
    try (rewrite ?E1, ?E2; now left); try (now right);
    try (destruct H as [<-|H]; [lia | first [now apply A1 | now apply A2]]).
Qed.

Lemma found_dates_In events d :
  In d (found_dates events) <->
  exists e a t, In e events /\ ev_date e = Some (String a t) /\
                Cal.strptime_date (String a t) = Some d.
Proof.
  unfold found_dates. rewrite in_flat_map. split.
  - intros (e & He & H). destruct (ev_date e) as [[|a t]|] eqn:Ed; try destruct H.
    destruct (Cal.strptime_date (String a t)) eqn:Es; [|destruct H].
    destruct H as [<-|[]]. now exists e, a, t.
  - intros (e & a & t & He & Ed & Es). exists e. split; [assumption|].
    rewrite Ed, Es. now left.
Qed.

End WeekFacts.

(** ** The two programs *)

Module AiFacts.

Lemma process_line_events course_id title t default_location line :
  map AiStudio.v_event (AiStudio.process_line course_id t default_location line)
  = map (retitle t) (process_line course_id title default_location line).
Proof.
  unfold AiStudio.process_line, process_line.
  destruct (Re.search time_pattern line) as [tm|]; [|reflexivity].
  destruct (Re.group tm 1), (Re.group tm 3), (Re.group tm 4); reflexivity.
Qed.

Lemma map_flat_map {A B C} (f : B -> C) (g : A -> list B) l :
  map f (flat_map g l) = flat_map (fun x => map f (g x)) l.
Proof. induction l as [|x l IH]; simpl; [reflexivity|]. now rewrite map_app, IH. Qed.

Lemma flat_map_ext_eq {A B} (f g : A -> list B) l :
  (forall x, f x = g x) -> flat_map f l = flat_map g l.
Proof. intros H. induction l as [|x l IH]; simpl; [reflexivity|]. now rewrite H, IH. Qed.

Lemma process_event_block_events block :
  map AiStudio.v_event (AiStudio.process_event_block block)
  = map (retitle (block_title block)) (process_event_block block).
Proof.
  unfold AiStudio.process_event_block, process_event_block, block_title.
  destruct block as [|header rest]; [reflexivity|].
  destruct (Re.rmatch id_pattern header) as [m|]; [|reflexivity].
  destruct (Re.group m 1) as [course_id|]; [|reflexivity].
  destruct (Re.group m 3) as [raw_title|]; [|reflexivity].
  cbv zeta. rewrite !map_flat_map. apply flat_map_ext_eq. intros line.
  apply process_line_events.
Qed.

Lemma ai_extract_loop_blocks lines :
  forall current events,
    AiStudio.extract_loop lines current events =
    (events ++
     match current with
     | [] => []
     | _ => AiStudio.process_event_block (current ++ preamble lines)
     end ++ flat_map AiStudio.process_event_block (blocks lines))%list.
Proof.
  induction lines as [|line rest IH]; intros current events.
  - simpl. rewrite !app_nil_r. destruct current; [now rewrite app_nil_r | reflexivity].
  - cbn [AiStudio.extract_loop]. unfold preamble, blocks. rewrite BlockFacts.segment_cons.
    unfold is_anchor. destruct (Re.rmatch id_pattern line) as [m|].
    + rewrite IH. cbn [fst snd flat_map]. rewrite app_nil_r.
      destruct current; cbn [app]; [reflexivity | now rewrite <- app_assoc].
    + cbn [fst snd]. destruct current as [|c current].
      * apply IH.
      * rewrite IH. rewrite <- app_assoc. cbn [app].
        destruct (current ++ [line])%list eqn:E; [now destruct current | reflexivity].
Qed.

Lemma Forall2_flat_map {A B C} (R : B -> C -> Prop) (f : A -> list B) (g : A -> list C) l :
  (forall x, In x l -> Forall2 R (f x) (g x)) ->
  Forall2 R (flat_map f l) (flat_map g l).
Proof.
  induction l as [|x l IH]; intros H; simpl; [constructor|].
  apply Forall2_app; [apply H; now left | apply IH; intros y Hy; apply H; now right].
Qed.

Lemma map_eq_Forall2 {A B C} (f : A -> C) (g : B -> C) l1 :
  forall l2, map f l1 = map g l2 ->
             Forall2 (fun a b => f a = g b /\ In b l2) l1 l2.
Proof.
  induction l1 as [|a l1 IH]; intros [|b l2] E; try discriminate; [constructor|].
  injection E as E1 E2. constructor; [split; [assumption | now left]|].
  eapply Forall2_impl; [|apply IH, E2]. cbv beta. intros x y [H1 H2].
  split; [assumption | now right].
Qed.

Lemma block_title_no_hyphen block : Str.contains "-" (block_title block) = false.
Proof.
  unfold block_title. destruct block as [|header rest]; [reflexivity|].
  destruct (Re.rmatch id_pattern header) as [m|]; [|reflexivity].
  destruct (Re.group m 3); [apply TextFacts.clean_title_string_no_hyphen | reflexivity].
Qed.

Lemma retitle_same t e : same_session (retitle t e) e.
Proof. reflexivity. Qed.

Lemma retitle_own e :
  ev_full_label e = ev_id e ++ " " ++ ev_title e -> retitle (ev_title e) e = e.
Proof. destruct e. unfold retitle. cbn. now intros ->. Qed.

(** Time slots. *)

Lemma same_length_prefix a1 a2 b1 b2 :
  String.length a1 = String.length a2 ->
  a1 ++ b1 = a2 ++ b2 -> a1 = a2 /\ b1 = b2.
Proof.
  revert a2. induction a1 as [|c a1 IH]; intros [|c2 a2]; simpl; try discriminate.
  - now split.
  - intros [= Hl] [= -> E]. destruct (IH _ Hl E) as [-> ->]. now split.
Qed.

Lemma replace_length a b s : String.length (Str.replace a b s) = String.length s.
Proof. induction s as [|c s IH]; simpl; [reflexivity | now rewrite IH]. Qed.

(** The signature of a variant is built from its weekday, its times as the
    listing writes them, and its location. *)
Lemma process_line_signature course_id title default_location line v :
  In v (AiStudio.process_line course_id title default_location line) ->
  exists start_time end_time,
    AiStudio.v_signature v = signature (ev_weekday (AiStudio.v_event v)) start_time end_time
                      (ev_location (AiStudio.v_event v)) /\
    String.length (ev_weekday (AiStudio.v_event v)) = 2%nat /\
    String.length start_time = 5%nat /\ String.length end_time = 5%nat /\
    ev_start_time (AiStudio.v_event v) = Str.replace "." ":" start_time /\
    ev_end_time (AiStudio.v_event v) = Str.replace "." ":" end_time.
Proof.
  unfold AiStudio.process_line.
  destruct (Re.search time_pattern line) as [tm|] eqn:E; [|intros []].
  apply SemFacts.search_sound in E. destruct E as (pre & _ & Hd).
  apply ShapeFacts.time_pattern_shape in Hd.
  destruct Hd as (wd & st & et & E1 & Hwd & E3 & Hst & E4 & Het & _).
  unfold Re.group. rewrite E1, E3, E4. intros [<-|[]].
  cbn [AiStudio.v_signature AiStudio.v_event ev_weekday ev_location ev_start_time ev_end_time].
  exists st, et. apply KeyFacts.clock_length in Hst, Het.
  rewrite replace_length in Hst, Het.
  apply (proj2 (DedupFacts.mem_str_In _ _)), KeyFacts.weekday_length in Hwd.
  destruct Hwd as [Hwd _]. now repeat split.
Qed.

Lemma extracted_signature text v :
  In v (AiStudio.extract_events text) ->
  exists start_time end_time,
    AiStudio.v_signature v = signature (ev_weekday (AiStudio.v_event v)) start_time end_time
                      (ev_location (AiStudio.v_event v)) /\
    String.length (ev_weekday (AiStudio.v_event v)) = 2%nat /\
    String.length start_time = 5%nat /\ String.length end_time = 5%nat /\
    ev_start_time (AiStudio.v_event v) = Str.replace "." ":" start_time /\
    ev_end_time (AiStudio.v_event v) = Str.replace "." ":" end_time.
Proof.
  unfold AiStudio.extract_events. rewrite ai_extract_loop_blocks. cbn [app].
  intros H. apply in_flat_map in H. destruct H as (block & _ & H).
  unfold AiStudio.process_event_block in H.
  destruct block as [|header rest]; [destruct H|].
  destruct (Re.rmatch id_pattern header) as [m|]; [|destruct H].
  destruct (Re.group m 1) as [course_id|]; [|destruct H].
  destruct (Re.group m 3) as [raw_title|]; [|destruct H].
  cbv zeta in H. apply in_flat_map in H. destruct H as (line & _ & H).
  now apply process_line_signature in H.
Qed.

Lemma signature_inj w1 s1 e1 l1 w2 s2 e2 l2 :
  String.length w1 = 2%nat -> String.length w2 = 2%nat ->
  String.length s1 = 5%nat -> String.length s2 = 5%nat ->
  String.length e1 = 5%nat -> String.length e2 = 5%nat ->
  signature w1 s1 e1 l1 = signature w2 s2 e2 l2 ->
  w1 = w2 /\ s1 = s2 /\ e1 = e2 /\ l1 = l2.
Proof.
  unfold signature. intros Hw1 Hw2 Hs1 Hs2 He1 He2 E.
  apply same_length_prefix in E; [|congruence]. destruct E as [-> E].
  injection E as E. apply same_length_prefix in E; [|congruence]. destruct E as [-> E].
  injection E as E. apply same_length_prefix in E; [|congruence]. destruct E as [-> E].
  injection E as E. now repeat split.
Qed.

(** The first variant of every time slot. *)

Lemma firsts_ext seen seen' variants :
  (forall s, In s seen <-> In s seen') -> firsts seen variants = firsts seen' variants.
Proof.
  revert seen seen'. induction variants as [|v rest IH]; intros seen seen' H;
    cbn [firsts]; [reflexivity|].
  rewrite (SelectFacts.mem_str_ext _ _ _ H).
  destruct (mem_str (AiStudio.v_signature v) seen'); [now apply IH|].
  f_equal. apply IH. intros s. cbn [In]. now rewrite H.
Qed.

Lemma slot_loop_firsts variants :
  forall slots,
    map snd (AiStudio.slot_loop variants slots)
    = (map snd slots ++ firsts (map fst slots) variants)%list.
Proof.
  induction variants as [|v rest IH]; intros slots; cbn [AiStudio.slot_loop firsts].
  - now rewrite app_nil_r.
  - destruct (mem_str (AiStudio.v_signature v) (map fst slots)); [apply IH|].
    rewrite IH, !map_app, <- app_assoc. cbn [map fst snd app]. do 2 f_equal.
    apply firsts_ext. intros s. rewrite in_app_iff. cbn [In]. tauto.
Qed.

Lemma slot_list_firsts variants : AiStudio.slot_list variants = firsts [] variants.
Proof. unfold AiStudio.slot_list. now rewrite slot_loop_firsts. Qed.

Lemma firsts_spec variants :
  forall seen,
    (forall v, In v (firsts seen variants) -> In v variants /\ ~ In (AiStudio.v_signature v) seen) /\
    NoDup (map AiStudio.v_signature (firsts seen variants)) /\
    (forall v, In v variants ->
       In (AiStudio.v_signature v) seen \/
       exists v', In v' (firsts seen variants) /\ AiStudio.v_signature v' = AiStudio.v_signature v).
Proof.
  induction variants as [|v rest IH]; intros seen; cbn [firsts].
  - split; [intros v []|]. split; [constructor | intros v []].
  - destruct (mem_str (AiStudio.v_signature v) seen) eqn:E.
    + destruct (IH seen) as (H1 & H2 & H3). split; [|split].
      * intros x Hx. apply H1 in Hx. split; [now right | tauto].
      * assumption.
      * intros x [<-|Hx]; [left; now apply DedupFacts.mem_str_In | now apply H3].
    + assert (Hn : ~ In (AiStudio.v_signature v) seen).
      { intros Hin. apply DedupFacts.mem_str_In in Hin. congruence. }
      destruct (IH (AiStudio.v_signature v :: seen)) as (H1 & H2 & H3). split; [|split].
      * intros x [<-|Hx]; [split; [now left | assumption]|].
        apply H1 in Hx. cbn [In] in Hx. split; [now right | tauto].
      * cbn [map]. constructor; [|assumption]. intros Hin.
        apply in_map_iff in Hin. destruct Hin as (x & Ex & Hx).
        apply H1 in Hx. cbn [In] in Hx. intuition congruence.
      * intros x [<-|Hx]; [right; exists v; split; [now left | reflexivity]|].
        destruct (H3 x Hx) as [[Hs|Hs]|(x' & Hx' & Es)].
        -- right. exists v. split; [now left | assumption].
        -- now left.
        -- right. exists x'. split; [now right | assumption].
Qed.

Lemma firsts_nil seen variants :
  firsts seen variants = [] <-> forall v, In v variants -> In (AiStudio.v_signature v) seen.
Proof.
  induction variants as [|v rest IH]; cbn [firsts]; [split; [intros _ ? [] | reflexivity]|].
  destruct (mem_str (AiStudio.v_signature v) seen) eqn:E.
  - rewrite IH. apply DedupFacts.mem_str_In in E. split.
    + intros H x [<-|Hx]; [assumption | now apply H].
    + intros H x Hx. apply H. now right.
  - split; [discriminate|]. intros H. exfalso.
    assert (In (AiStudio.v_signature v) seen) as Hin by (apply H; now left).
    apply DedupFacts.mem_str_In in Hin. congruence.
Qed.

End AiFacts.

(** * The claims *)

(** C1 does not hold of the code.  The listing [ex_no_such_day_text] has
    one ONE_OFF session, dated 31.02.2024, a day that no calendar has.  Its
    date does not parse, so the set of ISO weeks of the parsed ONE_OFF dates
    is empty; the holiday set is not: [single_events_found] is set before
    the date is read, the walk over the range is taken, and every week of
    the range is reported as a holiday week.  A weekly session exported with
    this holiday set has no occurrence at all. *)
Theorem C1_failing_input :
  extract_events ex_no_such_day_text = [ex_no_such_day] /\
  existsb one_off (extract_events ex_no_such_day_text) = true /\
  (forall w, ~ active_week (extract_events ex_no_such_day_text) w) /\
  fst (fold_left scan_event (extract_events ex_no_such_day_text) ([], false)) = [] /\
  detect_holiday_weeks (extract_events ex_no_such_day_text) ex_start ex_end
  = Ok [1; 2; 3; 4; 5; 6] /\
  generate_ics accept_all [ex_lecture] ex_start ex_end [1; 2; 3; 4; 5; 6] = [].
Proof.
  assert (E : extract_events ex_no_such_day_text = [ex_no_such_day]) by reflexivity.
  rewrite E. repeat split.
  intros w (e & [<-|[]] & Hw). discriminate.
Qed.

(** C2, as stated, fails: a RECURRING record whose times do not parse has
    no occurrence, on none of the strides of its weekday.  Nor has a
    readable record in a year before 1000: [strftime] writes the date of a
    stride with a year of fewer than four digits, which [strptime] refuses. *)
Lemma C2_counterexample :
  process_event_block ["1.3 Modul X"; "Di 25:00-26:00"] = [ex_late] /\
  ev_type ex_late = recurring /\
  map Cal.isoweek (days_of ex_late ex_start ex_end) = [1; 2; 3; 4; 5; 6] /\
  generate_ics accept_all [ex_late] ex_start ex_end [3] = [] /\
  Cal.strftime_dmY (Cal.ymd2ord 999 1 1) = "01.01.999" /\
  generate_ics accept_all [ex_lecture] (Cal.ymd2ord 999 1 1) (Cal.ymd2ord 999 2 11) [] = [].
Proof. repeat split. Qed.

(** C2, amended. For every RECURRING record whose weekday abbreviation is
    one of Mo..So, whose start and end time parse and whose datetimes the
    calendar library takes, and for every semester range of dates from
    1 January 1000 on: the expansion starts on the first day from the
    semester start on that falls on the record's weekday, goes on in 7-day
    strides through the semester end inclusive, and has exactly one
    occurrence, with the record's label, location and times, on every stride
    whose ISO week is not a holiday week. *)
Theorem C2_recurring_expansion (ics_accepts : Cal.datetime -> Cal.datetime -> bool)
    (event : event) (semester_start semester_end : Z) (holiday_weeks : list Z)
    (target h1 m1 h2 m2 : Z) :
  ev_type event = recurring ->
  weekday_map (ev_weekday event) = Some target ->
  Cal.parse_time (ev_start_time event) = Some (h1, m1) ->
  Cal.parse_time (ev_end_time event) = Some (h2, m2) ->
  (forall d, ics_accepts (Cal.DateTime d h1 m1) (Cal.DateTime d h2 m2) = true) ->
  Cal.ymd2ord 1000 1 1 <= semester_start ->
  Cal.valid semester_start -> Cal.valid semester_end ->
  let first := first_on semester_start target in
  (semester_start <= first <= semester_start + 6 /\
   Cal.weekday first = target /\
   forall d, semester_start <= d < first -> Cal.weekday d <> target)
  /\
  generate_ics ics_accepts [event] semester_start semester_end holiday_weeks
  = map (fun d => Occurrence (ev_full_label event) (ev_location event)
                    (Cal.DateTime d h1 m1) (Cal.DateTime d h2 m2))
        (filter (fun d => negb (mem_Z (Cal.isoweek d) holiday_weeks))
                (strides first semester_end)).
Proof.
  intros Ht Hw Hst Hen Hacc Hyear Hs He. cbv zeta.
  pose proof (LoopFacts.first_on_spec semester_start target
                (LoopFacts.weekday_map_range _ _ Hw)) as Hfirst.
  split; [exact Hfirst|].
  rewrite ExportFacts.generate_ics_recurring by assumption.
  unfold days_of. rewrite Hw. apply ExportFacts.emitted_all.
  intros d Hd. apply LoopFacts.In_strides in Hd. destruct Hd as (k & Hk & -> & _).
  assert (Hd : Cal.ymd2ord 1000 1 1 <= first_on semester_start target + 7 * k) by lia.
  apply CalFacts.year_from_1000, Z.leb_le in Hd.
  unfold occurrence_on. rewrite Hd, Hst, Hen. cbv zeta. now rewrite Hacc.
Qed.

Lemma C2_recurring_expansion_witness :
  let c := generate_ics accept_all [ex_lecture] ex_start ex_end [3] in
  map Cal.isoweek (strides ex_start ex_end) = [1; 2; 3; 4; 5; 6] /\
  List.length c = 5%nat /\
  map (fun o => Cal.isoweek (Cal.dt_date (o_begin o))) c = [1; 2; 4; 5; 6] /\
  c = map (fun d => Occurrence "1.3 Modul X" "Raum 1.02"
                      (Cal.DateTime d 14 0) (Cal.DateTime d 16 0))
          (filter (fun d => negb (mem_Z (Cal.isoweek d) [3]))
                  (strides (first_on ex_start 1) ex_end)).
Proof.
  cbv zeta. split; [reflexivity|]. split; [reflexivity|]. split; [reflexivity|].
  apply (C2_recurring_expansion accept_all ex_lecture ex_start ex_end [3] 1 14 0 16 0);
    try reflexivity.
  - discriminate.
  - unfold Cal.valid, Cal.MINORD, Cal.MAXORD, ex_start. cbn. lia.
  - unfold Cal.valid, Cal.MINORD, Cal.MAXORD, ex_end. cbn. lia.
Defined.

(** C3. When a ONE_OFF date parses, the walk over the semester range in
    7-day strides from its start returns the strictly increasing list of the
    stride weeks that hold no ONE_OFF session.  The range is one of
    [datetime.date] whose strides stay within [date.max]. *)
Theorem C3_holiday_weeks (events : list event) (semester_start semester_end : Z) :
  (exists w, active_week events w) ->
  Cal.valid semester_start -> semester_end + 7 <= Cal.MAXORD ->
  exists hw,
    detect_holiday_weeks events semester_start semester_end = Ok hw /\
    StronglySorted Z.lt hw /\
    forall w, In w hw <->
      (exists k, 0 <= k /\ semester_start + 7 * k <= semester_end
                 /\ Cal.isoweek (semester_start + 7 * k) = w)
      /\ ~ active_week events w.
Proof.
  intros [w0 Hact] [Hs _] He.
  destruct (HolidayFacts.detect_walk events _ _
              (HolidayFacts.existsb_one_off _ _ Hact) Hs He) as (hw & E & Hsort & Hin).
  exists hw. repeat split; try assumption.
  - apply Hin in H. destruct H as [(d & Hd & Hw) _].
    apply LoopFacts.In_strides in Hd. destruct Hd as (k & Hk & -> & Hle). now exists k.
  - now apply Hin in H.
  - intros [(k & Hk & Hle & Hw) Hn]. apply Hin. split; [|assumption].
    exists (semester_start + 7 * k). split; [|assumption].
    apply LoopFacts.In_strides. now exists k.
Qed.

Lemma C3_holiday_weeks_witness :
  map parsed_week ex_dated = [Some 2; None; Some 4; Some 6] /\
  map Cal.isoweek (strides ex_start ex_end) = [1; 2; 3; 4; 5; 6] /\
  detect_holiday_weeks ex_dated ex_start ex_end = Ok [1; 3; 5] /\
  exists hw,
    detect_holiday_weeks ex_dated ex_start ex_end = Ok hw /\
    StronglySorted Z.lt hw /\
    forall w, In w hw <->
      (exists k, 0 <= k /\ ex_start + 7 * k <= ex_end /\ Cal.isoweek (ex_start + 7 * k) = w)
      /\ ~ active_week ex_dated w.
Proof.
  split; [reflexivity|]. split; [reflexivity|]. split; [reflexivity|].
  apply (C3_holiday_weeks ex_dated ex_start ex_end).
  - exists 2, (one_off_on "08.01.2024"). split; [now left | reflexivity].
  - unfold Cal.valid, Cal.MINORD, Cal.MAXORD, ex_start. cbn. lia.
  - unfold Cal.MAXORD, ex_end. cbn. lia.
Defined.

(** C4. Depth-sensitive title cleaning: with exactly one dot in the
    identifier and a hyphen in the raw title, the cleaned title is the
    trimmed text before the first hyphen; with two or more dots it is the
    trimmed raw title, hyphens or not. *)
Theorem C4_depth_sensitive_title (identifier raw_title : string) :
  (Str.count "." identifier = 1 -> Str.contains "-" raw_title = true ->
   exists pre post,
     raw_title = pre ++ String "-" post /\ Str.contains "-" pre = false /\
     clean_title_logic identifier raw_title = Str.strip pre)
  /\
  (2 <= Str.count "." identifier ->
   clean_title_logic identifier raw_title = Str.strip raw_title).
Proof.
  unfold clean_title_logic. cbv zeta. split.
  - intros Hdots Hhyphen. rewrite Hdots, Hhyphen. cbn [Z.eqb Pos.eqb].
    destruct (StrFacts.contains_first _ _ Hhyphen) as (pre & post & E & Hpre).
    exists pre, post. repeat split; try assumption.
    rewrite E. now rewrite StrFacts.split_head.
  - intros Hdots. destruct (Z.eqb_spec (Str.count "." identifier) 1); [lia | reflexivity].
Qed.

Lemma C4_depth_sensitive_title_witness :
  (exists pre post,
     "Modul X - lang" = pre ++ String "-" post /\ Str.contains "-" pre = false /\
     clean_title_logic "1.3" "Modul X - lang" = Str.strip pre)
  /\ clean_title_logic "1.3" "Modul X - lang" = "Modul X"
  /\ clean_title_logic "1.3.1" "Seminar A - Gruppe 2" = "Seminar A - Gruppe 2".
Proof.
  split; [|split].
  - exact (proj1 (C4_depth_sensitive_title "1.3" "Modul X - lang") eq_refl eq_refl).
  - reflexivity.
  - rewrite (proj2 (C4_depth_sensitive_title "1.3.1" "Seminar A - Gruppe 2"));
      [reflexivity | discriminate].
Defined.

(** C5, as stated, fails: the weekday of a ONE_OFF record is not looked at,
    so a ONE_OFF record with an unknown weekday has its occurrence. *)
Lemma C5_counterexample :
  weekday_map (ev_weekday ex_odd_day) = None /\
  generate_ics accept_all [ex_odd_day] ex_start ex_end []
  = [Occurrence "1.3.1 Seminar A" "Aula"
       (Cal.DateTime (Cal.ymd2ord 2024 1 5) 10 0)
       (Cal.DateTime (Cal.ymd2ord 2024 1 5) 12 0)].
Proof. split; reflexivity. Qed.

(** C5, amended. A RECURRING record whose weekday abbreviation is not one of
    Mo..So, or a record whose date and time strings (the ones its kind uses)
    fail to parse, contributes no occurrence, and the calendar of the batch
    is the calendar of the batch without the record.  [generate_ics] is a
    total function: every exception of a record ends inside its [try]. *)
Theorem C5_error_containment (ics_accepts : Cal.datetime -> Cal.datetime -> bool)
    (before after : list event) (bad : event)
    (semester_start semester_end : Z) (holiday_weeks : list Z) :
  unreadable bad ->
  Cal.valid semester_start -> Cal.valid semester_end ->
  generate_ics ics_accepts [bad] semester_start semester_end holiday_weeks = []
  /\
  generate_ics ics_accepts (before ++ bad :: after)
               semester_start semester_end holiday_weeks
  = generate_ics ics_accepts (before ++ after)
                 semester_start semester_end holiday_weeks.
Proof.
  intros Hbad Hs He.
  assert (Hnone : generate_ics ics_accepts [bad] semester_start semester_end
                    holiday_weeks = []).
  { unfold unreadable in Hbad. destruct (ev_type bad) eqn:Ht.
    - rewrite ExportFacts.generate_ics_single by assumption. unfold add_single.
      destruct Hbad as [H|H].
      + now rewrite H.
      + rewrite H.
        match goal with |- context [Cal.strptime_datetime ?x] =>
          destruct (Cal.strptime_datetime x) end; reflexivity.
    - rewrite ExportFacts.generate_ics_recurring by assumption.
      destruct Hbad as [H|H].
      + unfold days_of. now rewrite H.
      + apply ExportFacts.emitted_none. intros d. unfold occurrence_on.
        destruct (1000 <=? Cal.year_of d); [|reflexivity].
        destruct H as [H|H]; rewrite H; [reflexivity|].
        now destruct (Cal.parse_time (ev_start_time bad)) as [[? ?]|]. }
  split; [exact Hnone|].
  rewrite !(LoopFacts.generate_ics_flat_map ics_accepts).
  rewrite !flat_map_app. cbn [flat_map]. now rewrite Hnone.
Qed.

Lemma C5_error_containment_witness :
  unreadable ex_late /\
  generate_ics accept_all [ex_late] ex_start ex_end [3] = [] /\
  generate_ics accept_all ([ex_lecture] ++ ex_late :: [ex_seminar]) ex_start ex_end [3]
  = generate_ics accept_all ([ex_lecture] ++ [ex_seminar]) ex_start ex_end [3].
Proof.
  assert (H : unreadable ex_late) by (right; now left).
  split; [exact H|].
  apply (C5_error_containment accept_all [ex_lecture] [ex_seminar] ex_late
           ex_start ex_end [3] H).
  - unfold Cal.valid, Cal.MINORD, Cal.MAXORD, ex_start. cbn. lia.
  - unfold Cal.valid, Cal.MINORD, Cal.MAXORD, ex_end. cbn. lia.
Defined.

(** C6, as stated, fails: records that differ in [end_time] and in
    [location] do collapse, because the key holds neither. *)
Lemma C6_counterexample :
  ev_end_time ex_short <> ev_end_time ex_long /\
  ev_location ex_short <> ev_location ex_long /\
  signature (ev_weekday ex_short) (ev_start_time ex_short)
            (ev_end_time ex_short) (ev_location ex_short)
  <> signature (ev_weekday ex_long) (ev_start_time ex_long)
               (ev_end_time ex_long) (ev_location ex_long) /\
  sig ex_short = sig ex_long /\
  unique_events [ex_short; ex_long] = [ex_short].
Proof. repeat split; discriminate. Qed.

(** C6, amended. The key of the deduplication before the export is
    (identifier, title, weekday, start_time, date): records that agree on
    these five collapse to the first of them, whatever their end times and
    locations, and the output has exactly one record of that key. *)
Theorem C6_dedup_key (events : list event) (a b : event) :
  ev_id a = ev_id b -> ev_title a = ev_title b -> ev_weekday a = ev_weekday b ->
  ev_start_time a = ev_start_time b -> ev_date a = ev_date b ->
  unique_events [a; b] = [a] /\
  (In a events -> In b events ->
   exists e, In e (unique_events events) /\ sig e = sig a /\
     forall e', In e' (unique_events events) -> sig e' = sig b -> e' = e).
Proof.
  intros Hid Htitle Hday Hstart Hdate.
  assert (Hsig : sig a = sig b) by (unfold sig; congruence).
  split.
  - unfold unique_events. cbn. rewrite <- Hsig, String.eqb_refl. reflexivity.
  - intros Ha Hb.
    destruct (DedupFacts.dedup_loop_spec events [] []) as (Hnd & _ & Hrep).
    + intros s. tauto.
    + constructor.
    + destruct (Hrep a Ha) as (e & He & Hse). exists e. repeat split; try assumption.
      intros e' He' Hse'. apply (DedupFacts.NoDup_map_eq sig _ _ _ Hnd He' He). congruence.
Qed.

Lemma C6_dedup_key_witness :
  unique_events [ex_short; ex_long] = [ex_short] /\
  exists e, In e (unique_events [ex_long; ex_lecture; ex_short]) /\ sig e = sig ex_long /\
    forall e', In e' (unique_events [ex_long; ex_lecture; ex_short]) ->
               sig e' = sig ex_short -> e' = e.
Proof.
  destruct (C6_dedup_key [ex_long; ex_lecture; ex_short] ex_long ex_short
              eq_refl eq_refl eq_refl eq_refl eq_refl) as [_ H].
  split.
  - exact (proj1 (C6_dedup_key [] ex_short ex_long eq_refl eq_refl eq_refl eq_refl eq_refl)).
  - apply H; [now left | right; right; now left].
Defined.

(** C7, as stated, fails: without a location marker in the line or the
    block the location is ["TBA"], not ["unknown location"]. *)
Lemma C7_counterexample :
  Re.search loc_pattern (Str.join (String newline "") ex_block) = None /\
  map ev_location (process_event_block ex_block) = ["TBA"] /\
  "TBA" <> "unknown location".
Proof. repeat split. discriminate. Qed.

(** C7, amended. The records of a block are the records of its session
    lines, one for each and in the order of the lines.  The location of the
    record of a session line is the first location marker of that line;
    without one in the line, the first marker of the joined block text;
    without one in the block either, the sentinel ["TBA"]. *)
Theorem C7_location_resolution (header : string) (rest : list string) :
  is_anchor header = true ->
  let block_lines := header :: rest in
  let block_text := Str.join (String newline "") block_lines in
  Forall2 (fun line e =>
             located line (ev_location e)
             \/ (no_location line /\ located block_text (ev_location e))
             \/ (no_location line /\ no_location block_text /\ ev_location e = "TBA"))
          (filter is_session block_lines) (process_event_block block_lines).
Proof.
  unfold is_anchor. intros H. cbv zeta. unfold process_event_block.
  destruct (Re.rmatch id_pattern header) as [id_match|] eqn:E; [|discriminate].
  unfold Re.rmatch in E. apply SemFacts.match_at_sound in E.
  destruct E as [Hd _]. apply ShapeFacts.id_pattern_shape in Hd.
  destruct Hd as (course_id & raw_title & E1 & E3 & _).
  unfold Re.group. rewrite E1, E3. cbv zeta.
  eapply Forall2_impl; [|apply ShapeFacts.block_locations].
  cbv beta. intros line e Hloc. rewrite Hloc.
  destruct (LocationFacts.location_in_spec line
              (location_in (Str.join (String newline "") (header :: rest)) "TBA"))
    as [Hl|[Hno Hl]]; [now left|].
  rewrite Hl. right.
  destruct (LocationFacts.location_in_spec (Str.join (String newline "") (header :: rest)) "TBA")
    as [Hb|[Hno' Hb]]; [left; now split | right; now repeat split].
Qed.

Lemma C7_location_resolution_witness :
  map ev_location (process_event_block ex_located_block) = ["Raum 1.02"; "Raum 1.02"; "Aula B"] /\
  filter is_session ex_located_block
  = ["Fr 10:00-12:00"; "Di 14:00-16:00 Raum 1.02"; "Mi 08:00-10:00 Aula B"] /\
  Forall2 (fun line e =>
             located line (ev_location e)
             \/ (no_location line
                 /\ located (Str.join (String newline "") ex_located_block) (ev_location e))
             \/ (no_location line
                 /\ no_location (Str.join (String newline "") ex_located_block)
                 /\ ev_location e = "TBA"))
          (filter is_session ex_located_block) (process_event_block ex_located_block).
Proof.
  split; [reflexivity|]. split; [reflexivity|].
  apply (C7_location_resolution "1.3 Modul X"
           ["Fr 10:00-12:00"; "Di 14:00-16:00 Raum 1.02"; "Mi 08:00-10:00 Aula B"]).
  reflexivity.
Defined.




(** C9. Prefix-filter round trip: filtering the collection by a record's own
    identifier returns that record, alone as a query or among others. *)
Theorem C9_prefix_filter_round_trip (all_events : list event) (e : event)
    (ids : list string) :
  In e all_events ->
  In e (matches all_events (ev_id e)) /\
  (In (ev_id e) ids -> In e (matched_events all_events ids)).
Proof.
  intros Hin.
  assert (H : In e (matches all_events (ev_id e))).
  { unfold matches. apply filter_In. split; [assumption | apply StrFacts.startswith_refl]. }
  split; [exact H|]. intros Hid. unfold matched_events. apply in_flat_map.
  exists (ev_id e). now split.
Qed.

Lemma C9_prefix_filter_round_trip_witness :
  In ex_seminar [ex_lecture; ex_seminar] /\
  In ex_seminar (matches [ex_lecture; ex_seminar] "1.3.1") /\
  In ex_seminar (matched_events [ex_lecture; ex_seminar] (search_ids "4.2, 1.3.1")).
Proof.
  assert (Hin : In ex_seminar [ex_lecture; ex_seminar]) by (right; now left).
  split; [exact Hin|]. split.
  - exact (proj1 (C9_prefix_filter_round_trip _ ex_seminar [] Hin)).
  - apply (proj2 (C9_prefix_filter_round_trip _ ex_seminar
                    (search_ids "4.2, 1.3.1") Hin)).
    right. now left.
Defined.

(** C10. Invariant of the recurring expansion: every occurrence of a
    RECURRING record with a known weekday falls on that weekday, on a day of
    the semester range whose ISO week is not a holiday week, and begins and
    ends on the same day; any two occurrences of the record lie a whole
    number of weeks apart.  (Nothing is assumed of the times: a record whose
    times do not parse has no occurrence.) *)
Theorem C10_recurring_invariant (ics_accepts : Cal.datetime -> Cal.datetime -> bool)
    (event : event) (semester_start semester_end : Z) (holiday_weeks : list Z)
    (target : Z) :
  ev_type event = recurring ->
  weekday_map (ev_weekday event) = Some target ->
  Cal.valid semester_start -> Cal.valid semester_end ->
  let c := generate_ics ics_accepts [event] semester_start semester_end holiday_weeks in
  (forall o, In o c ->
     let d := Cal.dt_date (o_begin o) in
     Cal.dt_date (o_end o) = d /\
     Cal.weekday d = target /\
     semester_start <= d <= semester_end /\
     ~ In (Cal.isoweek d) holiday_weeks)
  /\
  (forall o1 o2, In o1 c -> In o2 c ->
     exists k, Cal.dt_date (o_begin o1) - Cal.dt_date (o_begin o2) = 7 * k).
Proof.
  intros Ht Hw Hs He. cbv zeta.
  rewrite ExportFacts.generate_ics_recurring by assumption.
  assert (Hocc : forall o,
             In o (emitted ics_accepts event holiday_weeks
                     (days_of event semester_start semester_end)) ->
             Cal.dt_date (o_end o) = Cal.dt_date (o_begin o) /\
             In (Cal.dt_date (o_begin o)) (days_of event semester_start semester_end) /\
             mem_Z (Cal.isoweek (Cal.dt_date (o_begin o))) holiday_weeks = false).
  { intros o Ho. apply ExportFacts.In_emitted in Ho. destruct Ho as (d & Hd & Hhol & Ho).
    apply ExportFacts.occurrence_on_date in Ho. destruct Ho as [-> ->]. now repeat split. }
  split.
  - intros o Ho. destruct (Hocc o Ho) as (Hend & Hday & Hhol).
    destruct (ExportFacts.In_days_of _ _ _ _ _ Hw Hday) as (Hwd & Hrange & _).
    repeat split; try assumption; try lia.
    intros Hin. apply LoopFacts.mem_Z_In in Hin. congruence.
  - intros o1 o2 H1 H2.
    destruct (Hocc o1 H1) as (_ & Hd1 & _). destruct (Hocc o2 H2) as (_ & Hd2 & _).
    destruct (ExportFacts.In_days_of _ _ _ _ _ Hw Hd1) as (_ & _ & k1 & _ & E1).
    destruct (ExportFacts.In_days_of _ _ _ _ _ Hw Hd2) as (_ & _ & k2 & _ & E2).
    exists (k1 - k2). lia.
Qed.

Lemma C10_recurring_invariant_witness :
  let c := generate_ics accept_all [ex_lecture] ex_start ex_end [3] in
  map (fun o => Cal.dt_date (o_begin o) - ex_start) c = [1; 8; 22; 29; 36] /\
  (forall o, In o c ->
     let d := Cal.dt_date (o_begin o) in
     Cal.dt_date (o_end o) = d /\ Cal.weekday d = 1 /\ ex_start <= d <= ex_end /\
     ~ In (Cal.isoweek d) [3])
  /\
  (forall o1 o2, In o1 c -> In o2 c ->
     exists k, Cal.dt_date (o_begin o1) - Cal.dt_date (o_begin o2) = 7 * k).
Proof.
  cbv zeta. split; [reflexivity|].
  apply (C10_recurring_invariant accept_all ex_lecture ex_start ex_end [3] 1);
    try reflexivity.
  - unfold Cal.valid, Cal.MINORD, Cal.MAXORD, ex_start. cbn. lia.
  - unfold Cal.valid, Cal.MINORD, Cal.MAXORD, ex_end. cbn. lia.
Defined.

(** * Further properties of the code *)

(** X1. [extract_events] cuts the lines of the text into blocks and hands
    each block to [process_event_block], in the order of the text.  A block
    is an anchor line with the lines that follow it up to the next anchor;
    the lines before the first anchor belong to no block. *)
Theorem X1_blocks_of_text (text : string) :
  let lines := Str.split newline text in
  extract_events text = flat_map process_event_block (blocks lines) /\
  lines = (preamble lines ++ List.concat (blocks lines))%list /\
  forallb (fun l => negb (is_anchor l)) (preamble lines) = true /\
  forallb is_block (blocks lines) = true.
Proof.
  cbv zeta. split; [apply BlockFacts.extract_events_blocks|].
  apply BlockFacts.segment_spec.
Qed.

(** X2. A text none of whose lines starts with an identifier gives no
    record, whatever schedule lines it holds. *)
Theorem X2_no_anchor_no_record (text : string) :
  forallb (fun l => negb (is_anchor l)) (Str.split newline text) = true ->
  extract_events text = [].
Proof.
  intros H. rewrite BlockFacts.extract_events_blocks.
  rewrite <- (app_nil_r (Str.split newline text)).
  now rewrite (BlockFacts.blocks_no_anchor _ [] H).
Qed.

Lemma X2_no_anchor_no_record_witness :
  extract_events ("Mo 10:00-12:00 Raum 1" ++ String newline "Di 08:00-10:00") = [].
Proof. apply X2_no_anchor_no_record. vm_compute. reflexivity. Defined.

(** X3. The lines before the first anchor are dropped: they change nothing
    of what the rest of the text gives. *)
Theorem X3_lines_before_first_anchor (pre rest : string) :
  forallb (fun l => negb (is_anchor l)) (Str.split newline pre) = true ->
  extract_events (pre ++ String newline rest) = extract_events rest.
Proof.
  intros H. rewrite !BlockFacts.extract_events_blocks, TextFacts.split_app_any.
  now rewrite (BlockFacts.blocks_no_anchor _ _ H).
Qed.

Lemma X3_lines_before_first_anchor_witness :
  extract_events ("Vorlesungsverzeichnis Mo 10:00-12:00" ++ String newline demo_text)
  = extract_events demo_text.
Proof. apply X3_lines_before_first_anchor. vm_compute. reflexivity. Defined.

(** X4. Blocks do not see each other: when the second of two texts starts
    with an anchor line, the records of the two texts joined by a newline
    are the records of the first followed by the records of the second. *)
Theorem X4_blocks_are_independent (a b : string) :
  is_anchor (hd "" (Str.split newline b)) = true ->
  extract_events (a ++ String newline b) = (extract_events a ++ extract_events b)%list.
Proof.
  intros H. rewrite !BlockFacts.extract_events_blocks, TextFacts.split_app_any.
  unfold blocks at 1.
  rewrite (BlockFacts.segment_app _ _ (BlockFacts.preamble_anchor _ H)).
  cbn [snd]. apply flat_map_app.
Qed.

Lemma X4_blocks_are_independent_witness :
  extract_events (demo_text ++ String newline
                    ("2.1.1 Seminar" ++ String newline "Di 08:00-10:00"))
  = (extract_events demo_text ++
     extract_events ("2.1.1 Seminar" ++ String newline "Di 08:00-10:00"))%list.
Proof. apply X4_blocks_are_independent. vm_compute. reflexivity. Defined.

(** X5. Every record carries the identifier of an anchor line of the text:
    two or more runs of digits joined by dots, with which that line starts.
    Its title is the cleaned title of that line, and its label is the
    identifier, a blank and the title. *)
Theorem X5_record_identity (text : string) (e : event) :
  In e (extract_events text) ->
  is_course_id (ev_id e) = true /\
  ev_full_label e = ev_id e ++ " " ++ ev_title e /\
  exists header id_match raw_title,
    In header (Str.split newline text) /\
    Re.rmatch id_pattern header = Some id_match /\
    Re.group id_match 1 = Some (ev_id e) /\
    Re.group id_match 3 = Some raw_title /\
    Str.startswith header (ev_id e) = true /\
    ev_title e = clean_title_logic (ev_id e) raw_title.
Proof.
  intros H. apply RecordFacts.extracted_shape in H. destruct H as [Hwf Hheader].
  apply KeyFacts.well_formed_fields in Hwf. destruct Hwf as (Hid & Hlabel & _).
  now repeat split.
Qed.

Lemma X5_record_identity_witness :
  is_course_id (ev_id demo_weekly) = true /\
  ev_full_label demo_weekly = ev_id demo_weekly ++ " " ++ ev_title demo_weekly /\
  exists header id_match raw_title,
    In header (Str.split newline demo_text) /\
    Re.rmatch id_pattern header = Some id_match /\
    Re.group id_match 1 = Some (ev_id demo_weekly) /\
    Re.group id_match 3 = Some raw_title /\
    Str.startswith header (ev_id demo_weekly) = true /\
    ev_title demo_weekly = clean_title_logic (ev_id demo_weekly) raw_title.
Proof. apply X5_record_identity. vm_compute. left. reflexivity. Defined.

(** X6. The schedule fields of every record are readable: the weekday is
    one of the seven keys of the weekday table, and the start and end time
    are two digits, a colon and two digits.  Such a time written with the
    digits 0 to 9 is read by ['%H:%M'] as a time of day exactly when the
    hour is below 24 and the minute below 60. *)
Theorem X6_record_schedule (text : string) (e : event) :
  In e (extract_events text) ->
  In (ev_weekday e) weekdays /\ weekday_map (ev_weekday e) <> None /\
  is_clock (ev_start_time e) = true /\ is_clock (ev_end_time e) = true /\
  (plain (ev_start_time e) = true ->
   Cal.parse_time (ev_start_time e) = clock_value (ev_start_time e)) /\
  (plain (ev_end_time e) = true ->
   Cal.parse_time (ev_end_time e) = clock_value (ev_end_time e)).
Proof.
  intros H. apply RecordFacts.extracted_shape in H. destruct H as [Hwf _].
  apply KeyFacts.well_formed_fields in Hwf.
  destruct Hwf as (_ & _ & Hday & Hstart & Hend & _).
  repeat split; try assumption.
  - now apply DedupFacts.mem_str_In.
  - now apply ExportMoreFacts.weekday_known.
  - intros _. now apply ClockFacts.parse_time_clock.
  - intros _. now apply ClockFacts.parse_time_clock.
Qed.

Lemma X6_record_schedule_witness :
  In (ev_weekday demo_day) weekdays /\ weekday_map (ev_weekday demo_day) <> None /\
  is_clock (ev_start_time demo_day) = true /\ is_clock (ev_end_time demo_day) = true /\
  Cal.parse_time (ev_start_time demo_day) = clock_value (ev_start_time demo_day) /\
  Cal.parse_time (ev_end_time demo_day) = clock_value (ev_end_time demo_day).
Proof.
  destruct (X6_record_schedule demo_text demo_day) as (Hd & Hk & Hs & He & Hps & Hpe).
  - vm_compute. right. left. reflexivity.
  - exact (conj Hd (conj Hk (conj Hs (conj He (conj (Hps eq_refl) (Hpe eq_refl)))))).
Defined.

(** X7. A record is RECURRING exactly when it has no date.  The date of a
    ONE_OFF record is written "dd.mm.yyy" or "dd.mm.yyyy", never with a
    year of two digits.  Such a date written with the digits 0 to 9 is read
    by ['%d.%m.%Y'] exactly when the year has four digits and the calendar
    has the day. *)
Theorem X7_record_date (text : string) (e : event) :
  In e (extract_events text) ->
  (ev_type e = recurring /\ ev_date e = None) \/
  (exists d, ev_type e = single /\ ev_date e = Some d /\ is_full_date d = true /\
             (plain d = true -> Cal.strptime_date d = date_value d)).
Proof.
  intros H. apply RecordFacts.extracted_shape in H. destruct H as [Hwf _].
  apply KeyFacts.well_formed_fields in Hwf.
  destruct Hwf as (_ & _ & _ & _ & _ & _ & [[Hd Ht]|(d & Hd & Ht & Hfull)]).
  - left. now split.
  - right. exists d. repeat split; try assumption.
    intros _. now apply ClockFacts.strptime_full_date.
Qed.

Lemma X7_record_date_witness :
  ev_type demo_day = single /\ ev_date demo_day = Some "05.01.2024" /\
  is_full_date "05.01.2024" = true /\
  Cal.strptime_date "05.01.2024" = date_value "05.01.2024".
Proof.
  destruct (X7_record_date demo_text demo_day) as [[Ht _]|(d & Ht & Hd & Hfull & Hp)].
  - vm_compute. right. left. reflexivity.
  - discriminate Ht.
  - injection Hd as <-. exact (conj Ht (conj eq_refl (conj Hfull (Hp eq_refl)))).
Defined.

(** X8. The location of every record is the sentinel "TBA" or a text that
    starts with one of the keywords Raum, Aula and Hörsaal. *)
Theorem X8_record_location (text : string) (e : event) :
  In e (extract_events text) -> is_location (ev_location e) = true.
Proof.
  intros H. apply RecordFacts.extracted_shape in H. destruct H as [Hwf _].
  now apply KeyFacts.well_formed_fields in Hwf.
Qed.

Lemma X8_record_location_witness : is_location (ev_location demo_day) = true.
Proof. apply (X8_record_location demo_text). vm_compute. right. left. reflexivity. Defined.

(** X9. On the records the extraction produces, the key of the
    deduplication is unambiguous: two records have the same key exactly
    when they agree on identifier, title, weekday, start time and date. *)
Theorem X9_key_of_extracted_records (text1 text2 : string) (e1 e2 : event) :
  In e1 (extract_events text1) -> In e2 (extract_events text2) ->
  (sig e1 = sig e2 <->
   ev_id e1 = ev_id e2 /\ ev_title e1 = ev_title e2 /\
   ev_weekday e1 = ev_weekday e2 /\ ev_start_time e1 = ev_start_time e2 /\
   ev_date e1 = ev_date e2).
Proof.
  intros H1 H2. apply RecordFacts.extracted_shape in H1, H2.
  destruct H1 as [W1 _], H2 as [W2 _]. split.
  - now apply KeyFacts.sig_inj.
  - intros (Hid & Ht & Hw & Hs & Hd). unfold sig. congruence.
Qed.

Lemma X9_key_of_extracted_records_witness :
  sig demo_weekly = sig demo_day <->
  ev_id demo_weekly = ev_id demo_day /\ ev_title demo_weekly = ev_title demo_day /\
  ev_weekday demo_weekly = ev_weekday demo_day /\
  ev_start_time demo_weekly = ev_start_time demo_day /\
  ev_date demo_weekly = ev_date demo_day.
Proof.
  apply (X9_key_of_extracted_records demo_text demo_text).
  - vm_compute. left. reflexivity.
  - vm_compute. right. left. reflexivity.
Defined.

(** X10. The export of a RECURRING record of the extraction whose times are
    written with the digits 0 to 9, over a semester range of dates from
    1 January 1000 on and for every holiday set.  The weekday of the record
    is a key of the weekday table.  When its start or its end is no time of
    day (an hour of 24 or more, a minute of 60 or more) the record has no
    occurrence.  Otherwise it has one occurrence, from its start to its end
    time, on each stride day of its weekday outside the holiday weeks, up
    to the first such day for which the calendar library refuses the pair
    of datetimes. *)
Theorem X10_recurring_record_export (ics_accepts : Cal.datetime -> Cal.datetime -> bool)
    (text : string) (e : event) (semester_start semester_end : Z)
    (holiday_weeks : list Z) :
  In e (extract_events text) -> ev_type e = recurring ->
  plain (ev_start_time e) = true -> plain (ev_end_time e) = true ->
  Cal.ymd2ord 1000 1 1 <= semester_start ->
  Cal.valid semester_start -> Cal.valid semester_end ->
  exists target,
    weekday_map (ev_weekday e) = Some target /\
    generate_ics ics_accepts [e] semester_start semester_end holiday_weeks
    = match clock_value (ev_start_time e), clock_value (ev_end_time e) with
      | Some (h1, m1), Some (h2, m2) =>
          map (fun d => Occurrence (ev_full_label e) (ev_location e)
                          (Cal.DateTime d h1 m1) (Cal.DateTime d h2 m2))
              (take_while
                 (fun d => ics_accepts (Cal.DateTime d h1 m1) (Cal.DateTime d h2 m2))
                 (filter (fun d => negb (mem_Z (Cal.isoweek d) holiday_weeks))
                         (strides (first_on semester_start target) semester_end)))
      | _, _ => []
      end.
Proof.
  intros H Ht _ _ Hyear Hs He. apply RecordFacts.extracted_shape in H. destruct H as [Hwf _].
  apply KeyFacts.well_formed_fields in Hwf.
  destruct Hwf as (_ & _ & Hday & Hstart & Hend & _).
  apply ExportMoreFacts.weekday_known in Hday.
  destruct (weekday_map (ev_weekday e)) as [target|] eqn:Hw; [|contradiction].
  exists target. split; [reflexivity|].
  rewrite ExportFacts.generate_ics_recurring by assumption.
  unfold days_of. rewrite Hw.
  pose proof (LoopFacts.first_on_spec semester_start target
                (LoopFacts.weekday_map_range _ _ Hw)) as [Hfirst _].
  apply ClockFacts.parse_time_clock in Hstart, Hend.
  destruct (clock_value (ev_start_time e)) as [[h1 m1]|] eqn:E1.
  - destruct (clock_value (ev_end_time e)) as [[h2 m2]|] eqn:E2.
    + apply (ExportFacts.emitted_until ics_accepts e holiday_weeks _
               (fun d => ics_accepts (Cal.DateTime d h1 m1) (Cal.DateTime d h2 m2))).
      intros d Hd. apply LoopFacts.In_strides in Hd. destruct Hd as (k & Hk & -> & _).
      assert (Hd : Cal.ymd2ord 1000 1 1 <= first_on semester_start target + 7 * k) by lia.
      apply CalFacts.year_from_1000, Z.leb_le in Hd.
      unfold occurrence_on. rewrite Hd, Hstart, Hend. reflexivity.
    + apply ExportFacts.emitted_none. intros d. unfold occurrence_on.
      rewrite Hstart, Hend. now destruct (1000 <=? Cal.year_of d).
  - apply ExportFacts.emitted_none. intros d. unfold occurrence_on.
    rewrite Hstart. now destruct (1000 <=? Cal.year_of d).
Qed.

Lemma X10_recurring_record_export_witness :
  exists target,
    weekday_map (ev_weekday demo_weekly) = Some target /\
    generate_ics accept_all [demo_weekly] ex_start ex_end [3]
    = match clock_value (ev_start_time demo_weekly),
            clock_value (ev_end_time demo_weekly) with
      | Some (h1, m1), Some (h2, m2) =>
          map (fun d => Occurrence (ev_full_label demo_weekly) (ev_location demo_weekly)
                          (Cal.DateTime d h1 m1) (Cal.DateTime d h2 m2))
              (take_while
                 (fun d => accept_all (Cal.DateTime d h1 m1) (Cal.DateTime d h2 m2))
                 (filter (fun d => negb (mem_Z (Cal.isoweek d) [3]))
                         (strides (first_on ex_start target) ex_end)))
      | _, _ => []
      end.
Proof.
  apply (X10_recurring_record_export accept_all demo_text).
  - vm_compute. left. reflexivity.
  - reflexivity.
  - reflexivity.
  - reflexivity.
  - discriminate.
  - vm_compute. split; discriminate.
  - vm_compute. split; discriminate.
Defined.

(** X11. The export of a ONE_OFF record of the extraction whose date and
    times are written with the digits 0 to 9, for every semester range and
    holiday set: one occurrence on the day its date names, from its start
    to its end time, when the date is a day of the calendar written with a
    year of four digits, both times are times of day and the calendar
    library takes the pair; no occurrence otherwise. *)
Theorem X11_one_off_export (ics_accepts : Cal.datetime -> Cal.datetime -> bool)
    (text : string) (e : event) (d : string) (semester_start semester_end : Z)
    (holiday_weeks : list Z) :
  In e (extract_events text) -> ev_type e = single -> ev_date e = Some d ->
  plain d = true -> plain (ev_start_time e) = true -> plain (ev_end_time e) = true ->
  generate_ics ics_accepts [e] semester_start semester_end holiday_weeks
  = match date_value d, clock_value (ev_start_time e),
          clock_value (ev_end_time e) with
    | Some n, Some (h1, m1), Some (h2, m2) =>
        if ics_accepts (Cal.DateTime n h1 m1) (Cal.DateTime n h2 m2)
        then [Occurrence (ev_full_label e) (ev_location e)
                (Cal.DateTime n h1 m1) (Cal.DateTime n h2 m2)]
        else []
    | _, _, _ => []
    end.
Proof.
  intros H Ht Hd _ _ _. apply RecordFacts.extracted_shape in H. destruct H as [Hwf _].
  rewrite ExportFacts.generate_ics_single by assumption.
  now apply ExportMoreFacts.add_single_well_formed.
Qed.

Lemma X11_one_off_export_witness :
  generate_ics accept_all [demo_day] ex_start ex_end [1]
  = match date_value "05.01.2024", clock_value (ev_start_time demo_day),
          clock_value (ev_end_time demo_day) with
    | Some n, Some (h1, m1), Some (h2, m2) =>
        if accept_all (Cal.DateTime n h1 m1) (Cal.DateTime n h2 m2)
        then [Occurrence (ev_full_label demo_day) (ev_location demo_day)
                (Cal.DateTime n h1 m1) (Cal.DateTime n h2 m2)]
        else []
    | _, _, _ => []
    end.
Proof.
  apply (X11_one_off_export accept_all demo_text).
  - vm_compute. right. left. reflexivity.
  - reflexivity.
  - reflexivity.
  - reflexivity.
  - reflexivity.
  - reflexivity.
Defined.

(** X12. The records of a batch are exported one after the other and
    independently: the calendar of two batches in a row is the calendar of
    the first followed by the calendar of the second, and the empty batch
    gives the empty calendar. *)
Theorem X12_calendar_of_batches (ics_accepts : Cal.datetime -> Cal.datetime -> bool)
    (first second : list event) (semester_start semester_end : Z)
    (holiday_weeks : list Z) :
  generate_ics ics_accepts [] semester_start semester_end holiday_weeks = [] /\
  generate_ics ics_accepts (first ++ second) semester_start semester_end holiday_weeks
  = (generate_ics ics_accepts first semester_start semester_end holiday_weeks ++
     generate_ics ics_accepts second semester_start semester_end holiday_weeks)%list.
Proof.
  split; [reflexivity|].
  rewrite !(LoopFacts.generate_ics_flat_map ics_accepts). apply flat_map_app.
Qed.

(** X13. Every occurrence of the calendar belongs to a record of the batch:
    it has the label and the location of that record, and its begin and end
    were taken by the calendar library. *)
Theorem X13_occurrence_of_a_record (ics_accepts : Cal.datetime -> Cal.datetime -> bool)
    (selected_events : list event) (semester_start semester_end : Z)
    (holiday_weeks : list Z) (o : occurrence) :
  In o (generate_ics ics_accepts selected_events semester_start semester_end
          holiday_weeks) ->
  exists event, In event selected_events /\ stamped ics_accepts event o.
Proof.
  rewrite (LoopFacts.generate_ics_flat_map ics_accepts). intros H.
  apply in_flat_map in H. destruct H as (event & Hin & H).
  exists event. split; [exact Hin|].
  unfold generate_ics in H. cbn [fold_left] in H.
  now apply ExportMoreFacts.add_event_stamped in H.
Qed.

Lemma X13_occurrence_of_a_record_witness :
  exists event,
    In event [demo_day; demo_weekly] /\
    stamped accept_all event
      (Occurrence "1.3 Analysis" "Raum 101"
         (Cal.DateTime (Cal.ymd2ord 2024 1 8) 10 0)
         (Cal.DateTime (Cal.ymd2ord 2024 1 8) 12 0)).
Proof.
  apply (X13_occurrence_of_a_record accept_all [demo_day; demo_weekly] ex_start ex_end [1]).
  vm_compute. right. left. reflexivity.
Defined.

(** X14. The search ids read from the query are clean: none is empty, none
    has whitespace at its ends, none holds a comma. *)
Theorem X14_search_ids_are_clean (query t : string) :
  In t (search_ids query) -> clean_token t = true.
Proof.
  intros H. apply TextFacts.search_ids_In in H. destruct H as (Hne & piece & Hp & ->).
  unfold clean_token. rewrite TextFacts.strip_idem, String.eqb_refl.
  rewrite (TextFacts.contains_strip _ _ (TextFacts.split_pieces _ _ _ Hp)).
  destruct (String.eqb_spec (Str.strip piece) ""); [contradiction | reflexivity].
Qed.

Lemma X14_search_ids_are_clean_witness : clean_token "4.2" = true.
Proof.
  apply (X14_search_ids_are_clean " 1.3 , ,4.2 ").
  vm_compute. right. left. reflexivity.
Defined.

(** X15. Clean search ids written one after the other, with a comma and a
    blank between them, are read back as they are, in their order. *)
Theorem X15_query_round_trip (ids : list string) :
  forallb clean_token ids = true -> search_ids (Str.join ", " ids) = ids.
Proof.
  destruct ids as [|t ids]; [reflexivity|]. cbn [forallb]. intros H.
  apply andb_true_iff in H as [Ht Hall].
  exact (TextFacts.search_ids_join_after ids Hall t "" Ht (or_introl eq_refl)).
Qed.

Lemma X15_query_round_trip_witness :
  search_ids (Str.join ", " ["1.3"; "4.2.1"; "7"]) = ["1.3"; "4.2.1"; "7"].
Proof. apply X15_query_round_trip. vm_compute. reflexivity. Defined.

(** X16. Narrowing a search: filtering the matches of a search id by a
    longer id that starts with it gives the matches of the longer id. *)
Theorem X16_narrower_search (all_events : list event) (s_id longer : string) :
  Str.startswith longer s_id = true ->
  matches (matches all_events s_id) longer = matches all_events longer.
Proof.
  intros H. unfold matches.
  induction all_events as [|e l IH]; cbn [filter]; [reflexivity|].
  destruct (Str.startswith (ev_id e) longer) eqn:E'.
  - assert (Str.startswith (ev_id e) s_id = true) as ->
      by (unfold Str.startswith in *; eapply SelectFacts.prefix_trans; eassumption).
    cbn [filter]. now rewrite E', IH.
  - destruct (Str.startswith (ev_id e) s_id); [cbn [filter]; rewrite E'|]; exact IH.
Qed.

Lemma X16_narrower_search_witness :
  matches (matches [ex_lecture; ex_seminar; demo_day] "1.3") "1.3.1"
  = matches [ex_lecture; ex_seminar; demo_day] "1.3.1".
Proof. apply X16_narrower_search. reflexivity. Defined.

(** X17. The deduplication works record by record: a record that arrives
    after a list is dropped when its key occurred in the list, and is put at
    the end of the kept records otherwise. *)
Theorem X17_dedup_next_record (events : list event) (e : event) :
  unique_events [] = [] /\
  unique_events (events ++ [e]) =
  if mem_str (sig e) (map sig events) then unique_events events
  else (unique_events events ++ [e])%list.
Proof.
  split; [reflexivity|].
  unfold unique_events. rewrite SelectFacts.dedup_loop_append. cbn [dedup_loop].
  rewrite (SelectFacts.mem_str_ext (sig e) (seen_after events []) (map sig events)).
  - destruct (mem_str (sig e) (map sig events)); reflexivity.
  - intros s. rewrite SelectFacts.seen_after_In. cbn [In]. tauto.
Qed.

(** X18. Deduplicating twice changes nothing, and the records that are kept
    have pairwise different keys. *)
Theorem X18_dedup_idempotent (events : list event) :
  unique_events (unique_events events) = unique_events events /\
  NoDup (map sig (unique_events events)).
Proof.
  split; [apply SelectFacts.unique_events_idem|].
  destruct (DedupFacts.dedup_loop_spec events [] []) as (H & _);
    [tauto | constructor | exact H].
Qed.

(** X19. [clean_title_string] leaves no hyphen in a title and cleaning a
    cleaned title changes nothing; [clean_title_logic] gives the same title
    for an identifier with exactly one dot. *)
Theorem X19_clean_title_string_cut (title : string) :
  Str.contains "-" (clean_title_string title) = false /\
  clean_title_string (clean_title_string title) = clean_title_string title /\
  forall course_id,
    Str.count "." course_id = 1 ->
    clean_title_logic course_id title = clean_title_string title.
Proof.
  split; [apply TextFacts.clean_title_string_no_hyphen|].
  split; [apply TextFacts.clean_title_string_idem|].
  intros course_id H. unfold clean_title_logic, clean_title_string. now rewrite H.
Qed.

(** X20. The walk of [detect_holiday_weeks] ends for every range, and a
    range whose end lies before its start has no holiday week. *)
Theorem X20_holiday_walk_ends (events : list event) (semester_start semester_end : Z) :
  detect_holiday_weeks events semester_start semester_end <> NoFuel /\
  (semester_end < semester_start ->
   detect_holiday_weeks events semester_start semester_end = Ok []).
Proof.
  split; [apply ExportMoreFacts.detect_not_NoFuel | apply ExportMoreFacts.detect_reversed].
Qed.

(** X21. The holiday weeks are ISO week numbers: a strictly increasing list
    of at most 53 numbers between 1 and 53, each the week of a 7-day stride
    of the range and none the week of a ONE_OFF session, for every range. *)
Theorem X21_holiday_weeks_are_week_numbers (events : list event)
    (semester_start semester_end : Z) (holiday_weeks : list Z) :
  detect_holiday_weeks events semester_start semester_end = Ok holiday_weeks ->
  StronglySorted Z.lt holiday_weeks /\
  (List.length holiday_weeks <= 53)%nat /\
  forall w, In w holiday_weeks ->
    1 <= w <= 53 /\ ~ active_week events w /\
    exists k, 0 <= k /\ semester_start + 7 * k <= semester_end /\
              Cal.isoweek (semester_start + 7 * k) = w.
Proof.
  intros H. apply WeekFacts.detect_members in H. destruct H as [Hsorted Hmem].
  assert (Hrange : forall w, In w holiday_weeks -> 1 <= w <= 53).
  { intros w Hw. destruct (Hmem w Hw) as (_ & k & _ & _ & <-).
    apply WeekFacts.isoweek_range. }
  split; [exact Hsorted|]. split.
  - pose proof (WeekFacts.sorted_bounded _ Hsorted 1 53 Hrange). lia.
  - intros w Hw. split; [now apply Hrange | now apply Hmem].
Qed.

Lemma X21_holiday_weeks_are_week_numbers_witness :
  StronglySorted Z.lt [2; 3; 4; 5; 6] /\
  (List.length [2; 3; 4; 5; 6] <= 53)%nat /\
  forall w, In w [2; 3; 4; 5; 6] ->
    1 <= w <= 53 /\ ~ active_week [demo_weekly; demo_day] w /\
    exists k, 0 <= k /\ ex_start + 7 * k <= ex_end /\
              Cal.isoweek (ex_start + 7 * k) = w.
Proof.
  apply X21_holiday_weeks_are_week_numbers. vm_compute. reflexivity.
Defined.

(** X22. With the semester range detected from the listing (the earliest
    and the latest date of its records that parse), the range is in order,
    and the weeks of its first and of its last day are never holiday
    weeks. *)
Theorem X22_detected_range (text : string) (semester_start semester_end : Z) :
  detected_range (extract_events text) = Some (semester_start, semester_end) ->
  semester_start <= semester_end /\
  forall holiday_weeks,
    detect_holiday_weeks (extract_events text) semester_start semester_end
    = Ok holiday_weeks ->
    ~ In (Cal.isoweek semester_start) holiday_weeks /\
    ~ In (Cal.isoweek semester_end) holiday_weeks.
Proof.
  intros H. apply WeekFacts.detected_range_spec in H. destruct H as (Hs & He & Hall).
  split; [apply (Hall _ He)|].
  assert (Hact : forall d, In d (found_dates (extract_events text)) ->
                   active_week (extract_events text) (Cal.isoweek d)).
  { intros d Hd. apply WeekFacts.found_dates_In in Hd.
    destruct Hd as (e & a & t & Hin & Hdate & Hparse). exists e. split; [exact Hin|].
    pose proof (RecordFacts.extracted_shape _ _ Hin) as [Hwf _].
    apply KeyFacts.well_formed_fields in Hwf.
    destruct Hwf as (_ & _ & _ & _ & _ & _ & [[Hn _]|(d' & _ & Htype & _)]);
      [congruence|].
    unfold parsed_week. now rewrite Htype, Hdate, Hparse. }
  intros hw Hhw. apply WeekFacts.detect_members in Hhw. destruct Hhw as (_ & Hw).
  split; intros Hin; apply Hw in Hin; destruct Hin as (Hn & _); apply Hn, Hact;
    assumption.
Qed.

Lemma X22_detected_range_witness :
  Cal.ymd2ord 2024 1 5 <= Cal.ymd2ord 2024 1 5 /\
  forall holiday_weeks,
    detect_holiday_weeks (extract_events demo_text)
      (Cal.ymd2ord 2024 1 5) (Cal.ymd2ord 2024 1 5) = Ok holiday_weeks ->
    ~ In (Cal.isoweek (Cal.ymd2ord 2024 1 5)) holiday_weeks /\
    ~ In (Cal.isoweek (Cal.ymd2ord 2024 1 5)) holiday_weeks.
Proof. apply (X22_detected_range demo_text). vm_compute. reflexivity. Defined.

(** X23. The two programs find the same sessions in a text, in the same
    order: their records agree on every field but the title and the label.
    The titles of ai_studio_code-3.py hold no hyphen, and for an identifier
    with exactly one dot the records are equal. *)
Theorem X23_two_programs_same_sessions (text : string) :
  Forall2 (fun v e =>
             same_session (AiStudio.v_event v) e /\
             Str.contains "-" (ev_title (AiStudio.v_event v)) = false /\
             (Str.count "." (ev_id e) = 1 -> AiStudio.v_event v = e))
          (AiStudio.extract_events text) (extract_events text).
Proof.
  unfold AiStudio.extract_events. rewrite AiFacts.ai_extract_loop_blocks.
  rewrite BlockFacts.extract_events_blocks. cbn [app].
  apply AiFacts.Forall2_flat_map. intros block _.
  pose proof (AiFacts.process_event_block_events block) as E.
  apply AiFacts.map_eq_Forall2 in E. eapply Forall2_impl; [|exact E].
  cbv beta. intros v e [Hv He]. rewrite Hv. split; [apply AiFacts.retitle_same|].
  split; [apply AiFacts.block_title_no_hyphen|].
  intros Hdots. apply ShapeFacts.process_event_block_shape in He.
  destruct He as (header & rest & m & course_id & raw_title & -> & Hm & E1 & E3
                  & _ & Hwf & Hid & Ht).
  apply KeyFacts.well_formed_fields in Hwf. destruct Hwf as (_ & Hlabel & _).
  assert (block_title (header :: rest) = ev_title e) as ->.
  { unfold block_title. rewrite Hm, E3, Ht. unfold clean_title_logic, clean_title_string.
    rewrite <- Hid, Hdots. reflexivity. }
  now apply AiFacts.retitle_own.
Qed.

(** X24. The signature of a time slot is unambiguous on the variants the
    extraction produces: two variants with the same signature have the same
    weekday, start time, end time and location. *)
Theorem X24_signature_of_time_slot (text1 text2 : string) (v1 v2 : AiStudio.variant) :
  In v1 (AiStudio.extract_events text1) -> In v2 (AiStudio.extract_events text2) ->
  AiStudio.v_signature v1 = AiStudio.v_signature v2 ->
  ev_weekday (AiStudio.v_event v1) = ev_weekday (AiStudio.v_event v2) /\
  ev_start_time (AiStudio.v_event v1) = ev_start_time (AiStudio.v_event v2) /\
  ev_end_time (AiStudio.v_event v1) = ev_end_time (AiStudio.v_event v2) /\
  ev_location (AiStudio.v_event v1) = ev_location (AiStudio.v_event v2).
Proof.
  intros H1 H2 E. apply AiFacts.extracted_signature in H1, H2.
  destruct H1 as (s1 & e1 & E1 & Lw1 & Ls1 & Le1 & Es1 & Ee1).
  destruct H2 as (s2 & e2 & E2 & Lw2 & Ls2 & Le2 & Es2 & Ee2).
  rewrite E1, E2 in E. apply AiFacts.signature_inj in E; try assumption.
  destruct E as (Hw & Hs & He & Hl). rewrite Es1, Es2, Ee1, Ee2. now subst.
Qed.

Lemma X24_signature_of_time_slot_witness :
  demo_analysis <> demo_algebra /\
  ev_weekday (AiStudio.v_event demo_analysis) = ev_weekday (AiStudio.v_event demo_algebra) /\
  ev_start_time (AiStudio.v_event demo_analysis)
  = ev_start_time (AiStudio.v_event demo_algebra) /\
  ev_end_time (AiStudio.v_event demo_analysis) = ev_end_time (AiStudio.v_event demo_algebra) /\
  ev_location (AiStudio.v_event demo_analysis) = ev_location (AiStudio.v_event demo_algebra).
Proof.
  split; [discriminate|].
  apply (X24_signature_of_time_slot demo_pair_text demo_pair_text).
  - vm_compute. left. reflexivity.
  - vm_compute. right. left. reflexivity.
  - reflexivity.
Defined.

(** X25. [unique_slots] keeps the first variant of every signature: the
    slots are variants of the module with pairwise different signatures,
    and every variant of the module has the signature of one of them. *)
Theorem X25_first_variant_of_every_slot (variants : list AiStudio.variant) :
  AiStudio.slot_list variants = firsts [] variants /\
  NoDup (map AiStudio.v_signature (AiStudio.slot_list variants)) /\
  (forall v, In v (AiStudio.slot_list variants) -> In v variants) /\
  (forall v, In v variants ->
     exists v', In v' (AiStudio.slot_list variants) /\
                AiStudio.v_signature v' = AiStudio.v_signature v).
Proof.
  rewrite AiFacts.slot_list_firsts. split; [reflexivity|].
  destruct (AiFacts.firsts_spec variants []) as (H1 & H2 & H3).
  split; [exact H2|]. split.
  - intros v Hv. now apply H1.
  - intros v Hv. destruct (H3 v Hv) as [[]|H]. exact H.
Qed.

(** X26. A module is selected without a question exactly when all its
    variants have the signature of the first one, and then the first
    variant is the one that is exported. *)
Theorem X26_auto_selected_module (v : AiStudio.variant) (rest : list AiStudio.variant) :
  AiStudio.auto_selected [] = [] /\
  AiStudio.auto_selected (v :: rest) =
  if forallb (fun x => (AiStudio.v_signature x =? AiStudio.v_signature v)%string) rest
  then [v] else [].
Proof.
  split; [reflexivity|].
  unfold AiStudio.auto_selected. rewrite AiFacts.slot_list_firsts. cbn [firsts mem_str].
  destruct (forallb _ rest) eqn:E.
  - assert (firsts [AiStudio.v_signature v] rest = []) as ->; [|reflexivity].
    apply AiFacts.firsts_nil. intros x Hx. rewrite forallb_forall in E.
    apply E, String.eqb_eq in Hx. left. now symmetry.
  - destruct (firsts [AiStudio.v_signature v] rest) eqn:F; [|reflexivity].
    exfalso. assert (forallb (fun x => (AiStudio.v_signature x =?
                                         AiStudio.v_signature v)%string) rest = true);
      [|congruence].
    apply forallb_forall. intros x Hx.
    apply (proj1 (AiFacts.firsts_nil _ _) F) in Hx. destruct Hx as [<-|[]].
    apply String.eqb_refl.
Qed.

(** X27. On records of the extraction the deduplication merges only
    records that agree on identifier, title, weekday, start time and date:
    every selected record has exactly one kept record with these five
    fields. *)
Theorem X27_dedup_of_extracted_records (text : string) (selected : list event)
    (e : event) :
  (forall x, In x selected -> In x (extract_events text)) ->
  In e selected ->
  exists kept,
    In kept (unique_events selected) /\ same_key_fields kept e /\
    forall other,
      In other (unique_events selected) -> same_key_fields other e -> other = kept.
Proof.
  intros Hsel He.
  destruct (DedupFacts.dedup_loop_spec selected [] []) as (Hnd & Hsub & Hrep);
    [intros s; tauto | constructor |].
  destruct (Hrep e He) as (kept & Hk & Hsig). exists kept.
  split; [exact Hk|]. split.
  - destruct (Hsub kept Hk) as [[]|Hin].
    pose proof (RecordFacts.extracted_shape _ _ (Hsel _ Hin)) as [W1 _].
    pose proof (RecordFacts.extracted_shape _ _ (Hsel _ He)) as [W2 _].
    now apply KeyFacts.sig_inj.
  - intros other Ho (Hid & Ht & Hw & Hs & Hd).
    apply (DedupFacts.NoDup_map_eq sig _ _ _ Hnd Ho Hk).
    rewrite Hsig. unfold sig. congruence.
Qed.

Lemma X27_dedup_of_extracted_records_witness :
  exists kept,
    In kept (unique_events [demo_weekly; demo_day; demo_weekly]) /\
    same_key_fields kept demo_weekly /\
    forall other,
      In other (unique_events [demo_weekly; demo_day; demo_weekly]) ->
      same_key_fields other demo_weekly -> other = kept.
Proof.
  apply (X27_dedup_of_extracted_records demo_text).
  - intros x [<-|[<-|[<-|[]]]]; vm_compute; tauto.
  - now left.
Defined.

(** X28. The calendar stays small: every record gives at most one
    occurrence per week of the semester range (and a ONE_OFF record at most
    one), so a batch gives at most its number of records times the number
    of weeks of the range. *)
Theorem X28_calendar_size (ics_accepts : Cal.datetime -> Cal.datetime -> bool)
    (selected_events : list event) (semester_start semester_end : Z)
    (holiday_weeks : list Z) :
  Cal.valid semester_start -> Cal.valid semester_end ->
  Z.of_nat (List.length (generate_ics ics_accepts selected_events semester_start
                           semester_end holiday_weeks))
  <= Z.of_nat (List.length selected_events)
     * Z.max 1 ((semester_end - semester_start) / 7 + 1).
Proof.
  intros Hs He. rewrite (LoopFacts.generate_ics_flat_map ics_accepts).
  induction selected_events as [|e l IH]; cbn [flat_map List.length]; [lia|].
  rewrite length_app.
  pose proof (ExportMoreFacts.record_length ics_accepts e _ _ holiday_weeks Hs He).
  lia.
Qed.

Lemma X28_calendar_size_witness :
  Z.of_nat (List.length (generate_ics accept_all [demo_weekly; demo_day] ex_start
                           ex_end [2]))
  <= Z.of_nat (List.length [demo_weekly; demo_day])
     * Z.max 1 ((ex_end - ex_start) / 7 + 1).
Proof. apply X28_calendar_size; vm_compute; split; discriminate. Defined.

(** X29. Without a ONE_OFF session (a record of type [single] that carries a
    date) in the input, [detect_holiday_weeks] returns the empty holiday
    set, for every semester range. *)
Theorem X29_no_dated_session_no_holiday (events : list event)
    (semester_start semester_end : Z) :
  existsb one_off events = false ->
  detect_holiday_weeks events semester_start semester_end = Ok [].
Proof. apply HolidayFacts.detect_no_one_off. Qed.

Lemma X29_no_dated_session_no_holiday_witness :
  detect_holiday_weeks [ex_lecture; demo_weekly] ex_start ex_end = Ok [].
Proof. apply X29_no_dated_session_no_holiday. reflexivity. Defined.

(** X30. With a ONE_OFF session in the input, whether its date parses or
    not, [detect_holiday_weeks] walks the range in 7-day strides from its
    start and returns the strictly increasing list of the stride weeks in
    which no ONE_OFF session with a date that parses lies. *)
Theorem X30_holiday_walk_with_dated_session (events : list event)
    (semester_start semester_end : Z) :
  existsb one_off events = true ->
  Cal.valid semester_start -> semester_end + 7 <= Cal.MAXORD ->
  exists hw,
    detect_holiday_weeks events semester_start semester_end = Ok hw /\
    StronglySorted Z.lt hw /\
    forall w, In w hw <->
      (exists k, 0 <= k /\ semester_start + 7 * k <= semester_end
                 /\ Cal.isoweek (semester_start + 7 * k) = w)
      /\ ~ active_week events w.
Proof.
  intros Hone [Hs _] He.
  destruct (HolidayFacts.detect_walk events _ _ Hone Hs He) as (hw & E & Hsort & Hin).
  exists hw. split; [exact E|]. split; [exact Hsort|].
  intros w. rewrite Hin. split.
  - intros [(d & Hd & Hw) Hn]. split; [|exact Hn].
    apply LoopFacts.In_strides in Hd. destruct Hd as (k & Hk & -> & Hle). now exists k.
  - intros [(k & Hk & Hle & Hw) Hn]. split; [|exact Hn].
    exists (semester_start + 7 * k). split; [|exact Hw].
    apply LoopFacts.In_strides. now exists k.
Qed.

Lemma X30_holiday_walk_with_dated_session_witness :
  exists hw,
    detect_holiday_weeks [ex_no_such_day; demo_day] ex_start ex_end = Ok hw /\
    StronglySorted Z.lt hw /\
    forall w, In w hw <->
      (exists k, 0 <= k /\ ex_start + 7 * k <= ex_end
                 /\ Cal.isoweek (ex_start + 7 * k) = w)
      /\ ~ active_week [ex_no_such_day; demo_day] w.
Proof.
  apply X30_holiday_walk_with_dated_session.
  - reflexivity.
  - vm_compute. split; discriminate.
  - vm_compute. discriminate.
Defined.
